(** * IFRS financial statements generator: a shallow embedding of [finance_app.py]

    The script reads a set of assumptions from sidebar widgets, parses an
    asset list from free text, runs three passes (income statement, cash
    flow, balance sheet) and formats four display tables.  It is a straight
    line of top-level statements; the embedding follows it section by
    section and keeps its variable names.

    Numbers.  The number widgets return Python [int]s; the growth and tax
    sliders are divided by 100 and the asset values go through [float()], so
    from there on the script computes with IEEE 754 binary64 values.  The
    embedding is written once over a numeric carrier [N] (class [PyNum]) and
    instantiated twice: at binary64 (Rocq's primitive floats, the arithmetic
    the script runs) and at the rationals [Qc] (exact arithmetic, the
    formulas as they read on paper).  Every int operand is promoted to the
    carrier before it is used.  At binary64 this is what Python does in a
    mixed operation, and it agrees with Python's exact int arithmetic as long
    as the ints involved stay below 2^53 in magnitude, which the number
    widgets guarantee for the inputs themselves ([js_safe]).  One difference
    remains: an int has no negative zero, so where the script negates an int
    that is 0 ([-capex], [-interest_paid]) the binary64 carrier holds -0.0;
    the two are equal as numbers and differ only in their formatted text.

    Frames.  A pandas frame is the list of its rows, a record per row with a
    field per column; [df.iterrows()] pairs the rows with the indices
    [0..n-1].  A frame built from an empty list of dicts has no column, so
    reading a column of it raises [KeyError].

    A column that holds ints only is an int64 column in pandas, and a
    difference of two such columns wraps at 64 bits.  That can happen to the
    two differences the income-statement formatter takes, in a frame of one
    row; from two rows on the Sales, Gross Profit and EBIT columns hold
    floats, and pandas subtracts as the embedding does, in the carrier.

    Exceptions.  What can raise returns a [result]: the division of an asset
    value by its life, list indexing, and column access on an empty frame.
    The string built-ins [float], [int], [round] and [format] are taken as an
    interface (class [PyBuiltins]).  Strings are byte strings, and [strip]
    removes ASCII whitespace only.

    Extent.  The embedding ends with the balance message; the two downloads
    at the end of the script are left out. *)

From Stdlib Require Import ZArith List String Ascii Bool Lia DecimalString.
From Stdlib Require DecimalZ.
From Stdlib Require Import QArith Qcanon Lqa.
From Stdlib Require Import Floats.
Import ListNotations.

Local Open Scope string_scope.
Local Open Scope Z_scope.

(** ** Python runtime: exceptions and the error monad *)

Inductive exn : Type :=
| ZeroDivisionError
| OverflowError
| IndexError
| KeyError.

Inductive result (A : Type) : Type :=
| Ok (a : A)
| Raise (e : exn).
Arguments Ok {A} a.
Arguments Raise {A} e.

Definition bind {A B : Type} (c : result A) (k : A -> result B) : result B :=
  match c with
  | Ok a => k a
  | Raise e => Raise e
  end.

Notation "x <- c ;; k" := (bind c (fun x => k))
  (at level 61, c at next level, right associativity).

(** [for x in xs: acc = body(acc, x)], stopping at the first exception. *)
Fixpoint for_each {A S : Type} (body : S -> A -> result S) (xs : list A) (s : S)
  : result S :=
  match xs with
  | [] => Ok s
  | x :: xs' => s' <- body s x ;; for_each body xs' s'
  end.

(** [[f(x) for x in xs]] for an [f] that may raise. *)
Fixpoint map_result {A B : Type} (f : A -> result B) (xs : list A)
  : result (list B) :=
  match xs with
  | [] => Ok []
  | x :: xs' => y <- f x ;; ys <- map_result f xs' ;; Ok (y :: ys)
  end.

(** [enumerate(xs)] *)
Definition enumerate {A : Type} (xs : list A) : list (nat * A) :=
  combine (seq 0 (List.length xs)) xs.

(** ** Python runtime: the string methods the asset parser uses *)

(** [s.split(sep)] for a one-character separator: never empty, and empty
    fields are kept. *)
Fixpoint split (sep : ascii) (s : string) : list string :=
  match s with
  | EmptyString => [EmptyString]
  | String c s' =>
      if Ascii.eqb c sep then EmptyString :: split sep s'
      else match split sep s' with
           | [] => [String c EmptyString]
           | w :: ws => String c w :: ws
           end
  end.

(** The ASCII characters [str.isspace] accepts: tab to carriage return, the
    four separators 28..31, and the space.  [str.strip] also removes
    non-ASCII whitespace such as U+00A0, which this byte-wise test does not
    see. *)
Definition is_space (c : ascii) : bool :=
  let n := nat_of_ascii c in
  ((9 <=? n) && (n <=? 13) || (28 <=? n) && (n <=? 32))%nat.

Fixpoint lstrip (s : string) : string :=
  match s with
  | EmptyString => EmptyString
  | String c s' => if is_space c then lstrip s' else s
  end.

Fixpoint rstrip (s : string) : string :=
  match s with
  | EmptyString => EmptyString
  | String c s' =>
      match rstrip s' with
      | EmptyString => if is_space c then EmptyString else String c EmptyString
      | t => String c t
      end
  end.

Definition strip (s : string) : string := rstrip (lstrip s).

Definition comma : ascii := ","%char.
Definition newline : ascii := ascii_of_nat 10.

(** ** The numeric carrier *)

Class PyNum (N : Type) : Type := {
  of_int : Z -> N;            (* an int operand promoted to the carrier *)
  int_fits : Z -> bool;       (* the promotion does not raise OverflowError *)
  add : N -> N -> N;
  sub : N -> N -> N;
  mul : N -> N -> N;
  div : N -> N -> N;          (* true division by a non-zero divisor *)
  neg : N -> N;
  absn : N -> N;
  ltb : N -> N -> bool;
  eqb : N -> N -> bool
}.

(** The built-ins the script calls on numbers and numerals. *)
Class PyBuiltins (N : Type) : Type := {
  py_float : string -> option N;   (* float(s); None when it raises *)
  py_int : string -> option Z;     (* int(s); None when it raises *)
  py_round : N -> Z -> N;          (* round(x, ndigits) *)
  format_f : Z -> N -> string      (* format(x, ",.{d}f") *)
}.

Declare Scope py_scope.
Delimit Scope py_scope with py.
Infix "+" := add : py_scope.
Infix "-" := sub : py_scope.
Infix "*" := mul : py_scope.
Infix "/" := div : py_scope.
Notation "- x" := (neg x) : py_scope.

Section Engine.

Context {N : Type} `{PyNum N} `{PyBuiltins N}.

Definition zero : N := of_int 0.
Definition one : N := of_int 1.

(** [x > 0] *)
Definition gt0 (x : N) : bool := ltb zero x.

(** [x / n] for an int [n]: float division converts [n] first (OverflowError
    when it is too large) and then refuses a zero divisor. *)
Definition truediv_int (x : N) (n : Z) : result N :=
  if negb (int_fits n) then Raise OverflowError
  else if n =? 0 then Raise ZeroDivisionError
  else Ok (x / of_int n)%py.

(** [slider(...) / 100] *)
Definition percent (s : Z) : N := (of_int s / of_int 100)%py.

(** The literals [0.20] and [0.10]: the carrier's values nearest to 1/5 and
    1/10. *)
Definition lit_0_20 : N := (of_int 20 / of_int 100)%py.
Definition lit_0_10 : N := (of_int 10 / of_int 100)%py.
Definition lit_0_01 : N := (of_int 1 / of_int 100)%py.

(** ** Assumptions: the sidebar widgets

    Every [number_input] has an int default and therefore returns an int; the
    sliders return ints too (the script divides the percentages by 100). *)

Record Assumptions : Type := {
  years : Z;                         (* slider 1..10 *)
  currency_symbol : string;
  decimals : Z;                      (* number_input 0..6 *)
  opening_cash : Z;
  opening_ar : Z;
  opening_inventory : Z;
  opening_ppe : Z;
  opening_ncl : Z;
  opening_cl : Z;
  opening_equity : Z;
  opening_retained : Z;
  units : Z;
  price_per_unit : Z;
  unit_growth_slider : Z;            (* slider 0..50, percent *)
  price_growth_slider : Z;           (* slider 0..20, percent *)
  variable_cost_per_unit : Z;
  fixed_costs : Z;
  tax_rate_slider : Z;               (* slider 0..50, percent *)
  interest : Z;
  capex_input : Z;
  num_employees : Z;
  avg_salary : Z;
  salary_growth_slider : Z;          (* slider 0..20, percent *)
  assets_input : string
}.

Definition unit_growth (a : Assumptions) : N := percent (unit_growth_slider a).
Definition price_growth (a : Assumptions) : N := percent (price_growth_slider a).
Definition tax_rate (a : Assumptions) : N := percent (tax_rate_slider a).
Definition salary_growth (a : Assumptions) : N := percent (salary_growth_slider a).

(** What the widgets can deliver: the slider ranges, and the magnitude bound
    of an int [number_input] (the largest integer JavaScript holds exactly). *)
Definition js_safe (z : Z) : Prop := - (2 ^ 53) < z < 2 ^ 53.

Record widget_ranges (a : Assumptions) : Prop := {
  wr_years : 1 <= years a <= 10;
  wr_decimals : 0 <= decimals a <= 6;
  wr_unit_growth : 0 <= unit_growth_slider a <= 50;
  wr_price_growth : 0 <= price_growth_slider a <= 20;
  wr_tax_rate : 0 <= tax_rate_slider a <= 50;
  wr_salary_growth : 0 <= salary_growth_slider a <= 20;
  wr_numbers : Forall js_safe
    [opening_cash a; opening_ar a; opening_inventory a; opening_ppe a;
     opening_ncl a; opening_cl a; opening_equity a; opening_retained a;
     units a; price_per_unit a; variable_cost_per_unit a; fixed_costs a;
     interest a; capex_input a; num_employees a; avg_salary a]
}.

(** ** The asset list *)

Definition Asset : Type := (string * N * Z)%type.   (* (name, value, life) *)

(** The body of the parsing loop for one line: [Some] when the line is
    appended, [None] when it is skipped (wrong field count, or [float] or
    [int] raised and the bare [except] swallowed it). *)
Definition parse_line (line : string) : option Asset :=
  let parts := map strip (split comma line) in
  match parts with
  | [p0; p1; p2] =>
      match py_float p1 with
      | None => None
      | Some val =>
          match py_int p2 with
          | None => None
          | Some life => Some (p0, val, life)
          end
      end
  | _ => None
  end.

Fixpoint parse_lines (lines : list string) : list Asset :=
  match lines with
  | [] => []
  | line :: rest =>
      match parse_line line with
      | Some x => x :: parse_lines rest
      | None => parse_lines rest
      end
  end.

Definition parse_assets (assets_input : string) : list Asset :=
  parse_lines (split newline assets_input).

(** ** 1. Income statement *)

(** [sum((val / life) for _, val, life in assets_list) if assets_list else 0]:
    [sum] starts from 0 and adds the quotients from left to right; the
    generator raises at the first quotient that cannot be computed. *)
Definition depreciation_sum (assets_list : list Asset) : result N :=
  match assets_list with
  | [] => Ok zero
  | _ => for_each (fun acc '(_, val, life) =>
                     q <- truediv_int val life ;; Ok (acc + q)%py)
                  assets_list zero
  end.

(** The values bound in one iteration of the income loop. *)
Record YearCalc : Type := {
  year : Z;
  cur_u : N;
  cur_p : N;
  sales : N;
  cogs : N;
  gross_profit : N;
  manpower_cost : N;
  depreciation : N;
  opex : N;
  ebit : N;
  ebt : N;
  taxes : N;
  net_income : N
}.

(** The loop variables [u, p, salary]. *)
Record Drivers : Type := { drv_u : N; drv_p : N; drv_salary : N }.

Definition income_year (a : Assumptions) (assets_list : list Asset)
    (d : Drivers) (yr : Z) : result YearCalc :=
  let sales := (drv_u d * drv_p d)%py in
  let cogs := (drv_u d * of_int (variable_cost_per_unit a))%py in
  let gross_profit := (sales - cogs)%py in
  let manpower_cost := (of_int (num_employees a) * drv_salary d)%py in
  depreciation <- depreciation_sum assets_list ;;
  let opex := (of_int (fixed_costs a) + manpower_cost + depreciation)%py in
  let ebit := (gross_profit - opex)%py in
  let ebt := (ebit - of_int (interest a))%py in
  let taxes := if gt0 ebt then (ebt * tax_rate a)%py else zero in
  let net_income := (ebt - taxes)%py in
  Ok {| year := yr; cur_u := drv_u d; cur_p := drv_p d; sales := sales;
        cogs := cogs; gross_profit := gross_profit;
        manpower_cost := manpower_cost; depreciation := depreciation;
        opex := opex; ebit := ebit; ebt := ebt; taxes := taxes;
        net_income := net_income |}.

(** [u *= (1 + unit_growth)] and its two siblings. *)
Definition grow (a : Assumptions) (d : Drivers) : Drivers :=
  {| drv_u := (drv_u d * (one + unit_growth a))%py;
     drv_p := (drv_p d * (one + price_growth a))%py;
     drv_salary := (drv_salary d * (one + salary_growth a))%py |}.

Definition initial_drivers (a : Assumptions) : Drivers :=
  {| drv_u := of_int (units a);
     drv_p := of_int (price_per_unit a);
     drv_salary := of_int (avg_salary a) |}.

(** [range(1, years + 1)] *)
Definition year_range (n : Z) : list Z :=
  map Z.of_nat (seq 1 (Z.to_nat n)).

(** The income loop: the list of year calculations, oldest first. *)
Fixpoint income_loop (a : Assumptions) (assets_list : list Asset)
    (d : Drivers) (yrs : list Z) : result (list YearCalc) :=
  match yrs with
  | [] => Ok []
  | yr :: rest =>
      y <- income_year a assets_list d yr ;;
      ys <- income_loop a assets_list (grow a d) rest ;;
      Ok (y :: ys)
  end.

Definition income_calcs (a : Assumptions) (assets_list : list Asset)
  : result (list YearCalc) :=
  income_loop a assets_list (initial_drivers a) (year_range (years a)).

(** A row of [df], one field per column of [cols]. *)
Record DfRow : Type := {
  df_Year : string;
  df_Sales : N;
  df_Gross_Profit : N;
  df_Fixed_Costs : N;
  df_Manpower : N;
  df_Depreciation : N;
  df_EBIT : N;
  df_Interest : N;
  df_Taxes : N;
  df_Net_Income : N;
  df_Units : N;
  df_Price_per_Unit : N;
  df_CapEx_Input : N
}.

Definition year_label (yr : Z) : string :=
  "Year " ++ NilZero.string_of_int (Z.to_int yr).

(** [data.append([f"Year {year}", sales, gross_profit, ...])] *)
Definition data_row (a : Assumptions) (y : YearCalc) : DfRow :=
  {| df_Year := year_label (year y);
     df_Sales := sales y;
     df_Gross_Profit := gross_profit y;
     df_Fixed_Costs := of_int (fixed_costs a);
     df_Manpower := manpower_cost y;
     df_Depreciation := depreciation y;
     df_EBIT := ebit y;
     df_Interest := of_int (interest a);
     df_Taxes := taxes y;
     df_Net_Income := net_income y;
     df_Units := cur_u y;
     df_Price_per_Unit := cur_p y;
     df_CapEx_Input := of_int (capex_input a) |}.

Definition income_statement (a : Assumptions) (assets_list : list Asset)
  : result (list DfRow) :=
  ys <- income_calcs a assets_list ;; Ok (map (data_row a) ys).

(** ** 2. Cash flow *)

(** A row of [cf_numeric], one field per key of the dict appended to
    [cf_rows]; [cf_dAR], [cf_dInventory] and [cf_dAP] are the three delta
    columns. *)
Record CfRow : Type := {
  cf_Year : string;
  cf_Net_Income : N;
  cf_Depreciation : N;
  cf_dAR : N;
  cf_dInventory : N;
  cf_dAP : N;
  cf_Net_CF_Ops : N;
  cf_CapEx : N;
  cf_Net_CF_Inv : N;
  cf_Change_NCL : N;
  cf_Change_SC : N;
  cf_Interest_Paid : N;
  cf_Net_CF_Fin : N;
  cf_Net_Change_Cash : N;
  cf_Closing_Cash : N
}.

(** The running "previous" values of the cash-flow loop, with the two lists
    it appends to. *)
Record CfState : Type := {
  ar_prev : N;
  inv_prev : N;
  ppe_prev : N;
  cash_prev : N;
  retained_prev : N;
  ncl_prev : N;
  sc_prev : N;
  cl_prev : N;
  cf_rows : list CfRow;
  closing_cash_list : list N
}.

Definition cf_initial (a : Assumptions) : CfState :=
  {| ar_prev := of_int (opening_ar a);
     inv_prev := of_int (opening_inventory a);
     ppe_prev := of_int (opening_ppe a);
     cash_prev := of_int (opening_cash a);
     retained_prev := of_int (opening_retained a);
     ncl_prev := of_int (opening_ncl a);
     sc_prev := of_int (opening_equity a);
     cl_prev := of_int (opening_cl a);
     cf_rows := [];
     closing_cash_list := [] |}.

Definition cf_step (st : CfState) (row : DfRow) : CfState :=
  let net_income := df_Net_Income row in
  let depreciation := df_Depreciation row in
  let ar := (df_Sales row * lit_0_20)%py in
  let inv := (df_Sales row * lit_0_10)%py in
  let d_ar := (ar - ar_prev st)%py in
  let d_inv := (inv - inv_prev st)%py in
  let d_ap := zero in
  let capex := df_CapEx_Input row in
  let ppe_curr := (ppe_prev st + capex - depreciation)%py in
  let d_ncl := zero in
  let d_sc := zero in
  let cf_ops := (net_income + depreciation - d_ar - d_inv + d_ap)%py in
  let cf_inv := (- capex)%py in
  let interest_paid := df_Interest row in
  let cf_fin := (d_ncl + d_sc - interest_paid)%py in
  let net_cf := (cf_ops + cf_inv + cf_fin)%py in
  let closing_cash := (cash_prev st + net_cf)%py in
  {| ar_prev := ar;
     inv_prev := inv;
     ppe_prev := ppe_curr;
     cash_prev := closing_cash;
     retained_prev := (retained_prev st + net_income)%py;
     ncl_prev := ncl_prev st;
     sc_prev := sc_prev st;
     cl_prev := cl_prev st;
     cf_rows := cf_rows st ++
       [ {| cf_Year := df_Year row;
            cf_Net_Income := net_income;
            cf_Depreciation := depreciation;
            cf_dAR := (- d_ar)%py;
            cf_dInventory := (- d_inv)%py;
            cf_dAP := d_ap;
            cf_Net_CF_Ops := cf_ops;
            cf_CapEx := (- capex)%py;
            cf_Net_CF_Inv := cf_inv;
            cf_Change_NCL := d_ncl;
            cf_Change_SC := d_sc;
            cf_Interest_Paid := (- interest_paid)%py;
            cf_Net_CF_Fin := cf_fin;
            cf_Net_Change_Cash := net_cf;
            cf_Closing_Cash := closing_cash |} ];
     closing_cash_list := closing_cash_list st ++ [closing_cash] |}.

(** [for i, row in df.iterrows(): ...] *)
Definition cash_flow (a : Assumptions) (df : list DfRow) : CfState :=
  fold_left cf_step df (cf_initial a).

(** ** 3. Balance sheet (cash from the cash-flow pass, current liabilities
    as the balancing figure) *)

(** A row of [bs_numeric], one field per key of the dict appended to
    [bs_rows]. *)
Record BsRow : Type := {
  bs_Year : string;
  bs_PPE : N;
  bs_Cash : N;
  bs_Accounts_Receivable : N;
  bs_Inventory : N;
  bs_Total_Current_Assets : N;
  bs_Total_Assets : N;
  bs_Share_Capital : N;
  bs_Retained_Earnings : N;
  bs_Total_Equity : N;
  bs_Non_Current_Liabilities : N;
  bs_Current_Liabilities : N;
  bs_Total_Liabilities_Equity : N
}.

(** The balance-sheet loop re-walks [ppe_prev] and [retained_prev] from the
    opening values. *)
Record BsState : Type := {
  bs_ppe_prev : N;
  bs_retained_prev : N;
  bs_rows : list BsRow
}.

Definition bs_initial (a : Assumptions) : BsState :=
  {| bs_ppe_prev := of_int (opening_ppe a);
     bs_retained_prev := of_int (opening_retained a);
     bs_rows := [] |}.

(** One iteration; [i] is the index [df.iterrows()] yields with the row. *)
Definition bs_step (a : Assumptions) (closing_cash_list : list N)
    (st : BsState) (irow : nat * DfRow) : result BsState :=
  let '(i, row) := irow in
  let ar := (df_Sales row * lit_0_20)%py in
  let inv := (df_Sales row * lit_0_10)%py in
  let ppe_prev := (bs_ppe_prev st + df_CapEx_Input row - df_Depreciation row)%py in
  let retained_prev := (bs_retained_prev st + df_Net_Income row)%py in
  let share_capital := of_int (opening_equity a) in
  let total_equity := (share_capital + retained_prev)%py in
  let ncl := of_int (opening_ncl a) in
  match nth_error closing_cash_list i with
  | None => Raise IndexError
  | Some cash =>
      let total_current_assets := (cash + ar + inv)%py in
      let total_assets := (total_current_assets + ppe_prev)%py in
      let cl := (total_assets - (ncl + total_equity))%py in
      let total_liab_equity := (ncl + cl + total_equity)%py in
      Ok {| bs_ppe_prev := ppe_prev;
            bs_retained_prev := retained_prev;
            bs_rows := bs_rows st ++
              [ {| bs_Year := df_Year row;
                   bs_PPE := ppe_prev;
                   bs_Cash := cash;
                   bs_Accounts_Receivable := ar;
                   bs_Inventory := inv;
                   bs_Total_Current_Assets := total_current_assets;
                   bs_Total_Assets := total_assets;
                   bs_Share_Capital := share_capital;
                   bs_Retained_Earnings := retained_prev;
                   bs_Total_Equity := total_equity;
                   bs_Non_Current_Liabilities := ncl;
                   bs_Current_Liabilities := cl;
                   bs_Total_Liabilities_Equity := total_liab_equity |} ] |}
  end.

(** [df.iterrows()]: the rows with their index, which is [0..n-1] for a
    frame built from a list. *)
Definition iterrows (df : list DfRow) : list (nat * DfRow) := enumerate df.

Definition balance_sheet (a : Assumptions) (df : list DfRow)
    (closing_cash_list : list N) : result (list BsRow) :=
  st <- for_each (bs_step a closing_cash_list) (iterrows df) (bs_initial a) ;;
  Ok (bs_rows st).

(** The three numeric passes in the order the script runs them. *)
Record Projection : Type := {
  pr_df : list DfRow;
  pr_cf_numeric : list CfRow;
  pr_closing_cash_list : list N;
  pr_bs_numeric : list BsRow
}.

Definition projection (a : Assumptions) (assets_list : list Asset)
  : result Projection :=
  df <- income_statement a assets_list ;;
  let cf := cash_flow a df in
  bs <- balance_sheet a df (closing_cash_list cf) ;;
  Ok {| pr_df := df;
        pr_cf_numeric := cf_rows cf;
        pr_closing_cash_list := closing_cash_list cf;
        pr_bs_numeric := bs |}.

(** ** 4. Formatted tables *)

(** A display frame: the ["Item"] column and one column of strings per year
    label. *)
Record Table : Type := {
  tbl_Item : list string;
  tbl_columns : list (string * list string)
}.

Inductive ftype : Type := currency | units_fmt | header.

(** The second component of a display row: a list of numbers, or [""]. *)
Definition Values : Type := option (list N).

(** [fmt_currency] and the inline f-strings. *)
Definition fmt_currency (val : N) (symbol : string) (decimals : Z) : string :=
  (symbol ++ format_f decimals val)%string.

(** One cell of column [i]. *)
Definition cell (symbol : string) (decimals : Z) (i : nat)
    (values : Values) (ft : ftype) : result string :=
  match values with
  | None => Ok EmptyString
  | Some vs =>
      match nth_error vs i with
      | None => Raise IndexError
      | Some val =>
          match ft with
          | currency => Ok (fmt_currency val symbol decimals)
          | units_fmt => Ok (format_f 0 val)
          | header => Ok EmptyString
          end
      end
  end.

(** [for i, year in enumerate(years): out[year] = [...]], the loop that ends
    each of the three formatters.  The income statement tags its rows with a
    format type; the rows of the other two tables are pairs, and every list
    in them is formatted as currency. *)
Definition build_table (symbol : string) (decimals : Z)
    (rows : list (string * Values * ftype)) (years : list string)
  : result Table :=
  cols <- map_result
            (fun iy : nat * string =>
               col <- map_result
                        (fun r : string * Values * ftype =>
                           cell symbol decimals (fst iy) (snd (fst r)) (snd r))
                        rows ;;
               Ok (snd iy, col))
            (enumerate years) ;;
  Ok {| tbl_Item := map (fun r => fst (fst r)) rows; tbl_columns := cols |}.

(** The two recomputed rows (Cost of Sales, Profit Before Tax) subtract in
    the carrier: see the note on int64 columns at the head of the file. *)
Definition make_ifrs_income_statement (df : list DfRow)
    (symbol : string) (decimals : Z) : result Table :=
  let years := map df_Year df in
  let col (f : DfRow -> N) : Values := Some (map f df) in
  let rows :=
    [ ("Revenue (Units × Price per Unit)", col df_Sales, currency);
      ("  Units", col df_Units, units_fmt);
      ("  Price per Unit", col df_Price_per_Unit, currency);
      ("Cost of Sales",
         col (fun r => (df_Sales r - df_Gross_Profit r)%py), currency);
      ("Gross Profit", col df_Gross_Profit, currency);
      ("Operating Expenses", None, header);
      ("  Manpower Costs", col df_Manpower, currency);
      ("  Fixed Costs", col df_Fixed_Costs, currency);
      ("  Depreciation", col df_Depreciation, currency);
      ("EBIT", col df_EBIT, currency);
      ("Finance Costs", col df_Interest, currency);
      ("Profit Before Tax",
         col (fun r => (df_EBIT r - df_Interest r)%py), currency);
      ("Income Tax Expense", col df_Taxes, currency);
      ("Net Profit for the Year", col df_Net_Income, currency) ] in
  build_table symbol decimals rows years.

(** The balance-sheet rows: every list is formatted as currency. *)
Definition bs_display_rows (bs_numeric : list BsRow)
    (assets_list : list Asset) : list (string * Values * ftype) :=
  let years := map bs_Year bs_numeric in
  let col (f : BsRow -> N) : Values := Some (map f bs_numeric) in
  let line (label : string) (v : Values) := (label, v, currency) in
  [ line "ASSETS" None; line "  Non-current assets" None ]
  ++ map (fun '(name, val, life) =>
            line ("    " ++ name)%string
                 (Some (repeat val (List.length years))))
         assets_list
  ++ [ line "  Current assets" None;
       line "    Cash" (col bs_Cash);
       line "    Accounts Receivable" (col bs_Accounts_Receivable);
       line "    Inventory" (col bs_Inventory);
       line "  Total Current Assets" (col bs_Total_Current_Assets);
       line "Total Assets" (col bs_Total_Assets);
       line "" None;
       line "EQUITY AND LIABILITIES" None;
       line "  Equity" None;
       line "    Share Capital" (col bs_Share_Capital);
       line "    Retained Earnings" (col bs_Retained_Earnings);
       line "  Total Equity" (col bs_Total_Equity);
       line "  Non-current Liabilities" (col bs_Non_Current_Liabilities);
       line "  Current Liabilities" (col bs_Current_Liabilities);
       line "Total Liabilities & Equity" (col bs_Total_Liabilities_Equity) ].

(** [bs_numeric] is built from a list of dicts: with no dict it has no
    column, and [bs_numeric["Year"]] raises. *)
Definition make_ifrs_balance_sheet (bs_numeric : list BsRow)
    (assets_list : list Asset) (symbol : string) (decimals : Z)
  : result Table :=
  match bs_numeric with
  | [] => Raise KeyError
  | _ =>
      build_table symbol decimals (bs_display_rows bs_numeric assets_list)
                  (map bs_Year bs_numeric)
  end.

Definition make_ifrs_cashflow_display (cf_numeric : list CfRow)
    (symbol : string) (decimals : Z) : result Table :=
  match cf_numeric with
  | [] => Raise KeyError
  | _ =>
      let col (f : CfRow -> N) : Values := Some (map f cf_numeric) in
      let line (label : string) (v : Values) := (label, v, currency) in
      let rows :=
        [ line "Cash Flows from Operating Activities" None;
          line "  Net Profit for the Year" (col cf_Net_Income);
          line "  Depreciation" (col cf_Depreciation);
          line "  Change in Accounts Receivable" (col cf_dAR);
          line "  Change in Inventory" (col cf_dInventory);
          line "  Change in Accounts Payable" (col cf_dAP);
          line "Net Cash from Operating Activities" (col cf_Net_CF_Ops);
          line "Cash Flows from Investing Activities" None;
          line "  Capital Expenditure (CapEx)" (col cf_CapEx);
          line "Net Cash from Investing Activities" (col cf_Net_CF_Inv);
          line "Cash Flows from Financing Activities" None;
          line "  Change in Non-current Liabilities" (col cf_Change_NCL);
          line "  Change in Share Capital" (col cf_Change_SC);
          line "  Interest Paid" (col cf_Interest_Paid);
          line "Net Cash from Financing Activities" (col cf_Net_CF_Fin);
          line "Net Increase in Cash" (col cf_Net_Change_Cash);
          line "Closing Cash Balance" (col cf_Closing_Cash) ] in
      build_table symbol decimals rows (map cf_Year cf_numeric)
  end.

(** [(n, v, l, round(v / l, decimals))] for every asset. *)
Definition dep_schedule (assets_list : list Asset) (decimals : Z)
  : result (list (string * N * Z * N)) :=
  map_result (fun '(n, v, l) =>
                q <- truediv_int v l ;; Ok (n, v, l, py_round q decimals))
             assets_list.

(** ** Display: the balance check *)

(** [Series.max()]: NaN entries are skipped; [None] stands for the NaN that
    an empty or all-NaN series gives. *)
Definition series_max (xs : list N) : option N :=
  match filter (fun x => eqb x x) xs with
  | [] => None
  | x :: rest => Some (fold_left (fun m y => if ltb m y then y else m) rest x)
  end.

(** [(bs_numeric["Total Assets"] - bs_numeric["Total Liabilities & Equity"]).abs().max()] *)
Definition balance_gap (bs_numeric : list BsRow) : option N :=
  series_max
    (map (fun r => absn (bs_Total_Assets r - bs_Total_Liabilities_Equity r)%py)
         bs_numeric).

Inductive BalanceMessage : Type :=
| success                       (* st.success("Balance ...") *)
| warning (shown : string).     (* st.warning("Out of balance by ...") *)

(** A NaN gap is not below 0.01, and [fmt_currency] prints it as [nan]. *)
Definition balance_message (bs_numeric : list BsRow)
    (symbol : string) (decimals : Z) : BalanceMessage :=
  match balance_gap bs_numeric with
  | Some g =>
      if ltb g lit_0_01 then success
      else warning (fmt_currency g symbol decimals)
  | None => warning (symbol ++ "nan")%string
  end.

(** The tolerance [1e-6], and a row whose two totals differ by at most a
    tolerance. *)
Definition tolerance_1e_6 : N := (of_int 1 / of_int 1000000)%py.

Definition within_tolerance (tol : N) (r : BsRow) : bool :=
  let gap := absn (bs_Total_Assets r - bs_Total_Liabilities_Equity r)%py in
  ltb gap tol || eqb gap tol.

(** ** The script up to the downloads

    [run] is the script from the asset parser to the balance message (lines
    196 to 331), without the Streamlit display calls in between.  The
    downloads that follow ([build_excel], [export_to_word]) write the four
    tables out through openpyxl and python-docx; they are not embedded, and
    nothing below says whether they return. *)

Record Output : Type := {
  out_is_df : Table;
  out_bs_df_display : Table;
  out_cf_df : Table;
  out_dep_schedule : list (string * N * Z * N);
  out_balance_gap : option N;
  out_balance_message : BalanceMessage
}.

Definition run (a : Assumptions) : result Output :=
  let assets_list := parse_assets (assets_input a) in
  pr <- projection a assets_list ;;
  dep <- dep_schedule assets_list (decimals a) ;;
  is_df <- make_ifrs_income_statement (pr_df pr)
             (currency_symbol a) (decimals a) ;;
  bs_df_display <- make_ifrs_balance_sheet (pr_bs_numeric pr) assets_list
                     (currency_symbol a) (decimals a) ;;
  cf_df <- make_ifrs_cashflow_display (pr_cf_numeric pr)
             (currency_symbol a) (decimals a) ;;
  Ok {| out_is_df := is_df;
        out_bs_df_display := bs_df_display;
        out_cf_df := cf_df;
        out_dep_schedule := dep;
        out_balance_gap := balance_gap (pr_bs_numeric pr);
        out_balance_message :=
          balance_message (pr_bs_numeric pr)
                          (currency_symbol a) (decimals a) |}.

End Engine.

(** ** Numerals and fixed-point text, shared by the two carriers *)

Definition digit_of (c : ascii) : option Z :=
  let n := nat_of_ascii c in
  if ((48 <=? n) && (n <=? 57))%nat then Some (Z.of_nat (n - 48)) else None.

(** The value of a string of ASCII digits (the empty string gives [acc]). *)
Fixpoint digits_value (acc : Z) (s : string) : option Z :=
  match s with
  | EmptyString => Some acc
  | String c s' =>
      match digit_of c with
      | None => None
      | Some d => digits_value (10 * acc + d) s'
      end
  end.

(** An optional sign in front of the rest of the numeral. *)
Definition split_sign (s : string) : bool * string :=
  match s with
  | String "-" s' => (true, s')
  | String "+" s' => (false, s')
  | _ => (false, s)
  end.

(** [int(s)] on the numerals [[+-]digits]. *)
Definition int_of_numeral (s : string) : option Z :=
  let '(sg, body) := split_sign s in
  match body with
  | EmptyString => None
  | _ =>
      match digits_value 0 body with
      | None => None
      | Some n => Some (if sg then - n else n)
      end
  end.

(** A decimal numeral [[+-]digits[.digits]] (one side of the point may be
    empty) as sign, integer of all the digits, and number of fraction
    digits. *)
Definition decimal_of_numeral (s : string) : option (bool * Z * nat) :=
  let '(sg, body) := split_sign s in
  match split "."%char body with
  | [ip] =>
      match ip with
      | EmptyString => None
      | _ =>
          match digits_value 0 ip with
          | None => None
          | Some n => Some (sg, n, 0%nat)
          end
      end
  | [ip; fp] =>
      match (ip ++ fp)%string with
      | EmptyString => None
      | all =>
          match digits_value 0 all with
          | None => None
          | Some n => Some (sg, n, String.length fp)
          end
      end
  | _ => None
  end.

(** The integer nearest to [p / q], ties to even ([0 <= p], [0 < q]). *)
Definition round_half_even (p q : Z) : Z :=
  let fl := p / q in
  match (2 * (p mod q) ?= q) with
  | Lt => fl
  | Gt => fl + 1
  | Eq => if Z.even fl then fl else fl + 1
  end.

(** Thousands separators: [group3] walks the digits from the least
    significant one; [k] counts the digits left in the current group. *)
Fixpoint group3 (rev_digits : list ascii) (k : nat) : list ascii :=
  match rev_digits with
  | [] => []
  | c :: rest =>
      match k, rest with
      | O, _ :: _ => c :: ","%char :: group3 rest 2
      | O, [] => [c]
      | S k', _ => c :: group3 rest k'
      end
  end.

Definition with_commas (digits : string) : string :=
  string_of_list_ascii (rev (group3 (rev (list_ascii_of_string digits)) 2)).

Definition string_of_Z (z : Z) : string := NilZero.string_of_int (Z.to_int z).

Fixpoint zeros (n : nat) : string :=
  match n with
  | O => EmptyString
  | S n' => String "0" (zeros n')
  end.

(** [format(x, ",.{d}f")] for the rational [x = (-1)^sg * p / q]: the digits
    of [x] rounded to [d] decimals, ties to even. *)
Definition format_ratio (d : Z) (sg : bool) (p q : Z) : string :=
  let k := Z.to_nat d in
  let scale := 10 ^ Z.of_nat k in
  let n := round_half_even (p * scale) q in
  let ip := string_of_Z (n / scale) in
  let fp := string_of_Z (n mod scale) in
  ((if sg then "-" else "") ++ with_commas ip
   ++ match k with
      | O => ""
      | _ => "." ++ zeros (k - String.length fp) ++ fp
      end)%string.

(** [round(x, d)] for a rational [x = p / q >= 0], as a fraction. *)
Definition round_ratio (d : Z) (p q : Z) : Z * Z :=
  let up := 10 ^ Z.max d 0 in
  let down := 10 ^ Z.max (- d) 0 in
  (round_half_even (p * up) (q * down) * down, up).

(** ** The two carriers *)

(** IEEE 754 binary64, the arithmetic of Python's [float]. *)
Definition float_of_Z (z : Z) : float :=
  SF2Prim (binary_normalize prec emax z 0 false).

#[export] Instance binary64 : PyNum float := {
  of_int := float_of_Z;
  int_fits z := negb (is_infinity (float_of_Z z));
  add := PrimFloat.add;
  sub := PrimFloat.sub;
  mul := PrimFloat.mul;
  div := PrimFloat.div;
  neg := PrimFloat.opp;
  absn := PrimFloat.abs;
  ltb := PrimFloat.ltb;
  eqb := PrimFloat.eqb
}.

(** The rational value of a finite binary64: sign, numerator, denominator. *)
Definition ratio_of_float (x : float) : option (bool * Z * Z) :=
  match Prim2SF x with
  | S754_zero s => Some (s, 0, 1)
  | S754_finite s m e =>
      if 0 <=? e then Some (s, Z.pos m * 2 ^ e, 1)
      else Some (s, Z.pos m, 2 ^ (- e))
  | _ => None
  end.

(** The binary64 nearest to [(-1)^sg * p / q] ([0 <= p], [0 < q]). *)
Definition float_of_ratio (sg : bool) (p q : Z) : float :=
  match p, q with
  | Z.pos m, Z.pos n =>
      SF2Prim (SFdiv prec emax (S754_finite sg m 0) (S754_finite false n 0))
  | _, _ => SF2Prim (S754_zero sg)
  end.

Definition float_special_text (x : float) : string :=
  if is_nan x then "nan"
  else if PrimFloat.ltb x PrimFloat.zero then "-inf" else "inf".

(** The binary64 built-ins.  [py_float] and [py_int] are given on plain
    decimal numerals only; Python also reads exponents, underscores,
    [inf]/[nan] and non-ASCII digits, which these two reject. *)
#[export] Instance binary64_builtins : PyBuiltins float := {
  py_float s :=
    match decimal_of_numeral s with
    | None => None
    | Some (sg, n, k) => Some (float_of_ratio sg n (10 ^ Z.of_nat k))
    end;
  py_int := int_of_numeral;
  py_round x d :=
    match ratio_of_float x with
    | None => x
    | Some (sg, p, q) =>
        let '(n, m) := round_ratio d p q in float_of_ratio sg n m
    end;
  format_f d x :=
    match ratio_of_float x with
    | None => float_special_text x
    | Some (sg, p, q) => format_ratio d sg p q
    end
}.

(** Exact rational arithmetic. *)
Definition Qc_of_Z (z : Z) : Qc := Q2Qc (inject_Z z).

#[export] Instance exact : PyNum Qc := {
  of_int := Qc_of_Z;
  int_fits _ := true;
  add := Qcplus;
  sub := Qcminus;
  mul := Qcmult;
  div := Qcdiv;
  neg := Qcopp;
  absn x := if Qclt_le_dec x (Qc_of_Z 0) then Qcopp x else x;
  ltb x y := if Qclt_le_dec x y then true else false;
  eqb x y := if Qc_eq_dec x y then true else false
}.

Definition Qc_of_ratio (sg : bool) (p q : Z) : Qc :=
  let x := Q2Qc (Qmake p (Z.to_pos q)) in if sg then Qcopp x else x.

Definition ratio_of_Qc (x : Qc) : bool * Z * Z :=
  (Qnum x <? 0, Z.abs (Qnum x), Z.pos (Qden x)).

#[export] Instance exact_builtins : PyBuiltins Qc := {
  py_float s :=
    match decimal_of_numeral s with
    | None => None
    | Some (sg, n, k) => Some (Qc_of_ratio sg n (10 ^ Z.of_nat k))
    end;
  py_int := int_of_numeral;
  py_round x d :=
    let '(sg, p, q) := ratio_of_Qc x in
    let '(n, m) := round_ratio d p q in Qc_of_ratio sg n m;
  format_f d x :=
    let '(sg, p, q) := ratio_of_Qc x in format_ratio d sg p q
}.

(** ** Record updates and scenarios *)

Definition with_opening_cl (a : Assumptions) (v : Z) : Assumptions :=
  {| years := years a; currency_symbol := currency_symbol a;
     decimals := decimals a; opening_cash := opening_cash a;
     opening_ar := opening_ar a; opening_inventory := opening_inventory a;
     opening_ppe := opening_ppe a; opening_ncl := opening_ncl a;
     opening_cl := v;
     opening_equity := opening_equity a;
     opening_retained := opening_retained a; units := units a;
     price_per_unit := price_per_unit a;
     unit_growth_slider := unit_growth_slider a;
     price_growth_slider := price_growth_slider a;
     variable_cost_per_unit := variable_cost_per_unit a;
     fixed_costs := fixed_costs a; tax_rate_slider := tax_rate_slider a;
     interest := interest a; capex_input := capex_input a;
     num_employees := num_employees a; avg_salary := avg_salary a;
     salary_growth_slider := salary_growth_slider a;
     assets_input := assets_input a |}.

(** The values the widgets show before the user touches them. *)
Definition sidebar_defaults : Assumptions :=
  {| years := 5; currency_symbol := "$"; decimals := 2;
     opening_cash := 100000; opening_ar := 50000; opening_inventory := 30000;
     opening_ppe := 400000; opening_ncl := 100000; opening_cl := 80000;
     opening_equity := 400000; opening_retained := 0;
     units := 10000; price_per_unit := 100;
     unit_growth_slider := 5; price_growth_slider := 2;
     variable_cost_per_unit := 40; fixed_costs := 200000;
     tax_rate_slider := 20; interest := 20000; capex_input := 50000;
     num_employees := 10; avg_salary := 30000; salary_growth_slider := 5;
     assets_input :=
       String.concat (String newline "")
         ["Factory Building, 500000, 25"; "Machinery, 300000, 10";
          "Vehicles, 100000, 5"] |}.

(** The benchmark scenario: three flat years and one asset. *)
Definition benchmark : Assumptions :=
  {| years := 3; currency_symbol := "$"; decimals := 2;
     opening_cash := 100000; opening_ar := 50000; opening_inventory := 30000;
     opening_ppe := 400000; opening_ncl := 100000; opening_cl := 80000;
     opening_equity := 400000; opening_retained := 0;
     units := 10000; price_per_unit := 100;
     unit_growth_slider := 0; price_growth_slider := 0;
     variable_cost_per_unit := 40; fixed_costs := 200000;
     tax_rate_slider := 20; interest := 20000; capex_input := 50000;
     num_employees := 10; avg_salary := 30000; salary_growth_slider := 0;
     assets_input := "Machinery, 300000, 10" |}.

(** The benchmark with the tax slider at zero. *)
Definition zero_tax : Assumptions :=
  {| years := 3; currency_symbol := "$"; decimals := 2;
     opening_cash := 100000; opening_ar := 50000; opening_inventory := 30000;
     opening_ppe := 400000; opening_ncl := 100000; opening_cl := 80000;
     opening_equity := 400000; opening_retained := 0;
     units := 10000; price_per_unit := 100;
     unit_growth_slider := 0; price_growth_slider := 0;
     variable_cost_per_unit := 40; fixed_costs := 200000;
     tax_rate_slider := 0; interest := 20000; capex_input := 50000;
     num_employees := 10; avg_salary := 30000; salary_growth_slider := 0;
     assets_input := "Machinery, 300000, 10" |}.

(** The benchmark with fixed costs that leave a loss before tax. *)
Definition loss_making : Assumptions :=
  {| years := 3; currency_symbol := "$"; decimals := 2;
     opening_cash := 100000; opening_ar := 50000; opening_inventory := 30000;
     opening_ppe := 400000; opening_ncl := 100000; opening_cl := 80000;
     opening_equity := 400000; opening_retained := 0;
     units := 10000; price_per_unit := 100;
     unit_growth_slider := 0; price_growth_slider := 0;
     variable_cost_per_unit := 40; fixed_costs := 300000;
     tax_rate_slider := 20; interest := 20000; capex_input := 50000;
     num_employees := 10; avg_salary := 30000; salary_growth_slider := 0;
     assets_input := "Machinery, 300000, 10" |}.

(** The defaults with a share capital of one hundred billion. *)
Definition large_share_capital : Assumptions :=
  {| years := 5; currency_symbol := "$"; decimals := 2;
     opening_cash := 100000; opening_ar := 50000; opening_inventory := 30000;
     opening_ppe := 400000; opening_ncl := 100000; opening_cl := 80000;
     opening_equity := 100000000000; opening_retained := 0;
     units := 10000; price_per_unit := 100;
     unit_growth_slider := 5; price_growth_slider := 2;
     variable_cost_per_unit := 40; fixed_costs := 200000;
     tax_rate_slider := 20; interest := 20000; capex_input := 50000;
     num_employees := 10; avg_salary := 30000; salary_growth_slider := 5;
     assets_input := assets_input sidebar_defaults |}.

(** The benchmark with an asset of useful life zero. *)
Definition zero_life : Assumptions :=
  {| years := 3; currency_symbol := "$"; decimals := 2;
     opening_cash := 100000; opening_ar := 50000; opening_inventory := 30000;
     opening_ppe := 400000; opening_ncl := 100000; opening_cl := 80000;
     opening_equity := 400000; opening_retained := 0;
     units := 10000; price_per_unit := 100;
     unit_growth_slider := 0; price_growth_slider := 0;
     variable_cost_per_unit := 40; fixed_costs := 200000;
     tax_rate_slider := 20; interest := 20000; capex_input := 50000;
     num_employees := 10; avg_salary := 30000; salary_growth_slider := 0;
     assets_input := "Machinery, 300000, 0" |}.


(** The benchmark with the tax slider at zero and an asset whose value, minus
    one followed by four hundred zeros, is beyond the binary64 range:
    [float] reads it as minus infinity. *)
Definition infinite_profit : Assumptions :=
  {| years := 3; currency_symbol := "$"; decimals := 2;
     opening_cash := 100000; opening_ar := 50000; opening_inventory := 30000;
     opening_ppe := 400000; opening_ncl := 100000; opening_cl := 80000;
     opening_equity := 400000; opening_retained := 0;
     units := 10000; price_per_unit := 100;
     unit_growth_slider := 0; price_growth_slider := 0;
     variable_cost_per_unit := 40; fixed_costs := 200000;
     tax_rate_slider := 0; interest := 20000; capex_input := 50000;
     num_employees := 10; avg_salary := 30000; salary_growth_slider := 0;
     assets_input := "Machinery, -1" ++ zeros 400 ++ ", 10" |}.

(** The benchmark with an opening PPE equal to the value of its one asset
    and a CapEx equal to that asset's yearly depreciation. *)
Definition ppe_equal_to_assets : Assumptions :=
  {| years := 3; currency_symbol := "$"; decimals := 2;
     opening_cash := 100000; opening_ar := 50000; opening_inventory := 30000;
     opening_ppe := 300000; opening_ncl := 100000; opening_cl := 80000;
     opening_equity := 400000; opening_retained := 0;
     units := 10000; price_per_unit := 100;
     unit_growth_slider := 0; price_growth_slider := 0;
     variable_cost_per_unit := 40; fixed_costs := 200000;
     tax_rate_slider := 20; interest := 20000; capex_input := 30000;
     num_employees := 10; avg_salary := 30000; salary_growth_slider := 0;
     assets_input := "Machinery, 300000, 10" |}.

(** ** What the passes are expected to satisfy

    The predicates below state, field by field, the equations of one year of
    each pass; the properties further down prove that the loops produce rows
    that satisfy them. *)

Section Equations.

Context {N : Type} `{PyNum N}.

(** The equations one year calculation satisfies. *)
Record year_equations (a : Assumptions) (assets_list : list (Asset (N:=N)))
    (y : YearCalc) : Prop := {
  ye_sales : sales y = (cur_u y * cur_p y)%py;
  ye_cogs : cogs y = (cur_u y * of_int (variable_cost_per_unit a))%py;
  ye_gross_profit : gross_profit y = (sales y - cogs y)%py;
  ye_depreciation : depreciation_sum assets_list = Ok (depreciation y);
  ye_opex :
    opex y = (of_int (fixed_costs a) + manpower_cost y + depreciation y)%py;
  ye_ebit : ebit y = (gross_profit y - opex y)%py;
  ye_ebt : ebt y = (ebit y - of_int (interest a))%py;
  ye_taxes :
    taxes y = if gt0 (ebt y) then (ebt y * tax_rate a)%py else zero;
  ye_net_income : net_income y = (ebt y - taxes y)%py
}.

(** The sum as the formula reads: the quotients [value / life] added from
    left to right, starting from 0. *)
Definition sum_value_over_life (assets_list : list (Asset (N:=N))) : N :=
  fold_left (fun acc '(_, val, life) => (acc + val / of_int life)%py)
            assets_list zero.

(** A life the division accepts. *)
Definition divisible_life (life : Z) : Prop :=
  int_fits life = true /\ life <> 0.

(** The equations a balance-sheet row satisfies, given the PPE and retained
    earnings carried into the year and the cash read for it. *)
Record bs_equations (a : Assumptions) (ppe ret : N) (row : DfRow)
    (cash : N) (r : BsRow) : Prop := {
  be_year : bs_Year r = df_Year row;
  be_ppe : bs_PPE r = (ppe + df_CapEx_Input row - df_Depreciation row)%py;
  be_cash : bs_Cash r = cash;
  be_ar : bs_Accounts_Receivable r = (df_Sales row * lit_0_20)%py;
  be_inv : bs_Inventory r = (df_Sales row * lit_0_10)%py;
  be_tca :
    bs_Total_Current_Assets r
    = (bs_Cash r + bs_Accounts_Receivable r + bs_Inventory r)%py;
  be_ta : bs_Total_Assets r = (bs_Total_Current_Assets r + bs_PPE r)%py;
  be_sc : bs_Share_Capital r = of_int (opening_equity a);
  be_ret : bs_Retained_Earnings r = (ret + df_Net_Income row)%py;
  be_te :
    bs_Total_Equity r = (bs_Share_Capital r + bs_Retained_Earnings r)%py;
  be_ncl : bs_Non_Current_Liabilities r = of_int (opening_ncl a);
  be_cl :
    bs_Current_Liabilities r
    = (bs_Total_Assets r
       - (bs_Non_Current_Liabilities r + bs_Total_Equity r))%py;
  be_tle :
    bs_Total_Liabilities_Equity r
    = (bs_Non_Current_Liabilities r + bs_Current_Liabilities r
       + bs_Total_Equity r)%py
}.

(** The rows the balance-sheet loop appends from index [k] on. *)
Inductive bs_walk (a : Assumptions) (closing_cash_list : list N)
  : nat -> N -> N -> list DfRow -> list BsRow -> Prop :=
| bs_walk_nil k ppe ret : bs_walk a closing_cash_list k ppe ret [] []
| bs_walk_cons k ppe ret row rows cash r rs :
    nth_error closing_cash_list k = Some cash ->
    bs_equations a ppe ret row cash r ->
    bs_walk a closing_cash_list (S k)
            (bs_PPE r) (bs_Retained_Earnings r) rows rs ->
    bs_walk a closing_cash_list k ppe ret (row :: rows) (r :: rs).

(** The cash-flow state with another [cl_prev]. *)
Definition set_cl_prev (x : N) (st : CfState) : CfState :=
  {| ar_prev := ar_prev st; inv_prev := inv_prev st;
     ppe_prev := ppe_prev st; cash_prev := cash_prev st;
     retained_prev := retained_prev st; ncl_prev := ncl_prev st;
     sc_prev := sc_prev st; cl_prev := x;
     cf_rows := cf_rows st; closing_cash_list := closing_cash_list st |}.

End Equations.

(** A specification float that is not below zero: its sign bit is clear, or
    it is a NaN. *)
Definition sign_clear (x : spec_float) : Prop :=
  match x with
  | S754_zero s | S754_infinity s | S754_finite s _ _ => s = false
  | S754_nan => True
  end.

(** The numeric frames of the benchmark, computed once. *)
Definition benchmark_projection : Projection (N:=float) :=
  Eval vm_compute in
    match projection benchmark (parse_assets (assets_input benchmark)) with
    | Ok pr => pr
    | Raise _ =>
        {| pr_df := []; pr_cf_numeric := []; pr_closing_cash_list := [];
           pr_bs_numeric := [] |}
    end.

(** ** More of what the passes are expected to satisfy *)

Section MoreEquations.

Context {N : Type} `{PyNum N}.

(** The equations a cash-flow row satisfies, given the receivables,
    inventory and cash carried into the year. *)
Record cf_equations (ar_before inv_before cash_before : N) (row : DfRow)
    (r : CfRow) : Prop := {
  ce_year : cf_Year r = df_Year row;
  ce_net_income : cf_Net_Income r = df_Net_Income row;
  ce_depreciation : cf_Depreciation r = df_Depreciation row;
  ce_dar : cf_dAR r = (- (df_Sales row * lit_0_20 - ar_before))%py;
  ce_dinv : cf_dInventory r = (- (df_Sales row * lit_0_10 - inv_before))%py;
  ce_dap : cf_dAP r = zero;
  ce_ops :
    cf_Net_CF_Ops r
    = (df_Net_Income row + df_Depreciation row
       - (df_Sales row * lit_0_20 - ar_before)
       - (df_Sales row * lit_0_10 - inv_before) + zero)%py;
  ce_capex : cf_CapEx r = (- df_CapEx_Input row)%py;
  ce_inv : cf_Net_CF_Inv r = (- df_CapEx_Input row)%py;
  ce_ncl : cf_Change_NCL r = zero;
  ce_sc : cf_Change_SC r = zero;
  ce_interest : cf_Interest_Paid r = (- df_Interest row)%py;
  ce_fin : cf_Net_CF_Fin r = (zero + zero - df_Interest row)%py;
  ce_net :
    cf_Net_Change_Cash r
    = (cf_Net_CF_Ops r + cf_Net_CF_Inv r + cf_Net_CF_Fin r)%py;
  ce_closing : cf_Closing_Cash r = (cash_before + cf_Net_Change_Cash r)%py
}.

(** The rows the cash-flow loop appends. *)
Inductive cf_walk : N -> N -> N -> list DfRow -> list CfRow -> Prop :=
| cf_walk_nil ar inv cash : cf_walk ar inv cash [] []
| cf_walk_cons ar inv cash row rows r rs :
    cf_equations ar inv cash row r ->
    cf_walk (df_Sales row * lit_0_20)%py (df_Sales row * lit_0_10)%py
            (cf_Closing_Cash r) rows rs ->
    cf_walk ar inv cash (row :: rows) (r :: rs).

(** PPE and retained earnings after a run of years, as either loop rolls
    them forward from the opening values. *)
Definition ppe_after (a : Assumptions) (rows : list DfRow) : N :=
  fold_left (fun ppe row =>
               (ppe + df_CapEx_Input row - df_Depreciation row)%py)
            rows (of_int (opening_ppe a)).

Definition retained_after (a : Assumptions) (rows : list DfRow) : N :=
  fold_left (fun ret row => (ret + df_Net_Income row)%py)
            rows (of_int (opening_retained a)).

(** The loop variables [u, p, salary] at the start of iteration [t]
    (counted from 0). *)
Definition drivers_at (a : Assumptions) (t : nat) : Drivers :=
  Nat.iter t (grow a) (initial_drivers a).

(** A display row whose list, when it has one, is as long as the frame. *)
Definition row_fits (n : nat) (r : string * Values (N:=N) * ftype) : Prop :=
  match snd (fst r) with
  | None => True
  | Some vs => List.length vs = n
  end.

End MoreEquations.

(** ** The currency symbol *)

(** [s.replace(c, "")] for a one-character [c]. *)
Fixpoint remove_char (c : ascii) (s : string) : string :=
  match s with
  | EmptyString => EmptyString
  | String x s' =>
      if Ascii.eqb x c then remove_char c s' else String x (remove_char c s')
  end.

(** [currency.split("(")[-1].replace(")", "").strip()] *)
Definition currency_symbol_of (currency : string) : string :=
  strip (remove_char ")"%char
           (last (split "("%char currency) EmptyString)).


(** * Properties *)

(** ** The error monad *)

Lemma bind_Ok_inv {A B : Type} (c : result A) (k : A -> result B) (b : B) :
  bind c k = Ok b -> exists x, c = Ok x /\ k x = Ok b.
Proof.
  destruct c as [x|e]; simpl; intros E.
  - exists x. split; [reflexivity | exact E].
  - discriminate E.
Qed.

Ltac bind_inv H :=
  let x := fresh "x" in
  let Hx := fresh "Hx" in
  apply bind_Ok_inv in H; destruct H as (x & Hx & H).

Lemma nth_error_skipn_cons {A : Type} (xs : list A) (k : nat) (x : A) :
  nth_error xs k = Some x -> skipn k xs = x :: skipn (S k) xs.
Proof.
  revert k; induction xs as [|x0 xs IH]; intros k Hk.
  - destruct k; discriminate Hk.
  - destruct k as [|k]; simpl in *.
    + inversion Hk; reflexivity.
    + apply IH; exact Hk.
Qed.

(** ** The three passes, over any carrier *)

Section Passes.

Context {N : Type} `{PyNum N}.

(** *** Income statement *)

Lemma income_year_equations a assets_list d yr y :
  income_year a assets_list d yr = Ok y -> year_equations a assets_list y.
Proof.
  unfold income_year; intros E. bind_inv E.
  inversion E; subst; clear E.
  constructor; simpl; try reflexivity. exact Hx.
Qed.

Lemma income_loop_Forall a assets_list (P : YearCalc -> Prop) :
  (forall d yr y, income_year a assets_list d yr = Ok y -> P y) ->
  forall yrs d ys, income_loop a assets_list d yrs = Ok ys -> Forall P ys.
Proof.
  intros HP yrs; induction yrs as [|yr yrs IH]; intros d ys E; simpl in E.
  - inversion E; constructor.
  - bind_inv E. bind_inv E. inversion E; subst; clear E.
    constructor; [eapply HP; eassumption | eapply IH; eassumption].
Qed.

Lemma income_calcs_equations a assets_list ys :
  income_calcs a assets_list = Ok ys ->
  Forall (year_equations a assets_list) ys.
Proof.
  apply income_loop_Forall. intros d yr y; apply income_year_equations.
Qed.

Lemma income_loop_years a assets_list yrs :
  forall d ys, income_loop a assets_list d yrs = Ok ys -> map year ys = yrs.
Proof.
  induction yrs as [|yr yrs IH]; intros d ys E; simpl in E.
  - inversion E; reflexivity.
  - bind_inv E. bind_inv E. inversion E; subst; clear E. simpl.
    rewrite (IH _ _ Hx0). f_equal.
    unfold income_year in Hx. bind_inv Hx. inversion Hx; reflexivity.
Qed.

(** The income loop returns as soon as the depreciation sum can be
    computed. *)
Lemma income_loop_total a assets_list dep :
  depreciation_sum assets_list = Ok dep ->
  forall yrs d, exists ys, income_loop a assets_list d yrs = Ok ys.
Proof.
  intros Hd yrs; induction yrs as [|yr yrs IH]; intros d; simpl.
  - eexists; reflexivity.
  - unfold income_year. rewrite Hd; simpl.
    destruct (IH (grow a d)) as (ys & Hys). rewrite Hys; simpl.
    eexists; reflexivity.
Qed.

(** *** Depreciation *)

Lemma truediv_int_Ok (x : N) (n : Z) (q : N) :
  truediv_int x n = Ok q <-> divisible_life n /\ q = (x / of_int n)%py.
Proof.
  unfold truediv_int, divisible_life.
  destruct (int_fits n); simpl.
  - destruct (Z.eqb_spec n 0) as [E|E]; split.
    + discriminate.
    + intros ((_ & Hn) & _); contradiction.
    + intros Hq; inversion Hq; auto.
    + intros (_ & ->); reflexivity.
  - split; [discriminate | intros ((Hf & _) & _); discriminate].
Qed.

Lemma depreciation_loop_value (assets_list : list (Asset (N:=N))) :
  forall acc d,
    for_each (fun acc '(_, val, life) =>
                q <- truediv_int val life ;; Ok (acc + q)%py)
             assets_list acc = Ok d ->
    d = fold_left (fun acc '(_, val, life) => (acc + val / of_int life)%py)
                  assets_list acc
    /\ Forall (fun x : Asset => divisible_life (snd x)) assets_list.
Proof.
  induction assets_list as [|[[name val] life] rest IH]; intros acc d E;
    simpl in E.
  - inversion E; split; [reflexivity | constructor].
  - bind_inv E. bind_inv Hx. inversion Hx; subst; clear Hx.
    apply truediv_int_Ok in Hx0. destruct Hx0 as (Hl & ->).
    destruct (IH _ _ E) as (-> & HF). split; [reflexivity|].
    constructor; [exact Hl | exact HF].
Qed.

Lemma depreciation_sum_value (assets_list : list (Asset (N:=N))) (d : N) :
  depreciation_sum assets_list = Ok d ->
  d = sum_value_over_life assets_list /\
  Forall (fun x : Asset => divisible_life (snd x)) assets_list.
Proof.
  unfold depreciation_sum, sum_value_over_life.
  destruct assets_list as [|x rest].
  - intros E; inversion E; split; [reflexivity | constructor].
  - apply depreciation_loop_value.
Qed.

Lemma depreciation_loop_total (assets_list : list (Asset (N:=N))) :
  Forall (fun x : Asset => divisible_life (snd x)) assets_list ->
  forall acc, exists d,
    for_each (fun acc '(_, val, life) =>
                q <- truediv_int val life ;; Ok (acc + q)%py)
             assets_list acc = Ok d.
Proof.
  induction 1 as [|[[name val] life] rest Hl HF IH]; intros acc; simpl.
  - eexists; reflexivity.
  - simpl in Hl.
    assert (E : truediv_int val life = Ok (val / of_int life)%py)
      by (apply truediv_int_Ok; split; [exact Hl | reflexivity]).
    rewrite E; simpl. apply IH.
Qed.

(** The sum is computed exactly when every life is divisible. *)
Lemma depreciation_sum_total (assets_list : list (Asset (N:=N))) :
  Forall (fun x : Asset => divisible_life (snd x)) assets_list ->
  depreciation_sum assets_list = Ok (sum_value_over_life assets_list).
Proof.
  intros HF. destruct assets_list as [|x rest] eqn:E.
  - reflexivity.
  - rewrite <- E in *.
    assert (exists d, depreciation_sum assets_list = Ok d) as (d & Hd).
    { unfold depreciation_sum. rewrite E. rewrite <- E.
      apply depreciation_loop_total; exact HF. }
    rewrite Hd. f_equal. apply depreciation_sum_value; exact Hd.
Qed.

(** *** Cash flow *)

Lemma cash_flow_closing_cash (df : list DfRow) :
  forall st : CfState,
    closing_cash_list st = map cf_Closing_Cash (cf_rows st) ->
    closing_cash_list (fold_left cf_step df st)
    = map cf_Closing_Cash (cf_rows (fold_left cf_step df st)).
Proof.
  induction df as [|row df IH]; intros st Hst; simpl.
  - exact Hst.
  - apply IH. simpl. rewrite map_app, Hst. reflexivity.
Qed.

Lemma cash_flow_length (df : list DfRow) :
  forall st : CfState,
    List.length (closing_cash_list (fold_left cf_step df st))
    = (List.length (closing_cash_list st) + List.length df)%nat.
Proof.
  induction df as [|row df IH]; intros st; simpl.
  - now rewrite Nat.add_0_r.
  - rewrite IH. simpl. rewrite length_app. simpl. lia.
Qed.

(** *** Balance sheet *)

Lemma bs_step_Ok a ccl st i row st' :
  bs_step a ccl st (i, row) = Ok st' ->
  exists cash r,
    nth_error ccl i = Some cash /\
    bs_equations a (bs_ppe_prev st) (bs_retained_prev st) row cash r /\
    bs_rows st' = (bs_rows st ++ [r])%list /\
    bs_ppe_prev st' = bs_PPE r /\
    bs_retained_prev st' = bs_Retained_Earnings r.
Proof.
  unfold bs_step. destruct (nth_error ccl i) as [cash|] eqn:Hc; intros E.
  - inversion E; subst; clear E. simpl.
    eexists cash, _. split; [reflexivity|]. split.
    2:{ split; [reflexivity|]. split; reflexivity. }
    constructor; reflexivity.
  - discriminate E.
Qed.

Lemma bs_loop_walk a ccl (rows : list DfRow) :
  forall k st st',
    for_each (bs_step a ccl) (combine (seq k (List.length rows)) rows) st
    = Ok st' ->
    exists rs,
      bs_rows st' = (bs_rows st ++ rs)%list /\
      bs_walk a ccl k (bs_ppe_prev st) (bs_retained_prev st) rows rs.
Proof.
  induction rows as [|row rows IH]; intros k st st' E; simpl in E.
  - inversion E; subst. exists []. rewrite app_nil_r.
    split; [reflexivity | constructor].
  - bind_inv E.
    destruct (bs_step_Ok _ _ _ _ _ _ Hx) as (cash & r & Hc & He & Hr & Hp & Hq).
    destruct (IH _ _ _ E) as (rs & Hrs & Hw).
    exists (r :: rs). split.
    + rewrite Hrs, Hr, <- app_assoc. reflexivity.
    + econstructor; [exact Hc | exact He |].
      rewrite <- Hp, <- Hq. exact Hw.
Qed.

Lemma balance_sheet_walk a df ccl bs :
  balance_sheet a df ccl = Ok bs ->
  bs_walk a ccl 0 (of_int (opening_ppe a)) (of_int (opening_retained a)) df bs.
Proof.
  unfold balance_sheet, iterrows, enumerate; intros E. bind_inv E.
  inversion E; subst; clear E.
  destruct (bs_loop_walk _ _ _ _ _ _ Hx) as (rs & Hrs & Hw).
  simpl in Hrs. rewrite Hrs. exact Hw.
Qed.

(** The loop never runs out of cash figures when the list is long enough. *)
Lemma bs_loop_total a ccl (rows : list DfRow) :
  forall k st,
    (k + List.length rows <= List.length ccl)%nat ->
    exists st',
      for_each (bs_step a ccl) (combine (seq k (List.length rows)) rows) st
      = Ok st'.
Proof.
  induction rows as [|row rows IH]; intros k st Hk; simpl.
  - eexists; reflexivity.
  - simpl in Hk. unfold bs_step at 1.
    destruct (nth_error ccl k) as [cash|] eqn:Hc.
    + simpl. apply IH. lia.
    + apply nth_error_None in Hc. lia.
Qed.

Lemma bs_walk_Forall a ccl (P : BsRow -> Prop) :
  (forall ppe ret row cash r, bs_equations a ppe ret row cash r -> P r) ->
  forall k ppe ret rows rs, bs_walk a ccl k ppe ret rows rs -> Forall P rs.
Proof.
  intros HP k ppe ret rows rs W; induction W; constructor.
  - eapply HP; eassumption.
  - assumption.
Qed.

Lemma bs_walk_years a ccl k ppe ret rows rs :
  bs_walk a ccl k ppe ret rows rs -> map bs_Year rs = map df_Year rows.
Proof.
  induction 1 as [|k ppe ret row rows cash r rs Hc He W IH]; simpl.
  - reflexivity.
  - rewrite IH. f_equal. apply (be_year _ _ _ _ _ _ He).
Qed.

(** The roll-forward between two consecutive rows, and into the first. *)
Lemma bs_walk_first a ccl k ppe ret rows rs b row :
  bs_walk a ccl k ppe ret rows rs ->
  nth_error rs 0 = Some b -> nth_error rows 0 = Some row ->
  bs_PPE b = (ppe + df_CapEx_Input row - df_Depreciation row)%py /\
  bs_Retained_Earnings b = (ret + df_Net_Income row)%py.
Proof.
  intros W Hb Hr. destruct W as [|k ppe ret row0 rows cash r rs Hc He W].
  - discriminate Hb.
  - simpl in Hb, Hr. inversion Hb; inversion Hr; subst.
    split; [apply (be_ppe _ _ _ _ _ _ He) | apply (be_ret _ _ _ _ _ _ He)].
Qed.

Lemma bs_walk_next a ccl k ppe ret rows rs :
  bs_walk a ccl k ppe ret rows rs ->
  forall i bprev bcur row,
    nth_error rs i = Some bprev -> nth_error rs (S i) = Some bcur ->
    nth_error rows (S i) = Some row ->
    bs_PPE bcur
    = (bs_PPE bprev + df_CapEx_Input row - df_Depreciation row)%py /\
    bs_Retained_Earnings bcur
    = (bs_Retained_Earnings bprev + df_Net_Income row)%py.
Proof.
  induction 1 as [|k ppe ret row0 rows cash r rs Hc He W IH];
    intros i bprev bcur row Hp Hcur Hrow.
  - destruct i; discriminate Hp.
  - destruct i as [|i]; simpl in Hp, Hcur, Hrow.
    + inversion Hp; subst. eapply bs_walk_first; eassumption.
    + eapply IH; eassumption.
Qed.

Lemma bs_walk_cash a ccl k ppe ret rows rs :
  bs_walk a ccl k ppe ret rows rs ->
  map bs_Cash rs = firstn (List.length rows) (skipn k ccl).
Proof.
  induction 1 as [|k ppe ret row rows cash r rs Hc He W IH]; simpl.
  - reflexivity.
  - rewrite (nth_error_skipn_cons _ _ _ Hc). simpl.
    rewrite IH. f_equal. apply (be_cash _ _ _ _ _ _ He).
Qed.

(** *** The three passes together *)

Lemma cash_flow_years (df : list DfRow) :
  forall st : CfState,
    map cf_Year (cf_rows (fold_left cf_step df st))
    = (map cf_Year (cf_rows st) ++ map df_Year df)%list.
Proof.
  induction df as [|row df IH]; intros st; simpl.
  - now rewrite app_nil_r.
  - rewrite IH. simpl. rewrite map_app, <- app_assoc. reflexivity.
Qed.

Lemma projection_Ok a assets_list pr :
  projection a assets_list = Ok pr ->
  exists ys,
    income_calcs a assets_list = Ok ys /\
    pr_df pr = map (data_row a) ys /\
    pr_cf_numeric pr = cf_rows (cash_flow a (pr_df pr)) /\
    pr_closing_cash_list pr = closing_cash_list (cash_flow a (pr_df pr)) /\
    balance_sheet a (pr_df pr) (pr_closing_cash_list pr)
    = Ok (pr_bs_numeric pr).
Proof.
  unfold projection, income_statement; intros E.
  bind_inv E. bind_inv Hx. inversion Hx; subst; clear Hx.
  bind_inv E. inversion E; subst; clear E. simpl.
  exists x0. repeat split; assumption.
Qed.

Lemma closing_cash_list_length a (df : list DfRow) :
  List.length (closing_cash_list (cash_flow a df)) = List.length df.
Proof. unfold cash_flow. now rewrite cash_flow_length. Qed.

(** The three passes return whenever the depreciation sum does: no index
    is ever out of range. *)
Lemma projection_total a assets_list dep :
  depreciation_sum assets_list = Ok dep ->
  exists pr, projection a assets_list = Ok pr.
Proof.
  intros Hd. unfold projection, income_statement, income_calcs.
  destruct (income_loop_total a assets_list dep Hd
              (year_range (years a)) (initial_drivers a)) as (ys & Hys).
  rewrite Hys; simpl. unfold balance_sheet, iterrows, enumerate.
  destruct (bs_loop_total a
              (closing_cash_list (cash_flow a (map (data_row a) ys)))
              (map (data_row a) ys) 0 (bs_initial a)) as (st' & Hst).
  - rewrite closing_cash_list_length. simpl. lia.
  - rewrite Hst; simpl. eexists; reflexivity.
Qed.

(** So the passes return for every asset list whose lives are all
    divisible. *)
Lemma projection_returns a (assets_list : list (Asset (N:=N))) :
  Forall (fun x : Asset => divisible_life (snd x)) assets_list ->
  exists pr, projection a assets_list = Ok pr.
Proof.
  intros HF. eapply projection_total. apply depreciation_sum_total, HF.
Qed.

(** With no year to project, the passes run their loops zero times. *)
Lemma projection_no_year a assets_list :
  years a < 1 ->
  projection a assets_list
  = Ok {| pr_df := []; pr_cf_numeric := []; pr_closing_cash_list := [];
          pr_bs_numeric := [] |}.
Proof.
  intros Hy. unfold projection, income_statement, income_calcs, year_range.
  replace (Z.to_nat (years a)) with 0%nat by lia. reflexivity.
Qed.

End Passes.

(** ** The claims that hold over every carrier *)

Section Claims.

Context {N : Type} `{PyNum N}.

Lemma map_pair_eq {A B C D : Type} (f1 : A -> C) (g1 : A -> D)
    (f2 : B -> C) (g2 : B -> D) (xs : list A) (ys : list B) :
  map f1 xs = map f2 ys -> map g1 xs = map g2 ys ->
  map (fun x => (f1 x, g1 x)) xs = map (fun y => (f2 y, g2 y)) ys.
Proof.
  revert ys; induction xs as [|x xs IH]; intros [|y ys] Hf Hg;
    simpl in *; try discriminate; [reflexivity|].
  inversion Hf as [[Hf1 Hf2]]; inversion Hg as [[Hg1 Hg2]].
  rewrite Hf1, Hg1, (IH _ Hf2 Hg2). reflexivity.
Qed.

(** C1 (as amended).  Current liabilities is the balancing plug and the
    total of liabilities and equity is rebuilt from it, in every year and
    over every arithmetic; the two totals are then equal whenever adding
    back what was subtracted is exact in the carrier. *)
Theorem C1_plug_balances_exactly (a : Assumptions)
    (assets_list : list (Asset (N:=N))) (pr : Projection) :
  projection a assets_list = Ok pr ->
  Forall (fun r =>
            bs_Current_Liabilities r
            = (bs_Total_Assets r
               - (bs_Non_Current_Liabilities r + bs_Total_Equity r))%py /\
            bs_Total_Liabilities_Equity r
            = (bs_Non_Current_Liabilities r + bs_Current_Liabilities r
               + bs_Total_Equity r)%py)
         (pr_bs_numeric pr) /\
  ((forall x y z : N, (y + (x - (y + z)) + z)%py = x) ->
   Forall (fun r => bs_Total_Assets r = bs_Total_Liabilities_Equity r)
          (pr_bs_numeric pr)).
Proof.
  intros E. apply projection_Ok in E.
  destruct E as (ys & _ & _ & _ & _ & Hbs).
  apply balance_sheet_walk in Hbs. split.
  - eapply bs_walk_Forall; [|exact Hbs].
    intros ppe ret row cash r He. split; [apply (be_cl _ _ _ _ _ _ He)|].
    apply (be_tle _ _ _ _ _ _ He).
  - intros cancel. eapply bs_walk_Forall; [|exact Hbs].
    intros ppe ret row cash r He.
    rewrite (be_tle _ _ _ _ _ _ He), (be_cl _ _ _ _ _ _ He).
    symmetry. apply cancel.
Qed.

(** C4.  In every year the balance sheet shows as cash the closing cash the
    cash-flow pass computed for the year of the same label: the two passes
    run over the same years, "Year 1" to the horizon, and agree on cash. *)
Theorem C4_balance_sheet_cash_is_closing_cash (a : Assumptions)
    (assets_list : list (Asset (N:=N))) (pr : Projection) :
  projection a assets_list = Ok pr ->
  map (fun r => (bs_Year r, bs_Cash r)) (pr_bs_numeric pr)
  = map (fun r => (cf_Year r, cf_Closing_Cash r)) (pr_cf_numeric pr) /\
  map bs_Year (pr_bs_numeric pr) = map year_label (year_range (years a)).
Proof.
  intros E. apply projection_Ok in E.
  destruct E as (ys & Hys & Hdf & Hcf & Hccl & Hbs).
  apply balance_sheet_walk in Hbs.
  assert (Hyears : map df_Year (pr_df pr)
                   = map year_label (year_range (years a))).
  { rewrite Hdf, map_map. unfold income_calcs in Hys.
    rewrite <- (income_loop_years _ _ _ _ _ Hys), map_map. reflexivity. }
  pose proof (bs_walk_years _ _ _ _ _ _ _ Hbs) as Hy.
  pose proof (bs_walk_cash _ _ _ _ _ _ _ Hbs) as Hc.
  simpl in Hc. rewrite Hccl in Hc at 1.
  rewrite <- (closing_cash_list_length a (pr_df pr)), firstn_all in Hc.
  split; [|now rewrite Hy].
  apply map_pair_eq.
  - rewrite Hy, Hcf. unfold cash_flow. rewrite cash_flow_years. reflexivity.
  - rewrite Hc, Hcf. unfold cash_flow.
    apply cash_flow_closing_cash. reflexivity.
Qed.

(** C5.  The balance-sheet pass rolls PPE and retained earnings forward:
    the first year starts from the opening values, and every later year
    (row [i + 1], that is year [t = i + 2]) from the year before. *)
Theorem C5_ppe_and_retained_earnings_roll_forward (a : Assumptions)
    (assets_list : list (Asset (N:=N))) (pr : Projection) :
  projection a assets_list = Ok pr ->
  (forall b row,
      nth_error (pr_bs_numeric pr) 0 = Some b ->
      nth_error (pr_df pr) 0 = Some row ->
      bs_PPE b
      = (of_int (opening_ppe a) + df_CapEx_Input row
         - df_Depreciation row)%py /\
      bs_Retained_Earnings b
      = (of_int (opening_retained a) + df_Net_Income row)%py) /\
  (forall i bprev bcur row,
      nth_error (pr_bs_numeric pr) i = Some bprev ->
      nth_error (pr_bs_numeric pr) (S i) = Some bcur ->
      nth_error (pr_df pr) (S i) = Some row ->
      bs_PPE bcur
      = (bs_PPE bprev + df_CapEx_Input row - df_Depreciation row)%py /\
      bs_Retained_Earnings bcur
      = (bs_Retained_Earnings bprev + df_Net_Income row)%py).
Proof.
  intros E. apply projection_Ok in E.
  destruct E as (ys & _ & _ & _ & _ & Hbs).
  apply balance_sheet_walk in Hbs. split.
  - intros b row. eapply bs_walk_first; exact Hbs.
  - eapply bs_walk_next; exact Hbs.
Qed.

(** C7.  For a parsed asset list, every year record carries the same
    depreciation figure: the sum of [value / life] over the list, added from
    left to right starting from 0, which is 0 for the empty list. *)
Theorem C7_depreciation_is_constant (a : Assumptions)
    (assets_list : list (Asset (N:=N))) (ys : list YearCalc) :
  income_calcs a assets_list = Ok ys ->
  Forall (fun y => depreciation y = sum_value_over_life assets_list) ys /\
  sum_value_over_life (N:=N) [] = zero.
Proof.
  intros E. split; [|reflexivity].
  apply income_calcs_equations in E.
  eapply Forall_impl; [|exact E]. intros y Hy.
  apply depreciation_sum_value. apply (ye_depreciation _ _ _ Hy).
Qed.

End Claims.

(** ** The opening current liabilities *)

Section OpeningCl.

Context {N : Type} `{PyNum N} `{PyBuiltins N}.

(** [cl_prev] is carried along and never read. *)
Lemma cash_flow_set_cl_prev (x : N) (df : list DfRow) :
  forall st, fold_left cf_step df (set_cl_prev x st)
             = set_cl_prev x (fold_left cf_step df st).
Proof.
  induction df as [|row df IH]; intros st; simpl.
  - reflexivity.
  - rewrite <- IH. reflexivity.
Qed.

Lemma cash_flow_opening_cl a v (df : list DfRow) :
  cash_flow (with_opening_cl a v) df = set_cl_prev (of_int v) (cash_flow a df).
Proof.
  unfold cash_flow. rewrite <- cash_flow_set_cl_prev. reflexivity.
Qed.

Lemma income_loop_opening_cl a v (assets_list : list (Asset (N:=N))) yrs :
  forall d, income_loop (with_opening_cl a v) assets_list d yrs
            = income_loop a assets_list d yrs.
Proof.
  induction yrs as [|yr yrs IH]; intros d; simpl.
  - reflexivity.
  - change (income_year (with_opening_cl a v) assets_list d yr)
      with (income_year a assets_list d yr).
    change (grow (with_opening_cl a v) d) with (grow a d).
    rewrite IH. reflexivity.
Qed.

Lemma income_statement_opening_cl a v (assets_list : list (Asset (N:=N))) :
  income_statement (with_opening_cl a v) assets_list
  = income_statement a assets_list.
Proof.
  unfold income_statement, income_calcs.
  change (initial_drivers (with_opening_cl a v)) with (initial_drivers a).
  change (years (with_opening_cl a v)) with (years a).
  rewrite income_loop_opening_cl. reflexivity.
Qed.

Lemma projection_opening_cl a v (assets_list : list (Asset (N:=N))) :
  projection (with_opening_cl a v) assets_list = projection a assets_list.
Proof.
  unfold projection. rewrite income_statement_opening_cl.
  destruct (income_statement a assets_list) as [df|e]; simpl; [|reflexivity].
  rewrite cash_flow_opening_cl. reflexivity.
Qed.

(** C9.  Changing nothing but the opening current liabilities changes
    nothing in what the script produces: the four tables, the balance gap
    and the balance message are the same, and so is any exception. *)
Theorem C9_opening_cl_is_never_used (a : Assumptions) (v : Z) :
  run (with_opening_cl a v) = run a.
Proof.
  unfold run.
  change (assets_input (with_opening_cl a v)) with (assets_input a).
  rewrite projection_opening_cl. reflexivity.
Qed.

End OpeningCl.

(** ** The horizon *)

Section Horizon.

Context {N : Type} `{PyNum N} `{PyBuiltins N}.


End Horizon.

(** ** The formatted balance sheet *)

Section Display.

Context {N : Type} `{PyNum N} `{PyBuiltins N}.

Lemma map_result_Forall2 {A B : Type} (f : A -> result B) (xs : list A)
    (ys : list B) :
  map_result f xs = Ok ys -> Forall2 (fun x y => f x = Ok y) xs ys.
Proof.
  revert ys; induction xs as [|x xs IH]; intros ys E; simpl in E.
  - inversion E; constructor.
  - bind_inv E. bind_inv E. inversion E; subst; clear E.
    constructor; [assumption | apply IH; assumption].
Qed.

Lemma enumerate_In {A : Type} (xs : list A) (i : nat) (x : A) :
  In (i, x) (enumerate xs) -> nth_error xs i = Some x.
Proof.
  unfold enumerate. intros Hin.
  assert (G : forall k, In (i, x) (combine (seq k (List.length xs)) xs) ->
                        (k <= i)%nat /\ nth_error xs (i - k) = Some x).
  { clear Hin. induction xs as [|x0 xs IH]; intros k Hin; simpl in Hin.
    - contradiction.
    - destruct Hin as [E|Hin].
      + inversion E; subst. rewrite Nat.sub_diag. split; [lia | reflexivity].
      + destruct (IH _ Hin) as (Hk & Hn). split; [lia|].
        replace (i - k)%nat with (S (i - S k)) by lia. exact Hn. }
  destruct (G 0%nat Hin) as (_ & Hn). now rewrite Nat.sub_0_r in Hn.
Qed.

Lemma enumerate_snd {A : Type} (xs : list A) :
  map snd (enumerate xs) = xs.
Proof.
  unfold enumerate. generalize 0%nat.
  induction xs as [|x xs IH]; intros k; simpl; [reflexivity|].
  now rewrite IH.
Qed.

(** The asset rows sit right after the two heading rows. *)
Lemma bs_display_rows_asset (bs_numeric : list BsRow)
    (assets_list : list (Asset (N:=N))) k name val life :
  nth_error assets_list k = Some (name, val, life) ->
  nth_error (bs_display_rows bs_numeric assets_list) (2 + k)
  = Some (("    " ++ name)%string,
          Some (repeat val (List.length bs_numeric)), currency).
Proof.
  intros Hk. unfold bs_display_rows. simpl.
  rewrite nth_error_app1.
  - rewrite nth_error_map. unfold Asset in *. rewrite Hk. simpl.
    now rewrite length_map.
  - rewrite length_map. apply nth_error_Some. unfold Asset in *.
    rewrite Hk. discriminate.
Qed.

Lemma build_table_Ok symbol decimals rows years tbl :
  build_table symbol decimals rows years = Ok tbl ->
  tbl_Item tbl = map (fun r => fst (fst r)) rows /\
  map fst (tbl_columns tbl) = years /\
  Forall (fun c =>
            exists i, (i < List.length years)%nat /\
              Forall2 (fun r y =>
                         cell symbol decimals i (snd (fst r)) (snd r) = Ok y)
                      rows (snd c))
         (tbl_columns tbl).
Proof.
  unfold build_table; intros E. bind_inv E. inversion E; subst; clear E.
  simpl. apply map_result_Forall2 in Hx. split; [reflexivity|].
  assert (G : forall (iys : list (nat * string))
                    (cols : list (string * list string)),
             Forall2 (fun iy c =>
                        (col <- map_result
                                  (fun r : string * Values * ftype =>
                                     cell symbol decimals (fst iy)
                                          (snd (fst r)) (snd r)) rows ;;
                         Ok (snd iy, col)) = Ok c) iys cols ->
             (forall iy, In iy iys ->
                         (fst iy < List.length years)%nat) ->
             map fst cols = map snd iys /\
             Forall (fun c =>
                       exists i, (i < List.length years)%nat /\
                         Forall2 (fun r y =>
                                    cell symbol decimals i (snd (fst r))
                                         (snd r) = Ok y) rows (snd c)) cols).
  { induction 1 as [|iy c iys cols Hc HF IH]; intros Hin.
    - split; constructor.
    - bind_inv Hc. inversion Hc; subst; clear Hc.
      destruct IH as (IH1 & IH2);
        [intros z Hz; apply Hin; right; exact Hz|].
      split; [simpl; now rewrite IH1|].
      constructor; [|exact IH2].
      exists (fst iy). split; [apply Hin; left; reflexivity|].
      simpl. apply map_result_Forall2. exact Hx0. }
  destruct (G _ _ Hx) as (G1 & G2).
  - intros [i y] Hin. simpl. apply enumerate_In in Hin.
    apply nth_error_Some. congruence.
  - split; [now rewrite G1, enumerate_snd | exact G2].
Qed.

Lemma Forall2_nth_error_l {A B : Type} (R : A -> B -> Prop)
    (xs : list A) (ys : list B) (i : nat) (x : A) :
  Forall2 R xs ys -> nth_error xs i = Some x ->
  exists y, nth_error ys i = Some y /\ R x y.
Proof.
  intros HF; revert i; induction HF as [|x0 y0 xs ys HR HF IH]; intros i Hx.
  - destruct i; discriminate Hx.
  - destruct i as [|i]; simpl in *.
    + inversion Hx; subst. eexists; split; [reflexivity | exact HR].
    + apply IH; exact Hx.
Qed.

Lemma nth_error_repeat {A : Type} (x : A) (n i : nat) :
  (i < n)%nat -> nth_error (repeat x n) i = Some x.
Proof.
  revert i; induction n as [|n IH]; intros i Hi; [lia|].
  destruct i as [|i]; simpl; [reflexivity | apply IH; lia].
Qed.

(** C10 (as amended).  In the formatted balance sheet every parsed asset has
    a row of its own, right under the non-current assets heading, labelled
    with its name; the numbers behind the row are the asset's input value
    repeated once per year, so every year column shows that same value,
    formatted as currency, never reduced by depreciation.  The row is built
    from the asset list alone: nothing of the numeric balance sheet but its
    number of years enters it, and in particular not its PPE column, so the
    asset rows are not tied to the net PPE: they may add up to it or not. *)
Theorem C10_asset_rows_show_the_input_value (bs_numeric : list BsRow)
    (assets_list : list (Asset (N:=N))) (symbol : string) (decimals : Z)
    (tbl : Table) (k : nat) (name : string) (val : N) (life : Z) :
  make_ifrs_balance_sheet bs_numeric assets_list symbol decimals = Ok tbl ->
  nth_error assets_list k = Some (name, val, life) ->
  nth_error (bs_display_rows bs_numeric assets_list) (2 + k)
  = Some (("    " ++ name)%string,
          Some (repeat val (List.length bs_numeric)), currency) /\
  nth_error (tbl_Item tbl) (2 + k) = Some ("    " ++ name)%string /\
  map fst (tbl_columns tbl) = map bs_Year bs_numeric /\
  Forall (fun c => nth_error (snd c) (2 + k)
                   = Some (fmt_currency val symbol decimals))
         (tbl_columns tbl).
Proof.
  intros E Hk.
  pose proof (bs_display_rows_asset bs_numeric assets_list k name val life Hk)
    as Hrow.
  split; [exact Hrow|].
  unfold make_ifrs_balance_sheet in E.
  assert (E' : build_table symbol decimals
                 (bs_display_rows bs_numeric assets_list)
                 (map bs_Year bs_numeric) = Ok tbl)
    by (destruct bs_numeric; [discriminate E | exact E]).
  clear E. apply build_table_Ok in E'. destruct E' as (HI & HY & HC).
  split; [|split; [exact HY|]].
  - rewrite HI, nth_error_map, Hrow. reflexivity.
  - eapply Forall_impl; [|exact HC]. intros c (i & Hi & HF).
    destruct (Forall2_nth_error_l _ _ _ _ _ HF Hrow) as (y & Hy & Hcell).
    rewrite Hy. f_equal. simpl in Hcell. unfold cell in Hcell.
    rewrite length_map in Hi.
    rewrite (nth_error_repeat val _ i Hi) in Hcell.
    inversion Hcell; reflexivity.
Qed.

End Display.

(** ** Signs in binary64 *)

Lemma sign_clear_round_aux (m e : Z) (l : location) :
  sign_clear (binary_round_aux prec emax false m e l).
Proof.
  unfold binary_round_aux.
  destruct (shr_fexp prec emax m e l) as [mrs e1].
  destruct (shr_fexp prec emax _ e1 loc_Exact) as [mrs2 e2].
  destruct (shr_m mrs2); simpl; auto.
  destruct (Z.leb e2 _); simpl; reflexivity.
Qed.

Lemma sign_clear_round (m : positive) (e : Z) :
  sign_clear (binary_round prec emax false m e).
Proof.
  unfold binary_round.
  destruct (shl_align m e _) as [mz ez]. apply sign_clear_round_aux.
Qed.

Lemma sign_clear_normalize (z e : Z) :
  0 <= z -> sign_clear (binary_normalize prec emax z e false).
Proof.
  intros Hz. destruct z as [|m|m]; simpl.
  - reflexivity.
  - apply sign_clear_round.
  - lia.
Qed.

Lemma sign_clear_ldexp (x : spec_float) (e : Z) :
  sign_clear x -> sign_clear (SFldexp prec emax x e).
Proof.
  destruct x as [s|s| |s m ex]; simpl; auto.
  intros ->. apply sign_clear_round.
Qed.

Lemma sign_clear_mul (x y : spec_float) :
  sign_clear x -> sign_clear y -> sign_clear (SFmul prec emax x y).
Proof.
  destruct x as [sx|sx| |sx mx ex], y as [sy|sy| |sy my ey]; simpl;
    intros Hx Hy; subst; simpl; auto.
  apply sign_clear_round_aux.
Qed.

Lemma sign_clear_div (x y : spec_float) :
  sign_clear x -> sign_clear y -> sign_clear (SFdiv prec emax x y).
Proof.
  destruct x as [sx|sx| |sx mx ex], y as [sy|sy| |sy my ey]; simpl;
    intros Hx Hy; subst; simpl; auto.
  destruct (SFdiv_core_binary prec emax _ ex _ ey) as [[mz ez] lz].
  apply sign_clear_round_aux.
Qed.

Lemma sign_clear_not_below_zero (x : spec_float) :
  sign_clear x -> SFltb x (S754_zero false) = false.
Proof.
  destruct x as [s|s| |s m e]; simpl; intros Hs; subst; reflexivity.
Qed.

Lemma above_zero_sign_clear (x : spec_float) :
  SFltb (S754_zero false) x = true -> sign_clear x.
Proof.
  destruct x as [s|s| |s m e]; simpl; try discriminate;
    destruct s; simpl; try discriminate; reflexivity.
Qed.

Lemma Prim2SF_of_uint63_sign_clear (n : PrimInt63.int) :
  sign_clear (Prim2SF (of_uint63 n)).
Proof.
  rewrite of_uint63_spec. apply sign_clear_normalize.
  apply Uint63.to_Z_bounded.
Qed.

(** Going through the primitive representation keeps the sign clear. *)
Lemma Prim2SF_SF2Prim_sign_clear (x : spec_float) :
  sign_clear x -> sign_clear (Prim2SF (SF2Prim x)).
Proof.
  destruct x as [s|s| |s m e]; simpl; intros Hs; subst;
    try (vm_compute; auto; fail).
  rewrite Z_ldexp_spec. apply sign_clear_ldexp.
  apply Prim2SF_of_uint63_sign_clear.
Qed.

Lemma float_of_Z_sign_clear (z : Z) :
  0 <= z -> sign_clear (Prim2SF (float_of_Z z)).
Proof.
  intros Hz. unfold float_of_Z.
  apply Prim2SF_SF2Prim_sign_clear, sign_clear_normalize, Hz.
Qed.

(** ** Tax in binary64 *)

Lemma Prim2SF_float_zero : Prim2SF (zero (N:=float)) = S754_zero false.
Proof. vm_compute. reflexivity. Qed.

Lemma float_ltb_spec (x y : float) :
  ltb x y = SFltb (Prim2SF x) (Prim2SF y).
Proof. exact (ltb_spec x y). Qed.

Lemma float_eqb_spec (x y : float) :
  eqb x y = SFeqb (Prim2SF x) (Prim2SF y).
Proof. exact (eqb_spec x y). Qed.

Lemma float_mul_spec (x y : float) :
  Prim2SF (x * y)%py = SFmul prec emax (Prim2SF x) (Prim2SF y).
Proof. exact (mul_spec x y). Qed.

Lemma float_div_spec (x y : float) :
  Prim2SF (x / y)%py = SFdiv prec emax (Prim2SF x) (Prim2SF y).
Proof. exact (div_spec x y). Qed.

Lemma float_gt0_sign_clear (x : float) :
  gt0 x = true -> sign_clear (Prim2SF x).
Proof.
  unfold gt0. rewrite float_ltb_spec, Prim2SF_float_zero.
  apply above_zero_sign_clear.
Qed.

Lemma float_not_below_zero (x : float) :
  sign_clear (Prim2SF x) -> ltb x zero = false.
Proof.
  intros Hx. rewrite float_ltb_spec, Prim2SF_float_zero.
  apply sign_clear_not_below_zero, Hx.
Qed.

Lemma float_percent_sign_clear (s : Z) :
  0 <= s -> sign_clear (Prim2SF (percent (N:=float) s)).
Proof.
  intros Hs. unfold percent. rewrite float_div_spec.
  apply sign_clear_div; apply float_of_Z_sign_clear; lia.
Qed.

(** A value at or below zero is not above zero. *)
Lemma float_leb_zero_not_gt0 (x : float) :
  PrimFloat.leb x zero = true -> gt0 x = false.
Proof.
  unfold gt0. rewrite leb_spec, float_ltb_spec, Prim2SF_float_zero.
  destruct (Prim2SF x) as [s|s| |s m e]; simpl; try discriminate;
    destruct s; simpl; try discriminate; reflexivity.
Qed.

(** A finite profit taxed at a rate equal to zero owes zero. *)
Lemma float_mul_rate_zero (x r : float) :
  gt0 x = true -> x <> infinity -> eqb r zero = true ->
  eqb (x * r)%py zero = true.
Proof.
  intros Hx Hinf Hr. rewrite float_eqb_spec, Prim2SF_float_zero in Hr.
  rewrite float_eqb_spec, float_mul_spec, Prim2SF_float_zero.
  unfold gt0 in Hx. rewrite float_ltb_spec, Prim2SF_float_zero in Hx.
  destruct (Prim2SF x) as [s|s| |s m e] eqn:E; simpl in Hx;
    try discriminate; destruct s; try discriminate.
  - exfalso. apply Hinf. rewrite <- (SF2Prim_Prim2SF x), E. reflexivity.
  - destruct (Prim2SF r) as [sr|sr| |sr mr er]; simpl in Hr;
      try discriminate; try (destruct sr; discriminate).
    reflexivity.
Qed.

Lemma float_zero_eqb_zero : eqb (zero (N:=float)) zero = true.
Proof. vm_compute. reflexivity. Qed.

(** An infinite profit taxed at a rate equal to zero owes a NaN. *)
Lemma float_mul_infinity_rate_zero (r : float) :
  eqb r zero = true ->
  eqb (infinity * r)%py (infinity * r)%py = false /\
  eqb (infinity * r)%py zero = false.
Proof.
  intros Hr. rewrite float_eqb_spec, Prim2SF_float_zero in Hr.
  rewrite !float_eqb_spec, float_mul_spec, Prim2SF_float_zero.
  change (Prim2SF infinity) with (S754_infinity false).
  destruct (Prim2SF r) as [sr|sr| |sr mr er]; simpl in Hr;
    try discriminate; try (destruct sr; discriminate).
  split; reflexivity.
Qed.

(** C2 (as amended).  In every year the tax is the pre-tax profit times the
    tax rate when the pre-tax profit is above zero, and zero otherwise, in
    particular when it is at or below zero; with a rate from the slider it is
    never below zero.  When the rate equals zero the tax equals zero in every
    year whose pre-tax profit is not plus infinity, whatever its sign; in a
    year whose pre-tax profit is plus infinity the tax is infinity times
    zero, a NaN, which is not equal to zero. *)
Theorem C2_tax_rule (a : Assumptions) (assets_list : list (Asset (N:=float)))
    (ys : list YearCalc) :
  income_calcs a assets_list = Ok ys ->
  Forall (fun y =>
            (gt0 (ebt y) = true -> taxes y = (ebt y * tax_rate a)%py) /\
            (gt0 (ebt y) = false -> taxes y = zero) /\
            (PrimFloat.leb (ebt y) zero = true -> taxes y = zero) /\
            (0 <= tax_rate_slider a -> ltb (taxes y) zero = false) /\
            (eqb (tax_rate (N:=float) a) zero = true ->
             ebt y <> infinity ->
             eqb (taxes y) zero = true) /\
            (eqb (tax_rate (N:=float) a) zero = true ->
             ebt y = infinity ->
             eqb (taxes y) (taxes y) = false /\ eqb (taxes y) zero = false))
         ys.
Proof.
  intros E. apply income_calcs_equations in E.
  eapply Forall_impl; [|exact E]. intros y Hy.
  pose proof (ye_taxes _ _ _ Hy) as Ht.
  split; [|split; [|split; [|split; [|split]]]].
  - intros G. rewrite G in Ht. exact Ht.
  - intros G. rewrite G in Ht. exact Ht.
  - intros G. rewrite (float_leb_zero_not_gt0 _ G) in Ht. exact Ht.
  - intros Hs. destruct (gt0 (ebt y)) eqn:G; rewrite Ht.
    + apply float_not_below_zero. rewrite float_mul_spec.
      apply sign_clear_mul.
      * apply float_gt0_sign_clear, G.
      * apply float_percent_sign_clear, Hs.
    + apply float_not_below_zero. rewrite Prim2SF_float_zero. reflexivity.
  - intros Hr Hfin. destruct (gt0 (ebt y)) eqn:G; rewrite Ht.
    + apply float_mul_rate_zero; assumption.
    + apply float_zero_eqb_zero.
  - intros Hr Hinf. rewrite Hinf in Ht.
    change (gt0 infinity) with true in Ht. rewrite Ht.
    apply float_mul_infinity_rate_zero, Hr.
Qed.

(** ** Tax in exact arithmetic *)

(** Over the rationals the zero-rate rule needs no proviso. *)
Lemma exact_tax_rate_zero (a : Assumptions)
    (assets_list : list (Asset (N:=Qc))) (ys : list YearCalc) :
  income_calcs a assets_list = Ok ys ->
  eqb (tax_rate (N:=Qc) a) zero = true ->
  Forall (fun y => taxes y = zero) ys.
Proof.
  intros E Hr. apply income_calcs_equations in E.
  eapply Forall_impl; [|exact E]. intros y Hy.
  rewrite (ye_taxes _ _ _ Hy). destruct (gt0 (ebt y)); [|reflexivity].
  change (eqb (tax_rate (N:=Qc) a) zero)
    with (if Qc_eq_dec (tax_rate (N:=Qc) a) zero then true else false) in Hr.
  destruct (Qc_eq_dec (tax_rate a) zero) as [Hz|]; [|discriminate Hr].
  rewrite Hz. unfold zero. simpl.
  change (Qc_of_Z 0) with 0%Qc. ring.
Qed.

(** ** Concrete runs in binary64 *)

#[local] Set Warnings "-inexact-float".

(** The carrier's constants are the doubles Python reads from the literals
    [0.20], [0.10], [0.01] and [1e-6] and computes for [20 / 100]. *)
Lemma binary64_literals :
  lit_0_20 = 0.20%float /\ lit_0_10 = 0.10%float /\
  lit_0_01 = 0.01%float /\ tolerance_1e_6 = 1e-6%float /\
  percent 20 = 0.2%float /\ one = 1%float /\ zero = 0%float.
Proof. repeat split; vm_compute; reflexivity. Qed.

Lemma benchmark_assets :
  parse_assets (N:=float) (assets_input benchmark)
  = [("Machinery", 300000%float, 10)].
Proof. vm_compute. reflexivity. Qed.

Lemma benchmark_in_widget_ranges : widget_ranges benchmark.
Proof.
  constructor; simpl; try lia.
  repeat constructor; unfold js_safe; simpl; lia.
Qed.

Lemma zero_life_in_widget_ranges : widget_ranges zero_life.
Proof.
  constructor; simpl; try lia.
  repeat constructor; unfold js_safe; simpl; lia.
Qed.

Lemma large_share_capital_in_widget_ranges : widget_ranges large_share_capital.
Proof.
  constructor; simpl; try lia.
  repeat constructor; unfold js_safe; simpl; lia.
Qed.

(** C6.  On the benchmark assumptions the first year of the income
    statement is exactly: sales 1,000,000, cost of sales 400,000, gross
    profit 600,000, depreciation 30,000, manpower 300,000, operating
    expenses 530,000, EBIT 70,000, pre-tax profit 50,000, tax 10,000 and net
    income 40,000. *)
Theorem C6_benchmark_first_year :
  exists y ys,
    income_calcs (N:=float) benchmark (parse_assets (assets_input benchmark))
    = Ok (y :: ys) /\
    year y = 1 /\
    sales y = 1000000%float /\
    cogs y = 400000%float /\
    gross_profit y = 600000%float /\
    depreciation y = 30000%float /\
    manpower_cost y = 300000%float /\
    opex y = 530000%float /\
    ebit y = 70000%float /\
    ebt y = 50000%float /\
    taxes y = 10000%float /\
    net_income y = 40000%float.
Proof.
  destruct (income_calcs (N:=float) benchmark
              (parse_assets (assets_input benchmark))) as [[|y ys]|e] eqn:E;
    vm_compute in E; try discriminate E.
  exists y, ys. split; [reflexivity|].
  inversion E; subst; clear E. vm_compute. repeat split; reflexivity.
Qed.

(** C1, the claim as stated, fails: with the default assumptions and a share
    capital of 100,000,000,000 the third balance sheet has total assets of
    633032.8 and a total equity of 100000113032.8; the plug comes out as
    -99999580000.0, and adding it back gives liabilities and equity of
    633032.8000030518, about 3.05e-6 away from the assets. *)
Lemma C1_residual_exceeds_tolerance :
  widget_ranges large_share_capital /\
  exists pr r,
    projection (N:=float) large_share_capital
               (parse_assets (assets_input large_share_capital)) = Ok pr /\
    nth_error (pr_bs_numeric pr) 2 = Some r /\
    bs_Total_Assets r = 633032.8%float /\
    bs_Non_Current_Liabilities r = 100000%float /\
    bs_Total_Equity r = 100000113032.8%float /\
    bs_Current_Liabilities r = (-99999580000)%float /\
    bs_Total_Liabilities_Equity r = 633032.8000030518%float /\
    (bs_Total_Assets r - bs_Total_Liabilities_Equity r)%py
    = (-0x1.9998p-19)%float /\
    within_tolerance tolerance_1e_6 r = false.
Proof.
  split; [exact large_share_capital_in_widget_ranges|].
  destruct (projection (N:=float) large_share_capital
              (parse_assets (assets_input large_share_capital)))
    as [pr|e] eqn:E; vm_compute in E; [|discriminate E].
  inversion E; subst; clear E.
  eexists; eexists. split; [reflexivity|].
  split; [reflexivity|]. repeat split; vm_compute; reflexivity.
Qed.

(** C2, the claim as stated, fails: with the tax slider at zero and an asset
    whose value reads as minus infinity, depreciation is minus infinity, the
    pre-tax profit is plus infinity, and the tax of the first year is
    infinity times 0.0: a NaN, not zero. *)
Lemma C2_zero_rate_tax_is_not_zero :
  widget_ranges infinite_profit /\
  eqb (tax_rate (N:=float) infinite_profit) zero = true /\
  parse_assets (N:=float) (assets_input infinite_profit)
  = [("Machinery", neg_infinity, 10)] /\
  exists y ys,
    income_calcs (N:=float) infinite_profit
                 (parse_assets (assets_input infinite_profit))
    = Ok (y :: ys) /\
    depreciation y = neg_infinity /\
    ebt y = infinity /\
    gt0 (ebt y) = true /\
    taxes y = nan /\
    eqb (taxes y) zero = false.
Proof.
  split; [|split; [|split]].
  - constructor; simpl; try lia. repeat constructor; unfold js_safe; lia.
  - vm_compute. reflexivity.
  - vm_compute. reflexivity.
  - destruct (income_calcs (N:=float) infinite_profit
                (parse_assets (assets_input infinite_profit)))
      as [[|y ys]|e] eqn:E; try (vm_compute in E; discriminate E).
    vm_compute in E. inversion E; subst; clear E.
    do 2 eexists. split; [reflexivity|].
    repeat split; vm_compute; reflexivity.
Qed.

(** C10, the claim as stated, fails in its last clause: the asset rows can
    add up to the net PPE.  With an opening PPE of 300,000, a CapEx of 30,000
    a year and the one asset of 300,000 over ten years, PPE is 300,000 in
    each of the three balance sheets, and so is the one asset row. *)
Lemma C10_asset_rows_can_add_up_to_ppe :
  widget_ranges ppe_equal_to_assets /\
  parse_assets (N:=float) (assets_input ppe_equal_to_assets)
  = [("Machinery", 300000%float, 10)] /\
  exists pr tbl,
    projection (N:=float) ppe_equal_to_assets
               (parse_assets (assets_input ppe_equal_to_assets)) = Ok pr /\
    map bs_PPE (pr_bs_numeric pr)
    = [300000%float; 300000%float; 300000%float] /\
    make_ifrs_balance_sheet (pr_bs_numeric pr)
      (parse_assets (assets_input ppe_equal_to_assets)) "$" 2 = Ok tbl /\
    nth_error (tbl_Item tbl) 2 = Some "    Machinery" /\
    List.length (tbl_Item tbl) = 18%nat /\
    map (fun c => nth_error (snd c) 2) (tbl_columns tbl)
    = [Some "$300,000.00"; Some "$300,000.00"; Some "$300,000.00"] /\
    map (fun r => fmt_currency (bs_PPE r) "$" 2) (pr_bs_numeric pr)
    = ["$300,000.00"; "$300,000.00"; "$300,000.00"].
Proof.
  split; [|split].
  - constructor; simpl; try lia. repeat constructor; unfold js_safe; lia.
  - vm_compute. reflexivity.
  - destruct (projection (N:=float) ppe_equal_to_assets
                (parse_assets (assets_input ppe_equal_to_assets)))
      as [pr|e] eqn:E; vm_compute in E; [|discriminate E].
    inversion E; subst; clear E.
    eexists; eexists. split; [reflexivity|]. split; [reflexivity|].
    split; [vm_compute; reflexivity|].
    repeat split; vm_compute; reflexivity.
Qed.

(** On the benchmark, by contrast, the binary64 totals agree to the last
    bit in each of the three years. *)
Lemma benchmark_balances_in_binary64 :
  exists out,
    run (N:=float) benchmark = Ok out /\
    out_balance_gap out = Some 0%float /\
    out_balance_message out = success.
Proof.
  destruct (run (N:=float) benchmark) as [out|e] eqn:E;
    vm_compute in E; [|discriminate E].
  inversion E; subst; clear E.
  eexists. split; [reflexivity|]. split; reflexivity.
Qed.

(** ** The asset parser *)

Section Parser.

Context {N : Type} `{PyNum N} `{PyBuiltins N}.

(** A line is kept exactly when it has three fields of which the second
    reads as a float and the third as an int; the life it carries is not
    looked at. *)
Lemma parse_line_Some (line : string) (x : Asset) :
  parse_line line = Some x <->
  exists p0 p1 p2 val life,
    map strip (split comma line) = [p0; p1; p2] /\
    py_float p1 = Some val /\ py_int p2 = Some life /\
    x = (p0, val, life).
Proof.
  unfold parse_line. split.
  - destruct (map strip (split comma line)) as [|p0 [|p1 [|p2 [|p3 ps]]]];
      try discriminate.
    destruct (py_float p1) as [val|] eqn:Ef; try discriminate.
    destruct (py_int p2) as [life|] eqn:Ei; try discriminate.
    intros E; inversion E; subst. exists p0, p1, p2, val, life. auto.
  - intros (p0 & p1 & p2 & val & life & -> & -> & -> & ->). reflexivity.
Qed.

(** The parsed list holds the kept lines, in order; a line that is not kept
    leaves no trace and does not stop the loop. *)
Lemma parse_lines_In (lines : list string) (x : Asset) :
  In x (parse_lines lines) <->
  exists line, In line lines /\ parse_line line = Some x.
Proof.
  induction lines as [|l ls IH]; simpl.
  - split; [contradiction | intros (line & [] & _)].
  - destruct (parse_line l) as [y|] eqn:E; simpl; rewrite IH; split.
    + intros [->|(line & Hin & Hp)];
        [exists l; auto | exists line; auto].
    + intros (line & [->|Hin] & Hp);
        [left; congruence | right; exists line; auto].
    + intros (line & Hin & Hp). exists line; auto.
    + intros (line & [->|Hin] & Hp); [congruence | exists line; auto].
Qed.

End Parser.

(** C3, on the code: an entry whose useful life is zero parses, is kept in
    the asset list, and its division aborts the run in the first year. *)
Theorem C3_zero_life_is_kept_and_aborts_the_run :
  parse_assets (N:=float) (assets_input zero_life)
  = [("Machinery", 300000%float, 0)] /\
  depreciation_sum (parse_assets (N:=float) (assets_input zero_life))
  = Raise ZeroDivisionError /\
  run (N:=float) zero_life = Raise ZeroDivisionError.
Proof. repeat split; vm_compute; reflexivity. Qed.

(** The other half of C3 holds: a line whose value does not read as a number
    is dropped and the run goes on. *)
Lemma malformed_line_is_dropped :
  parse_assets (N:=float) "Foo,bar,baz" = [] /\
  parse_assets (N:=float)
    (String.concat (String newline "") ["Foo,bar,baz"; "Machinery, 300000, 10"])
  = [("Machinery", 300000%float, 10)].
Proof. split; vm_compute; reflexivity. Qed.

(** A negative life is kept as well, and divides. *)
Lemma negative_life_is_kept :
  parse_assets (N:=float) "Machinery, 300000, -10"
  = [("Machinery", 300000%float, -10)] /\
  depreciation_sum (parse_assets (N:=float) "Machinery, 300000, -10")
  = Ok (-30000)%float.
Proof. split; vm_compute; reflexivity. Qed.

(** ** Witnesses *)

(** The benchmark passes return the frames computed above. *)
Lemma benchmark_projection_Ok :
  projection benchmark (parse_assets (assets_input benchmark))
  = Ok benchmark_projection.
Proof. vm_compute. reflexivity. Qed.

(** Adding back what was subtracted is exact over the rationals. *)
Lemma exact_cancellation (x y z : Qc) : (y + (x - (y + z)) + z)%py = x.
Proof. simpl. ring. Qed.

(** Over the rationals the run that breaks the tolerance in binary64
    balances exactly in each of its five years. *)
Lemma C1_plug_balances_exactly_witness :
  exists pr : Projection (N:=Qc),
    projection large_share_capital
               (parse_assets (assets_input large_share_capital)) = Ok pr /\
    List.length (pr_bs_numeric pr) = 5%nat /\
    Forall (fun r => bs_Total_Assets r = bs_Total_Liabilities_Equity r)
           (pr_bs_numeric pr).
Proof.
  destruct (projection (N:=Qc) large_share_capital
              (parse_assets (assets_input large_share_capital)))
    as [pr|e] eqn:E.
  - exists pr. split; [reflexivity|]. split.
    + pose proof E as E'. vm_compute in E'. inversion E'. reflexivity.
    + apply (C1_plug_balances_exactly large_share_capital _ pr E).
      exact exact_cancellation.
  - vm_compute in E. discriminate E.
Defined.

(** A taxed year (50,000 before tax, 10,000 of tax), the same year with the
    rate at zero, a loss-making year (50,000 below zero, no tax), and a year
    with an infinite profit and the rate at zero (a NaN of tax). *)
Lemma C2_tax_rule_witness :
  (exists y ys,
     income_calcs (N:=float) benchmark (parse_assets (assets_input benchmark))
     = Ok (y :: ys) /\
     ebt y = 50000%float /\
     taxes y = (ebt y * tax_rate benchmark)%py /\
     ltb (taxes y) zero = false) /\
  (exists y ys,
     income_calcs (N:=float) zero_tax (parse_assets (assets_input zero_tax))
     = Ok (y :: ys) /\
     ebt y = 50000%float /\ eqb (taxes y) zero = true) /\
  (exists y ys,
     income_calcs (N:=float) loss_making
                  (parse_assets (assets_input loss_making))
     = Ok (y :: ys) /\
     ebt y = (-50000)%float /\ taxes y = zero) /\
  (exists y ys,
     income_calcs (N:=float) infinite_profit
                  (parse_assets (assets_input infinite_profit))
     = Ok (y :: ys) /\
     ebt y = infinity /\ eqb (taxes y) (taxes y) = false).
Proof.
  split; [|split; [|split]].
  - destruct (income_calcs (N:=float) benchmark
                (parse_assets (assets_input benchmark)))
      as [[|y ys]|e] eqn:E; try (vm_compute in E; discriminate E).
    assert (Hs : 0 <= tax_rate_slider benchmark) by (simpl; lia).
    pose proof (C2_tax_rule benchmark _ _ E) as HT.
    inversion HT as [|y' ys' (Hpos & _ & _ & Hnn & _ & _) _]; subst.
    vm_compute in E. inversion E; subst; clear E.
    do 2 eexists.
    split; [reflexivity|]. split; [reflexivity|].
    split; [apply Hpos; reflexivity | exact (Hnn Hs)].
  - destruct (income_calcs (N:=float) zero_tax
                (parse_assets (assets_input zero_tax)))
      as [[|y ys]|e] eqn:E; try (vm_compute in E; discriminate E).
    pose proof (C2_tax_rule zero_tax _ _ E) as HT.
    inversion HT as [|y' ys' (_ & _ & _ & _ & Hzero & _) _]; subst.
    vm_compute in E. inversion E; subst; clear E.
    do 2 eexists.
    split; [reflexivity|]. split; [reflexivity|].
    apply Hzero; [reflexivity | discriminate].
  - destruct (income_calcs (N:=float) loss_making
                (parse_assets (assets_input loss_making)))
      as [[|y ys]|e] eqn:E; try (vm_compute in E; discriminate E).
    pose proof (C2_tax_rule loss_making _ _ E) as HT.
    inversion HT as [|y' ys' (_ & _ & Hle & _ & _ & _) _]; subst.
    vm_compute in E. inversion E; subst; clear E.
    do 2 eexists.
    split; [reflexivity|]. split; [reflexivity|].
    apply Hle. reflexivity.
  - destruct (income_calcs (N:=float) infinite_profit
                (parse_assets (assets_input infinite_profit)))
      as [[|y ys]|e] eqn:E; try (vm_compute in E; discriminate E).
    pose proof (C2_tax_rule infinite_profit _ _ E) as HT.
    inversion HT as [|y' ys' (_ & _ & _ & _ & _ & Hinf) _]; subst.
    vm_compute in E. inversion E; subst; clear E.
    do 2 eexists.
    split; [reflexivity|]. split; [reflexivity|].
    apply Hinf; reflexivity.
Defined.

(** On the benchmark both passes show a cash of -120,000 in each of the
    three years. *)
Lemma C4_balance_sheet_cash_is_closing_cash_witness :
  projection benchmark (parse_assets (assets_input benchmark))
  = Ok benchmark_projection /\
  map (fun r => (bs_Year r, bs_Cash r)) (pr_bs_numeric benchmark_projection)
  = map (fun r => (cf_Year r, cf_Closing_Cash r))
        (pr_cf_numeric benchmark_projection) /\
  map (fun r => (bs_Year r, bs_Cash r)) (pr_bs_numeric benchmark_projection)
  = [("Year 1", (-120000)%float); ("Year 2", (-120000)%float);
     ("Year 3", (-120000)%float)].
Proof.
  split; [exact benchmark_projection_Ok|]. split.
  - apply (C4_balance_sheet_cash_is_closing_cash
             benchmark _ benchmark_projection benchmark_projection_Ok).
  - reflexivity.
Defined.

(** On the benchmark PPE goes from the opening 400,000 to 420,000 and
    440,000, and retained earnings from 0 to 40,000 and 80,000. *)
Lemma C5_ppe_and_retained_earnings_roll_forward_witness :
  exists b1 b2 row1 row2,
    nth_error (pr_bs_numeric benchmark_projection) 0 = Some b1 /\
    nth_error (pr_bs_numeric benchmark_projection) 1 = Some b2 /\
    nth_error (pr_df benchmark_projection) 0 = Some row1 /\
    nth_error (pr_df benchmark_projection) 1 = Some row2 /\
    bs_PPE b1 = (of_int (opening_ppe benchmark) + df_CapEx_Input row1
                 - df_Depreciation row1)%py /\
    bs_PPE b2 = (bs_PPE b1 + df_CapEx_Input row2 - df_Depreciation row2)%py /\
    bs_Retained_Earnings b2
    = (bs_Retained_Earnings b1 + df_Net_Income row2)%py /\
    (bs_PPE b1, bs_PPE b2) = (420000%float, 440000%float) /\
    (bs_Retained_Earnings b1, bs_Retained_Earnings b2)
    = (40000%float, 80000%float).
Proof.
  destruct (C5_ppe_and_retained_earnings_roll_forward
              benchmark _ benchmark_projection benchmark_projection_Ok)
    as (Hfirst & Hnext).
  do 4 eexists.
  split; [reflexivity|]. split; [reflexivity|].
  split; [reflexivity|]. split; [reflexivity|].
  split; [apply (Hfirst _ _ eq_refl eq_refl)|].
  split; [apply (Hnext 0%nat _ _ _ eq_refl eq_refl eq_refl)|].
  split; [apply (Hnext 0%nat _ _ _ eq_refl eq_refl eq_refl)|].
  split; reflexivity.
Defined.

(** With the three default assets every one of the five years carries
    500000/25 + 300000/10 + 100000/5 = 70,000. *)
Lemma C7_depreciation_is_constant_witness :
  exists ys,
    income_calcs (N:=float) sidebar_defaults
                 (parse_assets (assets_input sidebar_defaults)) = Ok ys /\
    List.length ys = 5%nat /\
    sum_value_over_life
      (parse_assets (N:=float) (assets_input sidebar_defaults))
    = 70000%float /\
    Forall (fun y => depreciation y = 70000%float) ys.
Proof.
  destruct (income_calcs (N:=float) sidebar_defaults
              (parse_assets (assets_input sidebar_defaults)))
    as [ys|e] eqn:E.
  - exists ys. split; [reflexivity|].
    pose proof (proj1 (C7_depreciation_is_constant sidebar_defaults _ ys E))
      as HD.
    split; [|split; [vm_compute; reflexivity|]].
    + pose proof E as E'. vm_compute in E'. inversion E'. reflexivity.
    + eapply Forall_impl; [|exact HD]. intros y ->.
      vm_compute. reflexivity.
  - vm_compute in E. discriminate E.
Defined.


(** On the benchmark the Machinery row shows $300,000.00 in each of the
    three years, next to a PPE of 420,000, 440,000 and 460,000. *)
Lemma C10_asset_rows_show_the_input_value_witness :
  exists tbl,
    make_ifrs_balance_sheet (pr_bs_numeric benchmark_projection)
      (parse_assets (assets_input benchmark)) "$" 2 = Ok tbl /\
    nth_error (tbl_Item tbl) 2 = Some "    Machinery" /\
    map fst (tbl_columns tbl) = ["Year 1"; "Year 2"; "Year 3"] /\
    Forall (fun c => nth_error (snd c) 2 = Some "$300,000.00")
           (tbl_columns tbl) /\
    map bs_PPE (pr_bs_numeric benchmark_projection)
    = [420000%float; 440000%float; 460000%float].
Proof.
  destruct (make_ifrs_balance_sheet (pr_bs_numeric benchmark_projection)
              (parse_assets (assets_input benchmark)) "$" 2)
    as [tbl|e] eqn:E.
  - exists tbl. split; [reflexivity|].
    destruct (C10_asset_rows_show_the_input_value
                (pr_bs_numeric benchmark_projection)
                (parse_assets (assets_input benchmark)) "$" 2 tbl
                0%nat "Machinery" 300000%float 10 E)
      as (_ & HI & HY & HC).
    + vm_compute. reflexivity.
    + split; [exact HI|]. split; [exact HY|]. split; [|reflexivity].
      eapply Forall_impl; [|exact HC]. intros c Hc.
      change (2 + 0)%nat with 2%nat in Hc. rewrite Hc.
      vm_compute. reflexivity.
  - vm_compute in E. discriminate E.
Defined.


(** * Further properties *)

(** ** The frames: one row per year *)

Section Frames.

Context {N : Type} `{PyNum N}.

Lemma cash_flow_walk (df : list DfRow) :
  forall st : CfState,
  exists rs,
    cf_rows (fold_left cf_step df st) = (cf_rows st ++ rs)%list /\
    cf_walk (ar_prev st) (inv_prev st) (cash_prev st) df rs.
Proof.
  induction df as [|row df IH]; intros st; simpl.
  - exists []. rewrite app_nil_r. split; [reflexivity | constructor].
  - destruct (IH (cf_step st row)) as (rs & Hrs & Hw).
    simpl in Hrs, Hw. eexists (_ :: rs). split.
    + rewrite Hrs, <- app_assoc. reflexivity.
    + econstructor; [|exact Hw]. constructor; reflexivity.
Qed.

Lemma cash_flow_rows_walk a (df : list DfRow) :
  cf_walk (of_int (opening_ar a)) (of_int (opening_inventory a))
          (of_int (opening_cash a)) df (cf_rows (cash_flow a df)).
Proof.
  unfold cash_flow.
  destruct (cash_flow_walk df (cf_initial a)) as (rs & Hrs & Hw).
  simpl in Hrs. rewrite Hrs. exact Hw.
Qed.

Lemma cf_walk_length ar inv cash rows rs :
  cf_walk ar inv cash rows rs -> List.length rs = List.length rows.
Proof. induction 1; simpl; congruence. Qed.

Lemma bs_walk_same_length a ccl k ppe ret rows (rs : list BsRow) :
  bs_walk a ccl k ppe ret rows rs -> List.length rs = List.length rows.
Proof. induction 1; simpl; congruence. Qed.

Lemma income_calcs_years a assets_list (ys : list YearCalc) :
  income_calcs a assets_list = Ok ys ->
  map (fun y => year_label (year y)) ys
  = map year_label (year_range (years a)).
Proof.
  unfold income_calcs; intros E.
  rewrite <- (income_loop_years _ _ _ _ _ E), map_map. reflexivity.
Qed.

Lemma year_range_count (n : Z) : List.length (year_range n) = Z.to_nat n.
Proof. unfold year_range. now rewrite length_map, length_seq. Qed.

(** X1.  Whenever the three passes return, each of the three frames has
    exactly one row per projected year, labelled "Year 1", "Year 2", ... in
    order, and the list of closing cash figures has one entry per year. *)
Theorem X1_one_row_per_year (a : Assumptions)
    (assets_list : list (Asset (N:=N))) (pr : Projection) :
  projection a assets_list = Ok pr ->
  map df_Year (pr_df pr) = map year_label (year_range (years a)) /\
  map cf_Year (pr_cf_numeric pr) = map year_label (year_range (years a)) /\
  map bs_Year (pr_bs_numeric pr) = map year_label (year_range (years a)) /\
  List.length (pr_closing_cash_list pr) = Z.to_nat (years a) /\
  List.length (pr_bs_numeric pr) = Z.to_nat (years a).
Proof.
  intros E. apply projection_Ok in E.
  destruct E as (ys & Hys & Hdf & Hcf & Hccl & Hbs).
  apply balance_sheet_walk in Hbs.
  assert (Hy : map df_Year (pr_df pr)
               = map year_label (year_range (years a))).
  { rewrite Hdf, map_map. apply income_calcs_years with (1 := Hys). }
  assert (Hn : List.length (pr_df pr) = Z.to_nat (years a)).
  { rewrite <- (length_map df_Year), Hy, length_map. apply year_range_count. }
  split; [exact Hy|]. split; [|split; [|split]].
  - rewrite Hcf. unfold cash_flow. rewrite cash_flow_years. exact Hy.
  - rewrite (bs_walk_years _ _ _ _ _ _ _ Hbs). exact Hy.
  - rewrite Hccl, closing_cash_list_length. exact Hn.
  - rewrite (bs_walk_same_length _ _ _ _ _ _ _ Hbs). exact Hn.
Qed.

End Frames.

(** ** The passes: what can go wrong *)

Section PassErrors.

Context {N : Type} `{PyNum N}.

Lemma truediv_int_Raise (x : N) (n : Z) (e : exn) :
  truediv_int x n = Raise e ->
  ~ divisible_life n /\ (e = ZeroDivisionError \/ e = OverflowError).
Proof.
  unfold truediv_int, divisible_life.
  destruct (int_fits n); simpl.
  - destruct (Z.eqb_spec n 0) as [E|E]; intros R; inversion R; subst.
    split; [intros (_ & Hn); contradiction | left; reflexivity].
  - intros R; inversion R; subst.
    split; [intros (Hf & _); discriminate | right; reflexivity].
Qed.

Lemma depreciation_loop_Raise (assets_list : list (Asset (N:=N))) :
  forall acc e,
    for_each (fun acc '(_, val, life) =>
                q <- truediv_int val life ;; Ok (acc + q)%py)
             assets_list acc = Raise e ->
    Exists (fun x : Asset => ~ divisible_life (snd x)) assets_list /\
    (e = ZeroDivisionError \/ e = OverflowError).
Proof.
  induction assets_list as [|[[name val] life] rest IH]; intros acc e E;
    simpl in E.
  - discriminate E.
  - destruct (truediv_int val life) as [q|e'] eqn:Hq; simpl in E.
    + destruct (IH _ _ E) as (Hex & He). split; [right; exact Hex | exact He].
    + inversion E; subst.
      destruct (truediv_int_Raise _ _ _ Hq) as (Hn & He).
      split; [left; exact Hn | exact He].
Qed.

Lemma depreciation_sum_Raise (assets_list : list (Asset (N:=N))) (e : exn) :
  depreciation_sum assets_list = Raise e ->
  Exists (fun x : Asset => ~ divisible_life (snd x)) assets_list /\
  (e = ZeroDivisionError \/ e = OverflowError).
Proof.
  unfold depreciation_sum. destruct assets_list as [|x rest].
  - discriminate.
  - apply depreciation_loop_Raise.
Qed.

Lemma projection_first_year_raises a (assets_list : list (Asset (N:=N))) e :
  1 <= years a -> depreciation_sum assets_list = Raise e ->
  projection a assets_list = Raise e.
Proof.
  intros Hy Hd. unfold projection, income_statement, income_calcs, year_range.
  destruct (Z.to_nat (years a)) as [|n] eqn:En; [lia|].
  simpl. unfold income_year. rewrite Hd. reflexivity.
Qed.

(** X2.  The three passes raise exactly when there is at least one year to
    project and the depreciation sum cannot be computed, and then with the
    exception of that sum, a [ZeroDivisionError] or an [OverflowError] caused
    by the life of some asset; no index is ever out of range and no column
    is ever missing. *)
Theorem X2_passes_raise_only_on_a_bad_life (a : Assumptions)
    (assets_list : list (Asset (N:=N))) (e : exn) :
  (projection a assets_list = Raise e <->
   1 <= years a /\ depreciation_sum assets_list = Raise e) /\
  (projection a assets_list = Raise e ->
   (e = ZeroDivisionError \/ e = OverflowError) /\
   Exists (fun x : Asset => ~ divisible_life (snd x)) assets_list).
Proof.
  assert (Hfwd : projection a assets_list = Raise e ->
                 1 <= years a /\ depreciation_sum assets_list = Raise e).
  { intros E. destruct (Z_lt_le_dec (years a) 1) as [Hy|Hy].
    - rewrite (projection_no_year _ _ Hy) in E. discriminate E.
    - split; [exact Hy|].
      destruct (depreciation_sum assets_list) as [d|e'] eqn:Hd.
      + destruct (projection_total a assets_list d Hd) as (pr & Hpr).
        rewrite Hpr in E. discriminate E.
      + rewrite (projection_first_year_raises _ _ _ Hy Hd) in E.
        inversion E; reflexivity. }
  split; [split|].
  - exact Hfwd.
  - intros (Hy & Hd). apply projection_first_year_raises; assumption.
  - intros E. destruct (Hfwd E) as (_ & Hd).
    destruct (depreciation_sum_Raise _ _ Hd) as (Hex & He). split; assumption.
Qed.

End PassErrors.

(** ** Cash flow: the cash bridge and the working capital *)

Section CashFlow.

Context {N : Type} `{PyNum N}.

Lemma cf_walk_first ar inv cash rows rs (c : CfRow) row :
  cf_walk ar inv cash rows rs ->
  nth_error rs 0 = Some c -> nth_error rows 0 = Some row ->
  cf_equations ar inv cash row c.
Proof.
  intros W Hc Hr. destruct W as [|ar inv cash row0 rows r rs He W].
  - discriminate Hc.
  - simpl in Hc, Hr. inversion Hc; inversion Hr; subst. exact He.
Qed.

Lemma cf_walk_next ar inv cash rows rs :
  cf_walk ar inv cash rows rs ->
  forall i (cprev ccur : CfRow) rprev rcur,
    nth_error rs i = Some cprev -> nth_error rs (S i) = Some ccur ->
    nth_error rows i = Some rprev -> nth_error rows (S i) = Some rcur ->
    cf_equations (df_Sales rprev * lit_0_20)%py (df_Sales rprev * lit_0_10)%py
                 (cf_Closing_Cash cprev) rcur ccur.
Proof.
  induction 1 as [|ar inv cash row0 rows r rs He W IH];
    intros i cprev ccur rprev rcur Hp Hc Hrp Hrc.
  - destruct i; discriminate Hp.
  - destruct i as [|i]; simpl in Hp, Hc, Hrp, Hrc.
    + inversion Hp; inversion Hrp; subst.
      eapply cf_walk_first; eassumption.
    + eapply IH; eassumption.
Qed.

Lemma Forall2_ignore_left {A B : Type} (P : B -> Prop)
    (xs : list A) (ys : list B) :
  Forall2 (fun _ y => P y) xs ys -> Forall P ys.
Proof. induction 1; constructor; assumption. Qed.

Lemma cf_walk_Forall2 ar inv cash rows rs (P : DfRow -> CfRow -> Prop) :
  (forall ar inv cash row r, cf_equations ar inv cash row r -> P row r) ->
  cf_walk ar inv cash rows rs -> Forall2 P rows rs.
Proof.
  intros HP W; induction W; constructor; eauto.
Qed.

(** X3.  The cash bridge: in every year the net change in cash is the sum
    of the operating, investing and financing flows (added in that order),
    the first closing cash is the opening cash plus the first net change,
    and every later closing cash is the closing cash of the year before plus
    the net change of the year. *)
Theorem X3_cash_bridge (a : Assumptions)
    (assets_list : list (Asset (N:=N))) (pr : Projection) :
  projection a assets_list = Ok pr ->
  Forall (fun c => cf_Net_Change_Cash c
                   = (cf_Net_CF_Ops c + cf_Net_CF_Inv c + cf_Net_CF_Fin c)%py)
         (pr_cf_numeric pr) /\
  (forall c, nth_error (pr_cf_numeric pr) 0 = Some c ->
             cf_Closing_Cash c
             = (of_int (opening_cash a) + cf_Net_Change_Cash c)%py) /\
  (forall i cprev ccur,
      nth_error (pr_cf_numeric pr) i = Some cprev ->
      nth_error (pr_cf_numeric pr) (S i) = Some ccur ->
      cf_Closing_Cash ccur
      = (cf_Closing_Cash cprev + cf_Net_Change_Cash ccur)%py).
Proof.
  intros E. apply projection_Ok in E.
  destruct E as (ys & _ & _ & Hcf & _ & _).
  pose proof (cash_flow_rows_walk a (pr_df pr)) as W. rewrite <- Hcf in W.
  pose proof (cf_walk_length _ _ _ _ _ W) as HL.
  split; [|split].
  - apply (Forall2_ignore_left _ (pr_df pr)).
    eapply cf_walk_Forall2; [|exact W].
    intros ar inv cash row r He. apply (ce_net _ _ _ _ _ He).
  - intros c Hc.
    destruct (nth_error (pr_df pr) 0) as [row|] eqn:Hr.
    + apply (ce_closing _ _ _ _ _ (cf_walk_first _ _ _ _ _ _ _ W Hc Hr)).
    + apply nth_error_None in Hr.
      assert (Hlt : (0 < List.length (pr_cf_numeric pr))%nat)
        by (apply nth_error_Some; congruence).
      lia.
  - intros i cprev ccur Hp Hc.
    assert (Hi : (S i < List.length (pr_df pr))%nat)
      by (rewrite <- HL; apply nth_error_Some; congruence).
    destruct (nth_error (pr_df pr) i) as [rprev|] eqn:Hrp;
      [|apply nth_error_None in Hrp; lia].
    destruct (nth_error (pr_df pr) (S i)) as [rcur|] eqn:Hrc;
      [|apply nth_error_None in Hrc; lia].
    apply (ce_closing _ _ _ _ _
             (cf_walk_next _ _ _ _ _ W _ _ _ _ _ Hp Hc Hrp Hrc)).
Qed.

End CashFlow.

Section Agreement.

Context {N : Type} `{PyNum N}.

Lemma bs_walk_Forall2 a ccl k ppe ret rows rs (P : DfRow -> BsRow -> Prop) :
  (forall ppe ret row cash r, bs_equations a ppe ret row cash r -> P row r) ->
  bs_walk a ccl k ppe ret rows rs -> Forall2 P rows rs.
Proof.
  intros HP W; induction W; constructor; eauto.
Qed.

Lemma Forall2_nth_error_both {A B : Type} (R : A -> B -> Prop)
    (xs : list A) (ys : list B) (i : nat) (x : A) (y : B) :
  Forall2 R xs ys -> nth_error xs i = Some x -> nth_error ys i = Some y ->
  R x y.
Proof.
  intros HF; revert i; induction HF as [|x0 y0 xs ys HR HF IH]; intros i Hx Hy.
  - destruct i; discriminate Hx.
  - destruct i as [|i]; simpl in *.
    + inversion Hx; inversion Hy; subst. exact HR.
    + eapply IH; eassumption.
Qed.

Lemma nth_error_same_length {A B : Type} (xs : list A) (ys : list B)
    (i : nat) (y : B) :
  List.length xs = List.length ys -> nth_error ys i = Some y ->
  exists x, nth_error xs i = Some x.
Proof.
  intros HL Hy. destruct (nth_error xs i) as [x|] eqn:Hx; [eauto|].
  apply nth_error_None in Hx.
  assert ((i < List.length ys)%nat) by (apply nth_error_Some; congruence).
  lia.
Qed.

(** X4.  The working-capital lines of the cash flow statement are the
    year-on-year movements of the balance-sheet receivables and inventory,
    with the sign turned: the change reported for a year is minus (this
    year's balance minus last year's), and for the first year minus (the
    balance minus the opening balance). *)
Theorem X4_working_capital_deltas (a : Assumptions)
    (assets_list : list (Asset (N:=N))) (pr : Projection) :
  projection a assets_list = Ok pr ->
  (forall c b,
      nth_error (pr_cf_numeric pr) 0 = Some c ->
      nth_error (pr_bs_numeric pr) 0 = Some b ->
      cf_dAR c = (- (bs_Accounts_Receivable b - of_int (opening_ar a)))%py /\
      cf_dInventory c
      = (- (bs_Inventory b - of_int (opening_inventory a)))%py) /\
  (forall i c bprev bcur,
      nth_error (pr_cf_numeric pr) (S i) = Some c ->
      nth_error (pr_bs_numeric pr) i = Some bprev ->
      nth_error (pr_bs_numeric pr) (S i) = Some bcur ->
      cf_dAR c
      = (- (bs_Accounts_Receivable bcur - bs_Accounts_Receivable bprev))%py /\
      cf_dInventory c = (- (bs_Inventory bcur - bs_Inventory bprev))%py).
Proof.
  intros E. apply projection_Ok in E.
  destruct E as (ys & _ & _ & Hcf & _ & Hbs).
  apply balance_sheet_walk in Hbs.
  pose proof (cash_flow_rows_walk a (pr_df pr)) as W. rewrite <- Hcf in W.
  pose proof (cf_walk_length _ _ _ _ _ W) as HLc.
  pose proof (bs_walk_same_length _ _ _ _ _ _ _ Hbs) as HLb.
  assert (HB : Forall2 (fun row b =>
                          bs_Accounts_Receivable b
                          = (df_Sales row * lit_0_20)%py /\
                          bs_Inventory b = (df_Sales row * lit_0_10)%py)
                       (pr_df pr) (pr_bs_numeric pr)).
  { eapply bs_walk_Forall2; [|exact Hbs]. intros ppe ret row cash r He.
    split; [apply (be_ar _ _ _ _ _ _ He) | apply (be_inv _ _ _ _ _ _ He)]. }
  split.
  - intros c b Hc Hb.
    destruct (nth_error_same_length (pr_df pr) _ _ _ (eq_sym HLc) Hc)
      as (row & Hr).
    pose proof (cf_walk_first _ _ _ _ _ _ _ W Hc Hr) as He.
    destruct (Forall2_nth_error_both _ _ _ _ _ _ HB Hr Hb) as (Har & Hinv).
    rewrite (ce_dar _ _ _ _ _ He), (ce_dinv _ _ _ _ _ He), Har, Hinv.
    split; reflexivity.
  - intros i c bprev bcur Hc Hbp Hbc.
    destruct (nth_error_same_length (pr_df pr) _ _ _ (eq_sym HLb) Hbp)
      as (rprev & Hrp).
    destruct (nth_error_same_length (pr_df pr) _ _ _ (eq_sym HLb) Hbc)
      as (rcur & Hrc).
    destruct (nth_error_same_length (pr_cf_numeric pr) _ _ _
                (eq_trans HLc (eq_sym HLb)) Hbp) as (cprev & Hcp).
    pose proof (cf_walk_next _ _ _ _ _ W _ _ _ _ _ Hcp Hc Hrp Hrc) as He.
    destruct (Forall2_nth_error_both _ _ _ _ _ _ HB Hrp Hbp) as (Hap & Hip).
    destruct (Forall2_nth_error_both _ _ _ _ _ _ HB Hrc Hbc) as (Hac & Hic).
    rewrite (ce_dar _ _ _ _ _ He), (ce_dinv _ _ _ _ _ He), Hap, Hip, Hac, Hic.
    split; reflexivity.
Qed.

(** X5.  Year by year the cash flow statement carries the net income and
    the depreciation of the income statement; its investing flow and its
    CapEx line are both minus the CapEx input and its interest line is minus
    the interest; and it never reports a movement in payables, non-current
    liabilities or share capital: those three lines are zero in every year,
    so the financing flow is (0 + 0) minus the interest. *)
Theorem X5_cash_flow_lines (a : Assumptions)
    (assets_list : list (Asset (N:=N))) (pr : Projection) :
  projection a assets_list = Ok pr ->
  Forall2 (fun row c =>
             cf_Year c = df_Year row /\
             cf_Net_Income c = df_Net_Income row /\
             cf_Depreciation c = df_Depreciation row /\
             cf_CapEx c = (- of_int (capex_input a))%py /\
             cf_Net_CF_Inv c = (- of_int (capex_input a))%py /\
             cf_Interest_Paid c = (- of_int (interest a))%py /\
             cf_dAP c = zero /\ cf_Change_NCL c = zero /\
             cf_Change_SC c = zero /\
             cf_Net_CF_Fin c = (zero + zero - of_int (interest a))%py)
          (pr_df pr) (pr_cf_numeric pr).
Proof.
  intros E. apply projection_Ok in E.
  destruct E as (ys & _ & Hdf & Hcf & _ & _).
  pose proof (cash_flow_rows_walk a (pr_df pr)) as W. rewrite <- Hcf in W.
  assert (HD : Forall (fun row => df_CapEx_Input row = of_int (capex_input a)
                                  /\ df_Interest row = of_int (interest a))
                      (pr_df pr)).
  { rewrite Hdf. apply Forall_forall. intros row Hin.
    apply in_map_iff in Hin. destruct Hin as (y & <- & _).
    split; reflexivity. }
  clear Hdf Hcf. induction W as [|ar inv cash row rows r rs He W IH].
  - constructor.
  - inversion HD as [|row' rows' (Hcx & Hi) HD']; subst.
    constructor; [|apply IH; exact HD'].
    rewrite <- Hcx, <- Hi.
    repeat split;
      first [ apply (ce_year _ _ _ _ _ He)
            | apply (ce_net_income _ _ _ _ _ He)
            | apply (ce_depreciation _ _ _ _ _ He)
            | apply (ce_capex _ _ _ _ _ He)
            | apply (ce_inv _ _ _ _ _ He)
            | apply (ce_interest _ _ _ _ _ He)
            | apply (ce_dap _ _ _ _ _ He)
            | apply (ce_ncl _ _ _ _ _ He)
            | apply (ce_sc _ _ _ _ _ He)
            | apply (ce_fin _ _ _ _ _ He) ].
Qed.

(** X6.  In every balance sheet the subtotals are the sums of their parts
    (cash, receivables and inventory, in that order, for the current assets;
    current assets plus PPE for the total; share capital plus retained
    earnings for the equity), receivables and inventory are the fixed shares
    of the year's sales, and share capital and non-current liabilities are
    the opening values, unchanged over the horizon. *)
Theorem X6_balance_sheet_rows (a : Assumptions)
    (assets_list : list (Asset (N:=N))) (pr : Projection) :
  projection a assets_list = Ok pr ->
  Forall2 (fun row b =>
             bs_Accounts_Receivable b = (df_Sales row * lit_0_20)%py /\
             bs_Inventory b = (df_Sales row * lit_0_10)%py /\
             bs_Total_Current_Assets b
             = (bs_Cash b + bs_Accounts_Receivable b + bs_Inventory b)%py /\
             bs_Total_Assets b = (bs_Total_Current_Assets b + bs_PPE b)%py /\
             bs_Share_Capital b = of_int (opening_equity a) /\
             bs_Non_Current_Liabilities b = of_int (opening_ncl a) /\
             bs_Total_Equity b
             = (bs_Share_Capital b + bs_Retained_Earnings b)%py)
          (pr_df pr) (pr_bs_numeric pr).
Proof.
  intros E. apply projection_Ok in E.
  destruct E as (ys & _ & _ & _ & _ & Hbs).
  apply balance_sheet_walk in Hbs.
  eapply bs_walk_Forall2; [|exact Hbs]. intros ppe ret row cash r He.
  repeat split;
    first [ apply (be_ar _ _ _ _ _ _ He) | apply (be_inv _ _ _ _ _ _ He)
          | apply (be_tca _ _ _ _ _ _ He) | apply (be_ta _ _ _ _ _ _ He)
          | apply (be_sc _ _ _ _ _ _ He) | apply (be_ncl _ _ _ _ _ _ He)
          | apply (be_te _ _ _ _ _ _ He) ].
Qed.

(** The cash-flow loop rolls PPE and retained earnings forward as the
    closed forms say. *)
Lemma cash_flow_rolls (rows : list DfRow) :
  forall st : CfState,
    ppe_prev (fold_left cf_step rows st)
    = fold_left (fun ppe row =>
                   (ppe + df_CapEx_Input row - df_Depreciation row)%py)
                rows (ppe_prev st) /\
    retained_prev (fold_left cf_step rows st)
    = fold_left (fun ret row => (ret + df_Net_Income row)%py)
                rows (retained_prev st).
Proof.
  induction rows as [|row rows IH]; intros st; simpl.
  - split; reflexivity.
  - destruct (IH (cf_step st row)) as (Hp & Hr). rewrite Hp, Hr.
    split; reflexivity.
Qed.

Lemma bs_walk_rolls a ccl k ppe ret rows rs :
  bs_walk a ccl k ppe ret rows rs ->
  forall t b, nth_error rs t = Some b ->
    bs_PPE b
    = fold_left (fun ppe row =>
                   (ppe + df_CapEx_Input row - df_Depreciation row)%py)
                (firstn (S t) rows) ppe /\
    bs_Retained_Earnings b
    = fold_left (fun ret row => (ret + df_Net_Income row)%py)
                (firstn (S t) rows) ret.
Proof.
  induction 1 as [|k ppe ret row rows cash r rs Hc He W IH]; intros t b Hb.
  - destruct t; discriminate Hb.
  - destruct t as [|t]; simpl in Hb.
    + inversion Hb; subst. simpl.
      rewrite (be_ppe _ _ _ _ _ _ He), (be_ret _ _ _ _ _ _ He).
      destruct rows; split; reflexivity.
    + destruct (IH _ _ Hb) as (Hp & Hr).
      change (firstn (S (S t)) (row :: rows))
        with (row :: firstn (S t) rows).
      simpl fold_left.
      rewrite <- (be_ppe _ _ _ _ _ _ He), <- (be_ret _ _ _ _ _ _ He).
      split; assumption.
Qed.

(** X7.  The two loops agree on PPE and retained earnings: the values the
    balance sheet shows for a year are the ones the cash-flow loop holds in
    [ppe_prev] and [retained_prev] after the same number of years, and both
    are the opening value rolled forward over the years so far. *)
Theorem X7_the_two_walks_agree (a : Assumptions)
    (assets_list : list (Asset (N:=N))) (pr : Projection) (t : nat)
    (b : BsRow) :
  projection a assets_list = Ok pr ->
  nth_error (pr_bs_numeric pr) t = Some b ->
  bs_PPE b = ppe_prev (cash_flow a (firstn (S t) (pr_df pr))) /\
  bs_Retained_Earnings b
  = retained_prev (cash_flow a (firstn (S t) (pr_df pr))) /\
  bs_PPE b = ppe_after a (firstn (S t) (pr_df pr)) /\
  bs_Retained_Earnings b = retained_after a (firstn (S t) (pr_df pr)).
Proof.
  intros E Hb. apply projection_Ok in E.
  destruct E as (ys & _ & _ & _ & _ & Hbs).
  apply balance_sheet_walk in Hbs.
  destruct (bs_walk_rolls _ _ _ _ _ _ _ Hbs _ _ Hb) as (Hp & Hr).
  unfold cash_flow, ppe_after, retained_after.
  destruct (cash_flow_rolls (firstn (S t) (pr_df pr)) (cf_initial a))
    as (Cp & Cr).
  rewrite Cp, Cr. simpl. repeat split; assumption.
Qed.

End Agreement.

(** ** The income loop: compound growth *)

Section Growth.

Context {N : Type} `{PyNum N}.

Lemma income_loop_drivers a (assets_list : list (Asset (N:=N))) yrs :
  forall d ys t y,
    income_loop a assets_list d yrs = Ok ys ->
    nth_error ys t = Some y ->
    cur_u y = drv_u (Nat.iter t (grow a) d) /\
    cur_p y = drv_p (Nat.iter t (grow a) d) /\
    manpower_cost y
    = (of_int (num_employees a) * drv_salary (Nat.iter t (grow a) d))%py.
Proof.
  induction yrs as [|yr yrs IH]; intros d ys t y E Hy; simpl in E.
  - inversion E; subst. destruct t; discriminate Hy.
  - bind_inv E. bind_inv E. inversion E; subst; clear E.
    destruct t as [|t]; simpl in Hy.
    + inversion Hy; subst; clear Hy. unfold income_year in Hx.
      bind_inv Hx. inversion Hx; subst. simpl. repeat split.
    + rewrite Nat.iter_succ_r. eapply IH; eassumption.
Qed.

(** X8.  The income statement of year t+1 is computed from the opening
    units, price and salary each multiplied t times by one plus its growth
    rate: the frame's Units and Price per Unit columns hold those two values,
    Sales is their product, Gross Profit is Sales less units times the
    variable cost, Manpower is the head count times the grown salary, and
    Fixed Costs, Interest and CapEx are the inputs in every year. *)
Theorem X8_compound_growth (a : Assumptions)
    (assets_list : list (Asset (N:=N))) (pr : Projection) (t : nat)
    (row : DfRow) :
  projection a assets_list = Ok pr ->
  nth_error (pr_df pr) t = Some row ->
  let d := drivers_at a t in
  df_Units row = drv_u d /\
  df_Price_per_Unit row = drv_p d /\
  df_Sales row = (drv_u d * drv_p d)%py /\
  df_Gross_Profit row
  = (drv_u d * drv_p d - drv_u d * of_int (variable_cost_per_unit a))%py /\
  df_Manpower row = (of_int (num_employees a) * drv_salary d)%py /\
  df_Fixed_Costs row = of_int (fixed_costs a) /\
  df_Interest row = of_int (interest a) /\
  df_CapEx_Input row = of_int (capex_input a) /\
  drivers_at a (S t) = grow a d /\
  drivers_at a 0 = initial_drivers a.
Proof.
  intros E Hrow d. apply projection_Ok in E.
  destruct E as (ys & Hys & Hdf & _).
  rewrite Hdf, nth_error_map in Hrow.
  destruct (nth_error ys t) as [y|] eqn:Hy; [|discriminate Hrow].
  inversion Hrow; subst row; clear Hrow. simpl.
  pose proof (income_calcs_equations _ _ _ Hys) as HF.
  rewrite Forall_forall in HF.
  pose proof (HF y (nth_error_In _ _ Hy)) as He.
  destruct (income_loop_drivers _ _ _ _ _ _ _ Hys Hy) as (Hu & Hp & Hm).
  fold (drivers_at a t) in Hu, Hp, Hm. fold d in Hu, Hp, Hm.
  rewrite (ye_gross_profit _ _ _ He), (ye_cogs _ _ _ He), (ye_sales _ _ _ He).
  rewrite Hu, Hp, Hm. repeat split.
Qed.

End Growth.

(** ** The formatted tables *)

Section Tables.

Context {N : Type} `{PyNum N} `{PyBuiltins N}.

Lemma map_result_total {A B : Type} (f : A -> result B) (xs : list A) :
  (forall x, In x xs -> exists y, f x = Ok y) ->
  exists ys, map_result f xs = Ok ys.
Proof.
  induction xs as [|x xs IH]; intros Hf; simpl.
  - eexists; reflexivity.
  - destruct (Hf x (or_introl eq_refl)) as (y & ->).
    destruct IH as (ys & ->); [intros z Hz; apply Hf; right; exact Hz|].
    simpl. eexists; reflexivity.
Qed.

Lemma map_result_Raise {A B : Type} (f : A -> result B) (xs : list A)
    (e : exn) :
  map_result f xs = Raise e -> exists x, In x xs /\ f x = Raise e.
Proof.
  induction xs as [|x xs IH]; simpl; intros E; [discriminate E|].
  destruct (f x) as [y|e'] eqn:Hx; simpl in E.
  - destruct (map_result f xs) as [ys|e''] eqn:Hxs; simpl in E;
      [discriminate E|].
    inversion E; subst. destruct (IH eq_refl) as (z & Hz & Hfz).
    exists z; auto.
  - inversion E; subst. exists x; auto.
Qed.

Lemma cell_total symbol decimals i (r : string * Values (N:=N) * ftype) n :
  row_fits n r -> (i < n)%nat ->
  exists y, cell symbol decimals i (snd (fst r)) (snd r) = Ok y.
Proof.
  unfold row_fits, cell. destruct r as [[label [vs|]] ft]; simpl.
  - intros HL Hi. destruct (nth_error vs i) as [v|] eqn:Hv.
    + destruct ft; eexists; reflexivity.
    + apply nth_error_None in Hv. lia.
  - intros _ _. eexists; reflexivity.
Qed.

Lemma build_table_total symbol decimals rows years :
  Forall (row_fits (List.length years)) rows ->
  exists tbl, build_table symbol decimals rows years = Ok tbl.
Proof.
  intros HF. unfold build_table.
  destruct (map_result_total
              (fun iy : nat * string =>
                 col <- map_result
                          (fun r : string * Values * ftype =>
                             cell symbol decimals (fst iy) (snd (fst r))
                                  (snd r)) rows ;;
                 Ok (snd iy, col)) (enumerate years)) as (cols & ->).
  - intros [i y] Hin. apply enumerate_In in Hin. simpl.
    destruct (map_result_total
                (fun r : string * Values * ftype =>
                   cell symbol decimals i (snd (fst r)) (snd r)) rows)
      as (col & ->).
    + intros r Hr. rewrite Forall_forall in HF.
      apply (cell_total _ _ _ _ _ (HF r Hr)).
      apply nth_error_Some. congruence.
    + simpl. eexists; reflexivity.
  - simpl. eexists; reflexivity.
Qed.

Lemma nth_error_enumerate {A : Type} (xs : list A) (i : nat) (iy : nat * A) :
  nth_error (enumerate xs) i = Some iy ->
  fst iy = i /\ nth_error xs i = Some (snd iy).
Proof.
  unfold enumerate.
  assert (G : forall k, nth_error (combine (seq k (List.length xs)) xs) i
                        = Some iy ->
                        fst iy = (k + i)%nat /\ nth_error xs i = Some (snd iy)).
  { revert i. induction xs as [|x xs IH]; intros i k Hn; simpl in Hn.
    - destruct i; discriminate Hn.
    - destruct i as [|i]; simpl in Hn.
      + inversion Hn; subst. simpl. split; [lia | reflexivity].
      + destruct (IH _ _ Hn) as (Hf & Hs). split; [lia | exact Hs]. }
  intros Hn. destruct (G 0%nat Hn) as (Hf & Hs). split; [exact Hf | exact Hs].
Qed.

(** The column of index [i] is headed by the label of index [i], and its
    cells are the cells of index [i] of the rows, from top to bottom. *)
Lemma build_table_column symbol decimals rows years tbl i c :
  build_table symbol decimals rows years = Ok tbl ->
  nth_error (tbl_columns tbl) i = Some c ->
  nth_error years i = Some (fst c) /\
  Forall2 (fun r y => cell symbol decimals i (snd (fst r)) (snd r) = Ok y)
          rows (snd c).
Proof.
  unfold build_table; intros E Hc. bind_inv E. inversion E; subst; clear E.
  simpl in Hc. apply map_result_Forall2 in Hx.
  assert (HL : List.length (enumerate years) = List.length x)
    by (eapply Forall2_length; exact Hx).
  destruct (nth_error (enumerate years) i) as [iy|] eqn:Hiy.
  - pose proof (Forall2_nth_error_both _ _ _ _ _ _ Hx Hiy Hc) as Hcol.
    simpl in Hcol. bind_inv Hcol. inversion Hcol; subst; clear Hcol.
    destruct (nth_error_enumerate _ _ _ Hiy) as (Hf & Hs). simpl.
    split; [exact Hs|]. rewrite <- Hf. apply map_result_Forall2. exact Hx0.
  - apply nth_error_None in Hiy.
    assert ((i < List.length x)%nat) by (apply nth_error_Some; congruence).
    lia.
Qed.

Lemma build_table_shape symbol decimals rows years tbl :
  build_table symbol decimals rows years = Ok tbl ->
  tbl_Item tbl = map (fun r => fst (fst r)) rows /\
  map fst (tbl_columns tbl) = years /\
  Forall (fun c => List.length (snd c) = List.length rows) (tbl_columns tbl).
Proof.
  intros E. destruct (build_table_Ok _ _ _ _ _ E) as (HI & HY & HC).
  split; [exact HI|]. split; [exact HY|].
  eapply Forall_impl; [|exact HC]. intros c (i & _ & HF).
  symmetry. eapply Forall2_length; exact HF.
Qed.

Lemma build_table_cell symbol decimals rows years tbl i c j label vs v :
  build_table symbol decimals rows years = Ok tbl ->
  nth_error (tbl_columns tbl) i = Some c ->
  nth_error rows j = Some (label, Some vs, currency) ->
  nth_error vs i = Some v ->
  nth_error (snd c) j = Some (fmt_currency v symbol decimals).
Proof.
  intros E Hc Hr Hv. destruct (build_table_column _ _ _ _ _ _ _ E Hc) as (_ & HF).
  destruct (Forall2_nth_error_l _ _ _ _ _ HF Hr) as (y & Hy & Hcell).
  simpl in Hcell. unfold cell in Hcell. rewrite Hv in Hcell.
  inversion Hcell; subst. exact Hy.
Qed.

Lemma income_statement_table_returns (df : list DfRow) (symbol : string)
    (decimals : Z) :
  exists tbl, make_ifrs_income_statement df symbol decimals = Ok tbl.
Proof.
  unfold make_ifrs_income_statement. apply build_table_total.
  repeat constructor; unfold row_fits; simpl; rewrite ?length_map; reflexivity.
Qed.


Lemma bs_display_rows_fit (bs_numeric : list BsRow)
    (assets_list : list (Asset (N:=N))) :
  Forall (row_fits (List.length (map bs_Year bs_numeric)))
         (bs_display_rows bs_numeric assets_list).
Proof.
  unfold bs_display_rows. rewrite !Forall_app. split; [|split].
  - repeat constructor.
  - apply Forall_forall. intros r Hr. apply in_map_iff in Hr.
    destruct Hr as ([[name val] life] & <- & _).
    unfold row_fits; simpl. rewrite repeat_length. reflexivity.
  - repeat constructor; unfold row_fits; simpl;
      rewrite ?length_map; reflexivity.
Qed.


Lemma balance_sheet_table_returns (bs_numeric : list BsRow)
    (assets_list : list (Asset (N:=N))) (symbol : string) (decimals : Z) :
  bs_numeric <> [] ->
  exists tbl,
    make_ifrs_balance_sheet bs_numeric assets_list symbol decimals = Ok tbl /\
    build_table symbol decimals (bs_display_rows bs_numeric assets_list)
                (map bs_Year bs_numeric) = Ok tbl.
Proof.
  intros Hne.
  destruct (build_table_total symbol decimals
              (bs_display_rows bs_numeric assets_list)
              (map bs_Year bs_numeric)
              (bs_display_rows_fit bs_numeric assets_list)) as (tbl & E).
  exists tbl. split; [|exact E]. unfold make_ifrs_balance_sheet.
  destruct bs_numeric; [contradiction | exact E].
Qed.


(** The rows of the cash-flow table. *)
Lemma cash_flow_table_returns (cf_numeric : list CfRow) (symbol : string)
    (decimals : Z) :
  cf_numeric <> [] ->
  exists tbl, make_ifrs_cashflow_display cf_numeric symbol decimals = Ok tbl.
Proof.
  intros Hne. unfold make_ifrs_cashflow_display.
  destruct cf_numeric as [|r0 rest]; [contradiction|].
  apply build_table_total.
  repeat constructor; unfold row_fits; simpl; rewrite ?length_map; reflexivity.
Qed.


End Tables.

(** ** The depreciation schedule and the script up to the downloads *)

Section Script.

Context {N : Type} `{PyNum N} `{PyBuiltins N}.

(** The rows of the depreciation schedule, when every division goes
    through. *)
Lemma dep_schedule_Ok (assets_list : list (Asset (N:=N))) (decimals : Z)
    (rows : list (string * N * Z * N)) :
  dep_schedule assets_list decimals = Ok rows ->
  rows = map (fun '(n, v, l) => (n, v, l, py_round (v / of_int l)%py decimals))
             assets_list /\
  Forall (fun x : Asset => divisible_life (snd x)) assets_list.
Proof.
  unfold dep_schedule. revert rows.
  induction assets_list as [|[[n v] l] rest IH]; intros rows E; simpl in E.
  - inversion E; subst. split; [reflexivity | constructor].
  - bind_inv E. bind_inv Hx. inversion Hx; subst; clear Hx.
    bind_inv E. inversion E; subst; clear E.
    apply truediv_int_Ok in Hx0. destruct Hx0 as (Hd & ->).
    destruct (IH _ Hx) as (-> & HF).
    split; [reflexivity | constructor; [exact Hd | exact HF]].
Qed.

(** The schedule and the depreciation charge stop at the same asset, with
    the same exception. *)
Lemma dep_schedule_Raise (assets_list : list (Asset (N:=N))) (decimals : Z)
    (e : exn) :
  forall acc,
    for_each (fun acc '(_, val, life) =>
                q <- truediv_int val life ;; Ok (acc + q)%py)
             assets_list acc = Raise e <->
    dep_schedule assets_list decimals = Raise e.
Proof.
  unfold dep_schedule.
  induction assets_list as [|[[n v] l] rest IH]; intros acc; simpl.
  - split; discriminate.
  - destruct (truediv_int v l) as [q|e'] eqn:Hq; simpl.
    + rewrite (IH (acc + q)%py).
      match goal with
      | |- context [map_result ?f rest] =>
          destruct (map_result f rest) as [rows|e'']; simpl
      end; split; intros E; first [discriminate E | exact E].
    + split; intros E; inversion E; reflexivity.
Qed.

Lemma depreciation_sum_Raise_iff (assets_list : list (Asset (N:=N)))
    (decimals : Z) (e : exn) :
  depreciation_sum assets_list = Raise e <->
  dep_schedule assets_list decimals = Raise e.
Proof.
  unfold depreciation_sum. destruct assets_list as [|x rest].
  - split; discriminate.
  - apply dep_schedule_Raise.
Qed.

Lemma dep_schedule_total (assets_list : list (Asset (N:=N))) (decimals : Z) :
  Forall (fun x : Asset => divisible_life (snd x)) assets_list ->
  exists rows, dep_schedule assets_list decimals = Ok rows.
Proof.
  intros HF. destruct (dep_schedule assets_list decimals) as [rows|e] eqn:E.
  - eexists; reflexivity.
  - apply depreciation_sum_Raise_iff in E.
    rewrite (depreciation_sum_total _ HF) in E. discriminate E.
Qed.

(** X12.  The depreciation schedule lists the assets in input order, each
    with its value, its life and its quotient value / life rounded to the
    chosen number of decimals.  It is built exactly when every life can be
    divided by, and otherwise raises what the depreciation charge of the
    income loop raises on the same list: both stop at the first life they
    cannot divide by. *)
Theorem X12_depreciation_schedule (assets_list : list (Asset (N:=N)))
    (decimals : Z) :
  (Forall (fun x : Asset => divisible_life (snd x)) assets_list <->
   dep_schedule assets_list decimals
   = Ok (map (fun '(n, v, l) =>
                (n, v, l, py_round (v / of_int l)%py decimals))
             assets_list)) /\
  (forall rows,
      dep_schedule assets_list decimals = Ok rows ->
      rows = map (fun '(n, v, l) =>
                    (n, v, l, py_round (v / of_int l)%py decimals))
                 assets_list) /\
  (forall e,
      dep_schedule assets_list decimals = Raise e <->
      depreciation_sum assets_list = Raise e).
Proof.
  split; [split|split].
  - intros HF. destruct (dep_schedule_total assets_list decimals HF)
      as (rows & E).
    rewrite E. f_equal. apply (dep_schedule_Ok _ _ _ E).
  - intros E. apply (dep_schedule_Ok _ _ _ E).
  - intros rows E. apply (dep_schedule_Ok _ _ _ E).
  - intros e. symmetry. apply depreciation_sum_Raise_iff.
Qed.

Lemma projection_frames_not_empty (a : Assumptions)
    (assets_list : list (Asset (N:=N))) (pr : Projection) :
  1 <= years a -> projection a assets_list = Ok pr ->
  pr_bs_numeric pr <> [] /\ pr_cf_numeric pr <> [].
Proof.
  intros Hy E. apply projection_Ok in E.
  destruct E as (ys & Hys & Hdf & Hcf & _ & Hbs).
  apply balance_sheet_walk in Hbs.
  pose proof (bs_walk_same_length _ _ _ _ _ _ _ Hbs) as HLb.
  pose proof (cash_flow_rows_walk a (pr_df pr)) as W. rewrite <- Hcf in W.
  pose proof (cf_walk_length _ _ _ _ _ W) as HLc.
  assert (Hn : List.length (pr_df pr) = Z.to_nat (years a)).
  { rewrite Hdf, length_map, <- (length_map (fun y => year_label (year y))),
      (income_calcs_years _ _ _ Hys), length_map. apply year_range_count. }
  split; intros E0; rewrite E0 in *; simpl in *; lia.
Qed.

Lemma run_returns (a : Assumptions) :
  1 <= years a ->
  Forall (fun x : Asset => divisible_life (snd x))
         (parse_assets (assets_input a)) ->
  exists out, run a = Ok out.
Proof.
  intros Hy HF. unfold run.
  destruct (projection_returns a _ HF) as (pr & E). rewrite E. simpl.
  destruct (dep_schedule_total _ (decimals a) HF) as (dep & ->). simpl.
  destruct (income_statement_table_returns (pr_df pr) (currency_symbol a)
              (decimals a)) as (t1 & ->). simpl.
  destruct (projection_frames_not_empty _ _ _ Hy E) as (Hb & Hc).
  destruct (balance_sheet_table_returns _ (parse_assets (assets_input a))
              (currency_symbol a) (decimals a) Hb) as (t2 & -> & _). simpl.
  destruct (cash_flow_table_returns _ (currency_symbol a) (decimals a) Hc)
    as (t3 & ->). simpl.
  eexists; reflexivity.
Qed.

(** X13.  The outcome of the script up to the downloads, on what the sidebar
    can deliver, depends on the lives of the parsed assets only.  The part of
    the script from the asset parser to the balance message returns its four
    tables and the message exactly when every parsed life can be divided by.
    Otherwise it raises what the depreciation sum raises on the parsed list,
    a ZeroDivisionError or an OverflowError; it raises nothing else: no
    KeyError (the frames are never empty) and no IndexError (no table cell
    is read outside its list). *)
Theorem X13_outcome_before_the_downloads (a : Assumptions) :
  widget_ranges a ->
  ((exists out, run a = Ok out) <->
   Forall (fun x : Asset => divisible_life (snd x))
          (parse_assets (assets_input a))) /\
  (forall e,
      run a = Raise e <->
      depreciation_sum (parse_assets (assets_input a)) = Raise e) /\
  (forall e,
      run a = Raise e -> e = ZeroDivisionError \/ e = OverflowError).
Proof.
  intros W. pose proof (wr_years a W) as (Hy & _).
  set (assets_list := parse_assets (assets_input a)).
  assert (Hbad : forall e,
             depreciation_sum assets_list = Raise e ->
             run a = Raise e /\ (e = ZeroDivisionError \/ e = OverflowError)).
  { intros e E. split; [|apply (depreciation_sum_Raise _ _ E)].
    unfold run. fold assets_list.
    rewrite (projection_first_year_raises _ _ _ Hy E). reflexivity. }
  assert (Hcases : (Forall (fun x : Asset => divisible_life (snd x))
                           assets_list
                    /\ exists out, run a = Ok out)
                   \/ exists e, depreciation_sum assets_list = Raise e).
  { destruct (depreciation_sum assets_list) as [d|e] eqn:E.
    - left. pose proof (proj2 (depreciation_sum_value _ _ E)) as HF.
      split; [exact HF | apply (run_returns a Hy HF)].
    - right. exists e. reflexivity. }
  assert (Hraise : forall e,
             run a = Raise e -> depreciation_sum assets_list = Raise e).
  { intros e R. destruct Hcases as [(_ & out & Hout)|(e' & He')].
    - rewrite Hout in R. discriminate R.
    - destruct (Hbad e' He') as (R' & _). rewrite R' in R.
      inversion R; subst. exact He'. }
  split; [|split].
  - split.
    + intros (out & E). destruct Hcases as [(HF & _)|(e & He)]; [exact HF|].
      destruct (Hbad e He) as (R & _). rewrite R in E. discriminate E.
    + intros HF. apply (run_returns a Hy HF).
  - intros e. split; [apply Hraise | intros E; apply (Hbad e E)].
  - intros e R. apply (Hbad e (Hraise e R)).
Qed.

End Script.

(** ** The formatted tables: what the cells show *)

Section Cells.

Context {N : Type} `{PyNum N} `{PyBuiltins N}.

Lemma bs_display_rows_cash (bs_numeric : list BsRow)
    (assets_list : list (Asset (N:=N))) :
  nth_error (bs_display_rows bs_numeric assets_list)
            (3 + List.length assets_list)
  = Some ("    Cash", Some (map bs_Cash bs_numeric), currency).
Proof.
  unfold bs_display_rows.
  rewrite nth_error_app2 by (simpl; lia).
  rewrite nth_error_app2 by (rewrite length_map; unfold Asset; simpl; lia).
  rewrite length_map. unfold Asset in *.
  match goal with
  | |- nth_error _ ?k = _ =>
      replace k with 1%nat by (simpl List.length; lia)
  end.
  reflexivity.
Qed.

Lemma projection_cash_columns (a : Assumptions)
    (assets_list : list (Asset (N:=N))) (pr : Projection) :
  projection a assets_list = Ok pr ->
  map bs_Cash (pr_bs_numeric pr) = pr_closing_cash_list pr /\
  map cf_Closing_Cash (pr_cf_numeric pr) = pr_closing_cash_list pr /\
  map bs_Year (pr_bs_numeric pr) = map cf_Year (pr_cf_numeric pr).
Proof.
  intros E. apply projection_Ok in E.
  destruct E as (ys & _ & _ & Hcf & Hccl & Hbs).
  apply balance_sheet_walk in Hbs.
  split; [|split].
  - rewrite (bs_walk_cash _ _ _ _ _ _ _ Hbs). simpl.
    rewrite Hccl at 1. rewrite <- (closing_cash_list_length a (pr_df pr)).
    rewrite <- Hccl. apply firstn_all.
  - rewrite Hcf, Hccl. unfold cash_flow. symmetry.
    apply cash_flow_closing_cash. reflexivity.
  - rewrite (bs_walk_years _ _ _ _ _ _ _ Hbs), Hcf. unfold cash_flow.
    rewrite cash_flow_years. reflexivity.
Qed.

(** X14.  On the frames of one run the two formatted tables show the same
    cash: in every year column the "Cash" cell of the balance sheet (the
    fourth row after the asset rows) and the "Closing Cash Balance" cell of
    the cash flow statement (the last row) hold the same text, the year's
    closing cash formatted as currency, under the same year label. *)
Theorem X14_cash_cells_agree (a : Assumptions)
    (assets_list : list (Asset (N:=N))) (pr : Projection)
    (symbol : string) (decimals : Z) (bt ct : Table) (i : nat)
    (cb cc : string * list string) :
  projection a assets_list = Ok pr ->
  make_ifrs_balance_sheet (pr_bs_numeric pr) assets_list symbol decimals
  = Ok bt ->
  make_ifrs_cashflow_display (pr_cf_numeric pr) symbol decimals = Ok ct ->
  nth_error (tbl_columns bt) i = Some cb ->
  nth_error (tbl_columns ct) i = Some cc ->
  fst cb = fst cc /\
  nth_error (tbl_Item bt) (3 + List.length assets_list) = Some "    Cash" /\
  nth_error (tbl_Item ct) 16 = Some "Closing Cash Balance" /\
  exists v,
    nth_error (pr_closing_cash_list pr) i = Some v /\
    nth_error (snd cb) (3 + List.length assets_list)
    = Some (fmt_currency v symbol decimals) /\
    nth_error (snd cc) 16 = Some (fmt_currency v symbol decimals).
Proof.
  intros E Eb Ec Hb Hc.
  destruct (projection_cash_columns _ _ _ E) as (Hbc & Hcc & Hy).
  unfold make_ifrs_balance_sheet in Eb.
  destruct (pr_bs_numeric pr) as [|b0 bs] eqn:Hbs; [discriminate Eb|].
  rewrite <- Hbs in *.
  unfold make_ifrs_cashflow_display in Ec.
  destruct (pr_cf_numeric pr) as [|c0 cs] eqn:Hcs; [discriminate Ec|].
  rewrite <- Hcs in *.
  destruct (build_table_column _ _ _ _ _ _ _ Eb Hb) as (Hyb & _).
  destruct (build_table_column _ _ _ _ _ _ _ Ec Hc) as (Hyc & _).
  destruct (build_table_shape _ _ _ _ _ Eb) as (HIb & _).
  destruct (build_table_shape _ _ _ _ _ Ec) as (HIc & _).
  pose proof (bs_display_rows_cash (pr_bs_numeric pr) assets_list) as Hrow.
  split; [rewrite Hy in Hyb; congruence|].
  split; [rewrite HIb, nth_error_map, Hrow; reflexivity|].
  split; [rewrite HIc; reflexivity|].
  destruct (nth_error (pr_closing_cash_list pr) i) as [v|] eqn:Hv.
  - exists v. split; [reflexivity|]. split.
    + eapply build_table_cell; [exact Eb | exact Hb | exact Hrow|].
      rewrite Hbc. exact Hv.
    + eapply (build_table_cell _ _ _ _ _ _ _ 16%nat);
        [exact Ec | exact Hc | reflexivity|].
      rewrite Hcc. exact Hv.
  - apply nth_error_None in Hv.
    rewrite <- Hbc, length_map, <- (length_map bs_Year) in Hv.
    assert ((i < List.length (map bs_Year (pr_bs_numeric pr)))%nat)
      by (apply nth_error_Some; congruence).
    lia.
Qed.

(** X15.  The year columns of the formatted income statement from the
    second year on, cell by cell, on what the sidebar can deliver: the column
    is headed by the year's label and shows, from top to bottom, the year's
    sales, units (with no decimals and no currency symbol), price, sales
    less gross profit, gross profit, an empty cell, manpower cost, the
    fixed-cost input, depreciation, EBIT, the interest input, the profit
    before tax the tax was computed on, the tax and the net income.  (A
    frame with a second year has float columns, which the formatter
    subtracts in floating point; the first year, computed on ints, is left
    out.) *)
Theorem X15_income_statement_cells (a : Assumptions)
    (assets_list : list (Asset (N:=N))) (ys : list YearCalc)
    (tbl : Table) (i : nat) (y : YearCalc) (c : string * list string) :
  widget_ranges a ->
  income_calcs a assets_list = Ok ys ->
  make_ifrs_income_statement (map (data_row a) ys)
                             (currency_symbol a) (decimals a) = Ok tbl ->
  (1 <= i)%nat ->
  nth_error ys i = Some y ->
  nth_error (tbl_columns tbl) i = Some c ->
  let money v := fmt_currency v (currency_symbol a) (decimals a) in
  fst c = year_label (year y) /\
  snd c = [ money (sales y); format_f 0 (cur_u y); money (cur_p y);
            money (sales y - gross_profit y)%py; money (gross_profit y);
            EmptyString; money (manpower_cost y);
            money (of_int (fixed_costs a)); money (depreciation y);
            money (ebit y); money (of_int (interest a)); money (ebt y);
            money (taxes y); money (net_income y) ].
Proof.
  intros _ Hys E _ Hy Hc money.
  pose proof (income_calcs_equations _ _ _ Hys) as HF.
  rewrite Forall_forall in HF.
  pose proof (HF y (nth_error_In _ _ Hy)) as He.
  unfold make_ifrs_income_statement in E.
  destruct (build_table_column _ _ _ _ _ _ _ E Hc) as (Hyr & HC).
  rewrite map_map, nth_error_map, Hy in Hyr. simpl in Hyr.
  split; [congruence|].
  assert (Hcell : forall (f : DfRow -> N) ft s,
             cell (currency_symbol a) (decimals a) i
                  (Some (map f (map (data_row a) ys))) ft
             = Ok s ->
             s = match ft with
                 | currency => money (f (data_row a y))
                 | units_fmt => format_f 0 (f (data_row a y))
                 | header => EmptyString
                 end).
  { intros f ft s. unfold cell. rewrite !nth_error_map, Hy. simpl.
    destruct ft; intros Es; inversion Es; reflexivity. }
  destruct c as [label col]. cbn [fst snd] in *.
  repeat match goal with
         | HF2 : Forall2 _ (_ :: _) _ |- _ =>
             inversion HF2; subst; clear HF2
         | HF2 : Forall2 _ [] _ |- _ => inversion HF2; subst; clear HF2
         | Hh : cell _ _ _ _ _ = Ok _ |- _ =>
             cbn [fst snd] in Hh;
             first [ apply Hcell in Hh; cbn iota in Hh; subst
                   | unfold cell in Hh; inversion Hh; subst; clear Hh ]
         end.
  rewrite (ye_ebt _ _ _ He). reflexivity.
Qed.

End Cells.

(** ** The balance check in exact arithmetic *)

Lemma exact_absn_zero : absn (zero (N:=Qc)) = zero.
Proof. reflexivity. Qed.

Lemma exact_sub_self (x : Qc) : (x - x)%py = zero.
Proof. simpl. unfold zero. simpl. ring_simplify. reflexivity. Qed.

Lemma map_constant {A B : Type} (f : A -> B) (z : B) (xs : list A) :
  Forall (fun x => f x = z) xs -> map f xs = repeat z (List.length xs).
Proof.
  induction 1 as [|x xs Hx HF IH]; simpl; [reflexivity|].
  now rewrite Hx, IH.
Qed.

Lemma series_max_zeros (n : nat) :
  series_max (repeat (zero (N:=Qc)) (S n)) = Some zero.
Proof.
  unfold series_max. simpl. f_equal.
  induction n as [|n IH]; simpl; [reflexivity | exact IH].
Qed.

(** X16.  Over the rationals the balance check of a run with at least one
    year always succeeds: the largest gap between total assets and total
    liabilities and equity is exactly zero, so the message is the success
    one, whatever the assumptions.  Whatever gap the script reports is
    therefore produced by binary64 rounding alone. *)
Theorem X16_exact_balance_check (a : Assumptions)
    (assets_list : list (Asset (N:=Qc))) (pr : Projection)
    (symbol : string) (decimals : Z) :
  1 <= years a ->
  projection a assets_list = Ok pr ->
  balance_gap (pr_bs_numeric pr) = Some zero /\
  balance_message (pr_bs_numeric pr) symbol decimals = success.
Proof.
  intros Hy E.
  assert (Hne : pr_bs_numeric pr <> []).
  { apply (projection_frames_not_empty _ _ _ Hy E). }
  apply projection_Ok in E. destruct E as (ys & _ & _ & _ & _ & Hbs).
  apply balance_sheet_walk in Hbs.
  assert (HZ : map (fun r => absn (bs_Total_Assets r
                                   - bs_Total_Liabilities_Equity r)%py)
                   (pr_bs_numeric pr)
               = repeat zero (List.length (pr_bs_numeric pr))).
  { apply map_constant.
    eapply bs_walk_Forall; [|exact Hbs]. intros ppe ret row cash r He.
    rewrite (be_tle _ _ _ _ _ _ He), (be_cl _ _ _ _ _ _ He).
    rewrite exact_cancellation, exact_sub_self. reflexivity. }
  assert (Hg : balance_gap (pr_bs_numeric pr) = Some zero).
  { unfold balance_gap. rewrite HZ.
    destruct (pr_bs_numeric pr) as [|r rs]; [contradiction|].
    apply series_max_zeros. }
  split; [exact Hg|]. unfold balance_message. rewrite Hg. reflexivity.
Qed.

(** ** Strings: splitting and stripping *)

Lemma split_not_nil (c : ascii) (s : string) : split c s <> [].
Proof.
  destruct s as [|x s]; simpl; [discriminate|].
  destruct (Ascii.eqb x c); [discriminate|].
  destruct (split c s); discriminate.
Qed.

(** Splitting at a separator splits the two sides on their own. *)
Lemma split_app (c : ascii) (s1 s2 : string) :
  split c (s1 ++ String c s2) = (split c s1 ++ split c s2)%list.
Proof.
  induction s1 as [|x s1 IH]; simpl.
  - rewrite Ascii.eqb_refl. reflexivity.
  - destruct (Ascii.eqb x c); [now rewrite IH|].
    rewrite IH. pose proof (split_not_nil c s1) as Hne.
    destruct (split c s1) as [|w ws]; [contradiction | reflexivity].
Qed.

Lemma split_no_sep (c : ascii) (s : string) :
  ~ In c (list_ascii_of_string s) -> split c s = [s].
Proof.
  induction s as [|x s IH]; simpl; intros Hn; [reflexivity|].
  destruct (Ascii.eqb_spec x c) as [->|Hx]; [exfalso; apply Hn; now left|].
  rewrite IH; [reflexivity | intros Hin; apply Hn; now right].
Qed.

(** Every field is free of the separator and made of characters of the
    string. *)
Lemma split_fields (c : ascii) (s : string) (w : string) :
  In w (split c s) ->
  ~ In c (list_ascii_of_string w) /\
  (forall x, In x (list_ascii_of_string w) -> In x (list_ascii_of_string s)).
Proof.
  revert w; induction s as [|x s IH]; simpl; intros w Hw.
  - destruct Hw as [<-|[]]. split; [intros [] | intros y []].
  - destruct (Ascii.eqb_spec x c) as [->|Hx].
    + destruct Hw as [<-|Hw].
      * split; [intros [] | intros y []].
      * destruct (IH _ Hw) as (Hn & Hsub).
        split; [exact Hn | intros y Hy; right; apply Hsub, Hy].
    + pose proof (split_not_nil c s) as Hne.
      destruct (split c s) as [|w0 ws]; [contradiction|].
      destruct Hw as [<-|Hw].
      * destruct (IH w0 (or_introl eq_refl)) as (Hn & Hsub). split.
        -- simpl. intros [E|Hin]; [apply Hx; exact E | exact (Hn Hin)].
        -- simpl. intros y [E|Hy]; [left; exact E | right; apply Hsub, Hy].
      * destruct (IH w (or_intror Hw)) as (Hn & Hsub).
        split; [exact Hn | intros y Hy; right; apply Hsub, Hy].
Qed.

Lemma lstrip_chars (s : string) (x : ascii) :
  In x (list_ascii_of_string (lstrip s)) -> In x (list_ascii_of_string s).
Proof.
  induction s as [|c s IH]; simpl; [tauto|].
  destruct (is_space c); simpl; [intros Hin; right; apply IH, Hin | tauto].
Qed.

Lemma rstrip_chars (s : string) (x : ascii) :
  In x (list_ascii_of_string (rstrip s)) -> In x (list_ascii_of_string s).
Proof.
  induction s as [|c s IH]; simpl; [tauto|].
  destruct (rstrip s) as [|c' t] eqn:E.
  - destruct (is_space c); simpl; [intros [] | intros [->|[]]; now left].
  - simpl. intros [->|Hin]; [now left | right; apply IH; exact Hin].
Qed.

Lemma strip_chars (s : string) (x : ascii) :
  In x (list_ascii_of_string (strip s)) -> In x (list_ascii_of_string s).
Proof. intros Hin. apply lstrip_chars, rstrip_chars, Hin. Qed.

Lemma rstrip_idempotent (s : string) : rstrip (rstrip s) = rstrip s.
Proof.
  induction s as [|c s IH]; simpl; [reflexivity|].
  destruct (rstrip s) as [|c' t] eqn:E.
  - destruct (is_space c) eqn:Ec; simpl; [reflexivity | now rewrite Ec].
  - simpl. simpl in IH. rewrite IH. reflexivity.
Qed.

Lemma lstrip_head (s : string) :
  match lstrip s with
  | EmptyString => True
  | String c _ => is_space c = false
  end.
Proof.
  induction s as [|c s IH]; simpl; [exact I|].
  destruct (is_space c) eqn:Ec; [exact IH | exact Ec].
Qed.

Lemma lstrip_rstrip (t : string) :
  match t with
  | EmptyString => True
  | String c _ => is_space c = false
  end ->
  lstrip (rstrip t) = rstrip t.
Proof.
  destruct t as [|c t]; simpl; [reflexivity|]. intros Hc.
  destruct (rstrip t); rewrite ?Hc; simpl; now rewrite Hc.
Qed.

(** Stripping a stripped string changes nothing. *)
Lemma strip_idempotent (s : string) : strip (strip s) = strip s.
Proof.
  unfold strip. rewrite (lstrip_rstrip (lstrip s) (lstrip_head s)).
  apply rstrip_idempotent.
Qed.

Lemma remove_char_app (c : ascii) (s1 s2 : string) :
  remove_char c (s1 ++ s2) = (remove_char c s1 ++ remove_char c s2)%string.
Proof.
  induction s1 as [|x s1 IH]; simpl; [reflexivity|].
  destruct (Ascii.eqb x c); simpl; now rewrite IH.
Qed.

Lemma remove_char_absent (c : ascii) (s : string) :
  ~ In c (list_ascii_of_string s) -> remove_char c s = s.
Proof.
  induction s as [|x s IH]; simpl; intros Hn; [reflexivity|].
  destruct (Ascii.eqb_spec x c) as [->|Hx]; [exfalso; apply Hn; now left|].
  rewrite IH; [reflexivity | intros Hin; apply Hn; now right].
Qed.

Lemma append_empty_r (s : string) : (s ++ EmptyString)%string = s.
Proof. induction s as [|x s IH]; simpl; [reflexivity | now rewrite IH]. Qed.

(** X20.  The currency symbol taken from a menu entry is what follows the
    entry's last opening parenthesis, with every closing parenthesis removed
    and the surrounding whitespace stripped; an entry with no opening
    parenthesis is taken whole.  So an entry "NAME (SYM)" gives SYM whenever
    SYM holds no parenthesis and no whitespace at either end. *)
Theorem X20_currency_symbol (name sym : string) :
  ~ In "("%char (list_ascii_of_string sym) ->
  currency_symbol_of (name ++ String "("%char sym)
  = strip (remove_char ")"%char sym) /\
  currency_symbol_of sym = strip (remove_char ")"%char sym) /\
  (~ In ")"%char (list_ascii_of_string sym) -> strip sym = sym ->
   currency_symbol_of (name ++ " (" ++ sym ++ ")") = sym).
Proof.
  intros Hopen.
  assert (G : forall pre, currency_symbol_of (pre ++ String "("%char sym)
                          = strip (remove_char ")"%char sym)).
  { intros pre. unfold currency_symbol_of.
    rewrite split_app, (split_no_sep _ sym Hopen), last_last. reflexivity. }
  split; [apply G|]. split.
  - unfold currency_symbol_of. rewrite (split_no_sep _ sym Hopen). reflexivity.
  - intros Hclose Hstrip.
    assert (Hopen' : ~ In "("%char (list_ascii_of_string (sym ++ ")"))).
    { intros Hin. apply Hopen. clear - Hin.
      induction sym as [|x s IH]; simpl in *.
      - destruct Hin as [E|[]]. discriminate E.
      - destruct Hin as [E|Hin]; [now left | right; apply IH, Hin]. }
    unfold currency_symbol_of.
    replace (name ++ " (" ++ sym ++ ")")%string
      with ((name ++ " ") ++ String "("%char (sym ++ ")"))%string.
    + rewrite split_app, (split_no_sep _ _ Hopen'), last_last.
      rewrite remove_char_app, (remove_char_absent _ sym Hclose). simpl.
      rewrite append_empty_r. exact Hstrip.
    + clear. induction name as [|x s IH]; simpl; [reflexivity|].
      now rewrite IH.
Qed.

(** ** The asset parser, line by line *)

Section ParserLines.

Context {N : Type} `{PyNum N} `{PyBuiltins N}.

Lemma parse_lines_app (l1 l2 : list string) :
  (parse_lines l1 ++ parse_lines l2)%list = parse_lines (N:=N) (l1 ++ l2)%list.
Proof.
  induction l1 as [|l l1 IH]; simpl; [reflexivity|].
  destruct (parse_line l); simpl; now rewrite IH.
Qed.

(** X17.  The parser reads its text line by line, and the lines do not
    affect one another: the assets of two texts joined by a line break are
    the assets of the first followed by the assets of the second.  A line
    that is empty, or has no comma, gives no asset, so a trailing line break
    or a blank line between entries changes nothing. *)
Theorem X17_parser_is_line_by_line (s1 s2 : string) :
  parse_assets (N:=N) (s1 ++ String newline s2)
  = (parse_assets s1 ++ parse_assets s2)%list /\
  parse_assets (N:=N) EmptyString = [] /\
  parse_assets (N:=N) (s1 ++ String newline EmptyString) = parse_assets s1 /\
  (~ In comma (list_ascii_of_string s1) ->
   ~ In newline (list_ascii_of_string s1) -> parse_assets (N:=N) s1 = []).
Proof.
  assert (Happ : forall t1 t2,
             parse_assets (N:=N) (t1 ++ String newline t2)
             = (parse_assets t1 ++ parse_assets t2)%list).
  { intros t1 t2. unfold parse_assets.
    rewrite split_app, parse_lines_app. reflexivity. }
  split; [apply Happ|]. split; [reflexivity|]. split.
  - rewrite Happ. apply app_nil_r.
  - intros Hc Hn. unfold parse_assets. rewrite (split_no_sep _ _ Hn).
    simpl. unfold parse_line. rewrite (split_no_sep _ _ Hc). reflexivity.
Qed.

(** X18.  Every parsed asset comes from one line of the text that has
    exactly three comma-separated fields: its name is the first field
    stripped, so it carries no whitespace at either end, no comma and no
    line break; its value and life are what [float] and [int] read from the
    other two fields, stripped. *)
Theorem X18_parsed_assets (assets_input : string) (name : string) (val : N)
    (life : Z) :
  In (name, val, life) (parse_assets assets_input) ->
  strip name = name /\
  ~ In comma (list_ascii_of_string name) /\
  ~ In newline (list_ascii_of_string name) /\
  exists line f0 f1 f2,
    In line (split newline assets_input) /\
    split comma line = [f0; f1; f2] /\
    name = strip f0 /\
    py_float (strip f1) = Some val /\
    py_int (strip f2) = Some life.
Proof.
  unfold parse_assets. intros Hin.
  apply parse_lines_In in Hin. destruct Hin as (line & Hline & Hp).
  apply parse_line_Some in Hp.
  destruct Hp as (p0 & p1 & p2 & v & l & Hs & Hf & Hi & E).
  inversion E; subst; clear E.
  destruct (split comma line) as [|f0 [|f1 [|f2 [|f3 fs]]]] eqn:Hsp;
    try discriminate Hs.
  simpl in Hs. inversion Hs; subst; clear Hs.
  assert (H0in : In f0 (split comma line)) by (rewrite Hsp; now left).
  destruct (split_fields _ _ _ H0in) as (Hnc & Hsub).
  destruct (split_fields _ _ _ Hline) as (Hnn & _).
  split; [apply strip_idempotent|]. split; [|split].
  - intros Hc. apply Hnc. apply strip_chars, Hc.
  - intros Hn. apply Hnn. apply Hsub. apply strip_chars, Hn.
  - exists line, f0, f1, f2. repeat split; assumption.
Qed.

End ParserLines.

(** ** Year labels *)

Lemma to_int_not_nil (z : Z) :
  Z.to_int z <> Decimal.Pos Decimal.Nil /\
  Z.to_int z <> Decimal.Neg Decimal.Nil.
Proof.
  pose proof (DecimalZ.to_of (Z.to_int z)) as E.
  rewrite DecimalZ.of_to in E.
  split; intros C; rewrite C in E; discriminate E.
Qed.

Lemma year_label_injective (y z : Z) : year_label y = year_label z -> y = z.
Proof.
  unfold year_label. simpl. intros E. inversion E as [E'].
  apply DecimalZ.to_int_inj.
  destruct (to_int_not_nil y) as (Hy1 & Hy2).
  destruct (to_int_not_nil z) as (Hz1 & Hz2).
  pose proof (NilZero.isi _ Hy1 Hy2) as Iy.
  pose proof (NilZero.isi _ Hz1 Hz2) as Iz.
  rewrite E' in Iy. rewrite Iy in Iz. now inversion Iz.
Qed.

Lemma NoDup_map_injective {A B : Type} (f : A -> B) (xs : list A) :
  (forall x y, f x = f y -> x = y) -> NoDup xs -> NoDup (map f xs).
Proof.
  intros Hf. induction 1 as [|x xs Hx HN IH]; simpl; constructor.
  - intros Hin. apply in_map_iff in Hin. destruct Hin as (y & E & Hy).
    apply Hf in E. subst y. exact (Hx Hy).
  - exact IH.
Qed.

(** X19.  Different years get different labels, and no label is "Item":
    the labels of a horizon are pairwise distinct, so the formatters, which
    key the columns of a table by year label next to the "Item" column,
    never overwrite one column with another. *)
Theorem X19_year_labels_are_distinct (n : Z) :
  NoDup (map year_label (year_range n)) /\
  ~ In "Item" (map year_label (year_range n)) /\
  (forall y z, year_label y = year_label z -> y = z).
Proof.
  split; [|split].
  - apply NoDup_map_injective; [apply year_label_injective|].
    unfold year_range. apply NoDup_map_injective;
      [apply Nat2Z.inj | apply seq_NoDup].
  - intros Hin. apply in_map_iff in Hin. destruct Hin as (y & E & _).
    unfold year_label in E. simpl in E. discriminate E.
  - apply year_label_injective.
Qed.

(** ** Tax in exact arithmetic *)

Lemma exact_gt0 (x : Qc) : gt0 x = true <-> (0 < x)%Qc.
Proof.
  unfold gt0, zero. simpl.
  change (Qc_of_Z 0) with (0%Qc).
  destruct (Qclt_le_dec 0 x) as [Hl|Hl]; split; intros E;
    try reflexivity; try exact Hl; try discriminate E.
  exfalso. exact (Qcle_not_lt _ _ Hl E).
Qed.

Lemma exact_percent_range (s : Z) :
  0 <= s <= 50 ->
  (0 <= percent (N:=Qc) s)%Qc /\
  (percent (N:=Qc) s + percent (N:=Qc) s <= 1)%Qc.
Proof.
  intros Hs. unfold percent. cbn [of_int div exact].
  unfold Qc_of_Z, Qcdiv, Qcle, Qcmult, Qcinv, Qcplus. cbn [this Q2Qc].
  rewrite !Qred_correct.
  unfold Qle, Qmult, Qinv, Qplus; simpl. split; lia.
Qed.

Lemma exact_half_profit (e t : Qc) :
  (0 <= t)%Qc -> (t + t <= e)%Qc -> (0 < e)%Qc ->
  (0 < e - t)%Qc /\ (e - t <= e)%Qc.
Proof.
  unfold Qclt, Qcle, Qcminus, Qcplus, Qcopp. cbn [this Q2Qc].
  rewrite !Qred_correct. change (this 0%Qc) with 0%Q.
  generalize (this e) (this t). intros x y. lra.
Qed.

(** What a rate between 0 and one half does to a profit and to a loss. *)
Lemma exact_tax_of_a_rate (e r : Qc) :
  (0 <= r)%Qc -> (r + r <= 1)%Qc ->
  let t := if gt0 e then (e * r)%py else zero in
  (0 <= t)%Qc /\
  ((0 < e)%Qc -> (t + t <= e)%Qc /\ (0 < e - t)%Qc /\ (e - t <= e)%Qc) /\
  ((e <= 0)%Qc -> t = 0%Qc /\ (e - t)%Qc = e).
Proof.
  intros Hr0 Hr1. cbv zeta.
  destruct (gt0 e) eqn:G.
  - apply exact_gt0 in G. cbn [mul exact].
    assert (H0 : (0 <= e * r)%Qc).
    { replace 0%Qc with (0 * r)%Qc by ring.
      apply Qcmult_le_compat_r; [apply Qclt_le_weak, G | exact Hr0]. }
    assert (H1 : (e * r + e * r <= e)%Qc).
    { replace (e * r + e * r)%Qc with ((r + r) * e)%Qc by ring.
      replace e with (1 * e)%Qc at 2 by ring.
      apply Qcmult_le_compat_r; [exact Hr1 | apply Qclt_le_weak, G]. }
    split; [exact H0|]. split.
    + intros _. split; [exact H1|].
      apply exact_half_profit; assumption.
    + intros Hle. exfalso. exact (Qcle_not_lt _ _ Hle G).
  - assert (Hle : (e <= 0)%Qc).
    { destruct (Qclt_le_dec 0 e) as [Hl|Hl]; [|exact Hl].
      apply exact_gt0 in Hl. congruence. }
    change (zero (N:=Qc)) with 0%Qc.
    split; [apply Qcle_refl|]. split.
    + intros Hpos. exfalso. exact (Qcle_not_lt _ _ Hle Hpos).
    + intros _. split; [reflexivity | ring].
Qed.

(** X21.  Over the rationals, with the rate in the slider's range of 0 to
    50 percent, tax is never negative and never turns a profit into a loss:
    on a positive profit before tax it is at most half of it, so the net
    income stays positive and does not exceed the profit; on a loss or a
    zero result no tax is charged and the net income is the result itself. *)
Theorem X21_exact_tax_bounds (a : Assumptions)
    (assets_list : list (Asset (N:=Qc))) (ys : list YearCalc) :
  0 <= tax_rate_slider a <= 50 ->
  income_calcs a assets_list = Ok ys ->
  Forall (fun y =>
            (0 <= taxes y)%Qc /\
            ((0 < ebt y)%Qc ->
             (taxes y + taxes y <= ebt y)%Qc /\
             (0 < net_income y)%Qc /\ (net_income y <= ebt y)%Qc) /\
            ((ebt y <= 0)%Qc ->
             taxes y = 0%Qc /\ net_income y = ebt y))
         ys.
Proof.
  intros Hs E.
  destruct (exact_percent_range _ Hs) as (Hr0 & Hr1).
  eapply Forall_impl; [|exact (income_calcs_equations _ _ _ E)].
  intros y He.
  pose proof (exact_tax_of_a_rate (ebt y) (tax_rate a) Hr0 Hr1) as HT.
  cbv zeta in HT. rewrite <- (ye_taxes _ _ _ He) in HT.
  change (ebt y - taxes y)%Qc with (ebt y - taxes y)%py in HT.
  rewrite <- (ye_net_income _ _ _ He) in HT. exact HT.
Qed.

(** ** Binary64: an unchanged balance shows as minus zero *)






(** ** Witnesses of the further properties *)

(** The benchmark frames have the three rows "Year 1" to "Year 3". *)
Lemma X1_one_row_per_year_witness :
  map df_Year (pr_df benchmark_projection) = ["Year 1"; "Year 2"; "Year 3"] /\
  map cf_Year (pr_cf_numeric benchmark_projection)
  = ["Year 1"; "Year 2"; "Year 3"] /\
  List.length (pr_closing_cash_list benchmark_projection) = 3%nat.
Proof.
  destruct (X1_one_row_per_year benchmark _ benchmark_projection
              benchmark_projection_Ok) as (H1 & H2 & _ & H4 & _).
  split; [exact H1|]. split; [exact H2 | exact H4].
Defined.

(** On the benchmark the first year loses 220,000 of the opening 100,000
    and the second year changes nothing. *)
Lemma X3_cash_bridge_witness :
  exists c1 c2,
    nth_error (pr_cf_numeric benchmark_projection) 0 = Some c1 /\
    nth_error (pr_cf_numeric benchmark_projection) 1 = Some c2 /\
    cf_Closing_Cash c1
    = (of_int (opening_cash benchmark) + cf_Net_Change_Cash c1)%py /\
    cf_Closing_Cash c2 = (cf_Closing_Cash c1 + cf_Net_Change_Cash c2)%py /\
    (cf_Net_Change_Cash c1, cf_Closing_Cash c1)
    = ((-220000)%float, (-120000)%float) /\
    (cf_Net_Change_Cash c2, cf_Closing_Cash c2)
    = (0%float, (-120000)%float).
Proof.
  destruct (X3_cash_bridge benchmark _ benchmark_projection
              benchmark_projection_Ok) as (_ & Hfirst & Hnext).
  do 2 eexists.
  split; [reflexivity|]. split; [reflexivity|].
  split; [apply (Hfirst _ eq_refl)|].
  split; [apply (Hnext 0%nat _ _ eq_refl eq_refl)|].
  split; reflexivity.
Defined.

(** On the benchmark receivables go from the opening 50,000 to 200,000 and
    inventory from 30,000 to 100,000 in the first year, and stay there. *)
Lemma X4_working_capital_deltas_witness :
  exists c1 c2 b1 b2,
    nth_error (pr_cf_numeric benchmark_projection) 0 = Some c1 /\
    nth_error (pr_cf_numeric benchmark_projection) 1 = Some c2 /\
    nth_error (pr_bs_numeric benchmark_projection) 0 = Some b1 /\
    nth_error (pr_bs_numeric benchmark_projection) 1 = Some b2 /\
    cf_dAR c1
    = (- (bs_Accounts_Receivable b1 - of_int (opening_ar benchmark)))%py /\
    cf_dInventory c2 = (- (bs_Inventory b2 - bs_Inventory b1))%py /\
    (cf_dAR c1, cf_dInventory c1) = ((-150000)%float, (-70000)%float) /\
    (cf_dAR c2, cf_dInventory c2) = ((-0)%float, (-0)%float).
Proof.
  destruct (X4_working_capital_deltas benchmark _ benchmark_projection
              benchmark_projection_Ok) as (Hfirst & Hnext).
  do 4 eexists.
  split; [reflexivity|]. split; [reflexivity|].
  split; [reflexivity|]. split; [reflexivity|].
  split; [apply (Hfirst _ _ eq_refl eq_refl)|].
  split; [apply (Hnext 0%nat _ _ _ eq_refl eq_refl eq_refl)|].
  split; reflexivity.
Defined.

(** On the benchmark the CapEx line is -50,000 and the interest line
    -20,000 in each year. *)
Lemma X5_cash_flow_lines_witness :
  Forall2 (fun row c =>
             cf_Net_Income c = df_Net_Income row /\
             cf_CapEx c = (- of_int (capex_input benchmark))%py /\
             cf_Change_NCL c = zero)
          (pr_df benchmark_projection) (pr_cf_numeric benchmark_projection) /\
  map cf_CapEx (pr_cf_numeric benchmark_projection)
  = [(-50000)%float; (-50000)%float; (-50000)%float] /\
  map cf_Interest_Paid (pr_cf_numeric benchmark_projection)
  = [(-20000)%float; (-20000)%float; (-20000)%float].
Proof.
  split; [|split; reflexivity].
  eapply Forall2_impl;
    [|exact (X5_cash_flow_lines benchmark _ benchmark_projection
               benchmark_projection_Ok)].
  intros row c (_ & Hn & _ & Hc & _ & _ & _ & Hncl & _).
  split; [exact Hn|]. split; [exact Hc | exact Hncl].
Defined.

(** On the benchmark share capital is 400,000 and non-current liabilities
    100,000 in each of the three balance sheets. *)
Lemma X6_balance_sheet_rows_witness :
  Forall2 (fun row b =>
             bs_Total_Assets b = (bs_Total_Current_Assets b + bs_PPE b)%py /\
             bs_Share_Capital b = of_int (opening_equity benchmark))
          (pr_df benchmark_projection) (pr_bs_numeric benchmark_projection) /\
  map bs_Share_Capital (pr_bs_numeric benchmark_projection)
  = [400000%float; 400000%float; 400000%float] /\
  map bs_Total_Assets (pr_bs_numeric benchmark_projection)
  = [600000%float; 620000%float; 640000%float].
Proof.
  split; [|split; reflexivity].
  eapply Forall2_impl;
    [|exact (X6_balance_sheet_rows benchmark _ benchmark_projection
               benchmark_projection_Ok)].
  intros row b (_ & _ & _ & Hta & Hsc & _).
  split; [exact Hta | exact Hsc].
Defined.

(** On the benchmark the second balance sheet shows the PPE of 440,000 and
    the retained earnings of 80,000 that the cash-flow loop holds after two
    years. *)
Lemma X7_the_two_walks_agree_witness :
  exists b,
    nth_error (pr_bs_numeric benchmark_projection) 1 = Some b /\
    bs_PPE b
    = ppe_prev (cash_flow benchmark (firstn 2 (pr_df benchmark_projection))) /\
    bs_Retained_Earnings b
    = retained_after benchmark (firstn 2 (pr_df benchmark_projection)) /\
    (bs_PPE b, bs_Retained_Earnings b) = (440000%float, 80000%float).
Proof.
  eexists. split; [reflexivity|].
  destruct (X7_the_two_walks_agree benchmark _ benchmark_projection 1%nat _
              benchmark_projection_Ok eq_refl) as (Hp & _ & _ & Hr).
  split; [exact Hp|]. split; [exact Hr | reflexivity].
Defined.

(** With the sidebar defaults (5 percent more units and 2 percent higher
    prices a year) the second year sells 10,500 units at 102. *)
Lemma X8_compound_growth_witness :
  exists pr row,
    projection (N:=float) sidebar_defaults
               (parse_assets (assets_input sidebar_defaults)) = Ok pr /\
    nth_error (pr_df pr) 1 = Some row /\
    df_Units row = drv_u (drivers_at sidebar_defaults 1) /\
    df_Sales row
    = (drv_u (drivers_at sidebar_defaults 1)
       * drv_p (drivers_at sidebar_defaults 1))%py /\
    (df_Units row, df_Price_per_Unit row, df_Sales row)
    = (10500%float, 102%float, 1071000%float).
Proof.
  destruct (projection (N:=float) sidebar_defaults
              (parse_assets (assets_input sidebar_defaults)))
    as [pr|e] eqn:E; [|vm_compute in E; discriminate E].
  destruct (nth_error (pr_df pr) 1) as [row|] eqn:Hrow.
  - exists pr, row. split; [reflexivity|]. split; [exact Hrow|].
    destruct (X8_compound_growth sidebar_defaults _ pr 1%nat row E Hrow)
      as (Hu & Hp & Hs & _).
    split; [exact Hu|]. split; [exact Hs|].
    rewrite Hs, Hu, Hp. vm_compute. reflexivity.
  - exfalso. vm_compute in E. inversion E; subst. discriminate Hrow.
Defined.

(** On the benchmark both tables show $-120,000.00 as the cash of the first
    year. *)
Lemma X14_cash_cells_agree_witness :
  exists bt ct cb cc,
    make_ifrs_balance_sheet (pr_bs_numeric benchmark_projection)
      (parse_assets (assets_input benchmark)) "$" 2 = Ok bt /\
    make_ifrs_cashflow_display (pr_cf_numeric benchmark_projection) "$" 2
    = Ok ct /\
    nth_error (tbl_columns bt) 0 = Some cb /\
    nth_error (tbl_columns ct) 0 = Some cc /\
    fst cb = fst cc /\
    nth_error (snd cb) 4 = Some "$-120,000.00" /\
    nth_error (snd cc) 16 = Some "$-120,000.00".
Proof.
  destruct (make_ifrs_balance_sheet (pr_bs_numeric benchmark_projection)
              (parse_assets (assets_input benchmark)) "$" 2)
    as [bt|e] eqn:Eb; [|vm_compute in Eb; discriminate Eb].
  destruct (make_ifrs_cashflow_display (pr_cf_numeric benchmark_projection)
              "$" 2) as [ct|e] eqn:Ec; [|vm_compute in Ec; discriminate Ec].
  destruct (nth_error (tbl_columns bt) 0) as [cb|] eqn:Hb;
    [|vm_compute in Eb; inversion Eb; subst; discriminate Hb].
  destruct (nth_error (tbl_columns ct) 0) as [cc|] eqn:Hc;
    [|vm_compute in Ec; inversion Ec; subst; discriminate Hc].
  exists bt, ct, cb, cc.
  split; [reflexivity|]. split; [reflexivity|].
  split; [exact Hb|]. split; [exact Hc|].
  destruct (X14_cash_cells_agree benchmark _ benchmark_projection "$" 2
              bt ct 0%nat cb cc benchmark_projection_Ok Eb Ec Hb Hc)
    as (Hy & _ & _ & v & Hv & Hcb & Hcc).
  split; [exact Hy|].
  change (3 + List.length (parse_assets (N:=float) (assets_input benchmark)))%nat
    with 4%nat in Hcb.
  inversion Hv; subst v. split; [exact Hcb | exact Hcc].
Defined.

(** The second year column of the benchmark income statement. *)
Lemma X15_income_statement_cells_witness :
  exists ys tbl c,
    income_calcs (N:=float) benchmark (parse_assets (assets_input benchmark))
    = Ok ys /\
    make_ifrs_income_statement (map (data_row benchmark) ys) "$" 2 = Ok tbl /\
    nth_error (tbl_columns tbl) 1 = Some c /\
    c = ("Year 2",
         ["$1,000,000.00"; "10,000"; "$100.00"; "$400,000.00"; "$600,000.00";
          EmptyString; "$300,000.00"; "$200,000.00"; "$30,000.00";
          "$70,000.00"; "$20,000.00"; "$50,000.00"; "$10,000.00";
          "$40,000.00"]).
Proof.
  destruct (income_calcs (N:=float) benchmark
              (parse_assets (assets_input benchmark)))
    as [[|y1 [|y ys]]|e] eqn:E; try (vm_compute in E; discriminate E).
  destruct (make_ifrs_income_statement
              (map (data_row benchmark) (y1 :: y :: ys)) "$" 2)
    as [tbl|e] eqn:Et.
  - destruct (nth_error (tbl_columns tbl) 1) as [c|] eqn:Hc.
    + exists (y1 :: y :: ys), tbl, c.
      split; [reflexivity|]. split; [exact Et|]. split; [exact Hc|].
      destruct (X15_income_statement_cells benchmark _ (y1 :: y :: ys) tbl
                  1%nat y c benchmark_in_widget_ranges E Et (le_n 1) eq_refl
                  Hc) as (Hl & Hcol).
      destruct c as [label col]. simpl in Hl, Hcol. rewrite Hl, Hcol.
      vm_compute in E. inversion E; subst. vm_compute. reflexivity.
    + exfalso. vm_compute in E. inversion E; subst.
      vm_compute in Et. inversion Et; subst. discriminate Hc.
  - exfalso. vm_compute in E. inversion E; subst.
    vm_compute in Et. discriminate Et.
Defined.

(** The benchmark gets through to the balance message; with a life of zero
    the same run raises the ZeroDivisionError of the depreciation sum. *)
Lemma X13_outcome_before_the_downloads_witness :
  (exists out, run (N:=float) benchmark = Ok out) /\
  run (N:=float) zero_life = Raise ZeroDivisionError.
Proof.
  split.
  - apply (proj1 (X13_outcome_before_the_downloads (N:=float) benchmark
                    benchmark_in_widget_ranges)).
    rewrite benchmark_assets. repeat constructor; simpl; discriminate.
  - apply (proj1 (proj2 (X13_outcome_before_the_downloads (N:=float) zero_life
                           zero_life_in_widget_ranges))).
    vm_compute. reflexivity.
Defined.

(** Over the rationals the run that is out of balance in binary64 passes
    the balance check. *)
Lemma X16_exact_balance_check_witness :
  exists pr : Projection (N:=Qc),
    projection large_share_capital
               (parse_assets (assets_input large_share_capital)) = Ok pr /\
    balance_gap (pr_bs_numeric pr) = Some zero /\
    balance_message (pr_bs_numeric pr) "$" 2 = success.
Proof.
  destruct (projection (N:=Qc) large_share_capital
              (parse_assets (assets_input large_share_capital)))
    as [pr|e] eqn:E; [|vm_compute in E; discriminate E].
  exists pr. split; [reflexivity|].
  apply (X16_exact_balance_check large_share_capital
           (parse_assets (assets_input large_share_capital)) pr "$" 2);
    [vm_compute; discriminate | exact E].
Defined.

(** The benchmark's one asset: the name Machinery is stripped and holds no
    comma. *)
Lemma X18_parsed_assets_witness :
  In ("Machinery", 300000%float, 10)
     (parse_assets (N:=float) (assets_input benchmark)) /\
  strip "Machinery" = "Machinery" /\
  ~ In comma (list_ascii_of_string "Machinery").
Proof.
  assert (Hin : In ("Machinery", 300000%float, 10)
                   (parse_assets (N:=float) (assets_input benchmark)))
    by (left; vm_compute; reflexivity).
  split; [exact Hin|].
  destruct (X18_parsed_assets (N:=float) _ _ _ _ Hin) as (Hs & Hc & _).
  split; [exact Hs | exact Hc].
Defined.

(** Two entries of the menu. *)
Lemma X20_currency_symbol_witness :
  currency_symbol_of "USD ($)" = "$" /\ currency_symbol_of "EUR (€)" = "€".
Proof.
  split.
  - apply (proj2 (proj2 (X20_currency_symbol "USD" "$"
                           ltac:(simpl; intros [E|[]]; discriminate E))));
      [simpl; intros [E|[]]; discriminate E | reflexivity].
  - apply (proj2 (proj2 (X20_currency_symbol "EUR" "€"
                           ltac:(simpl; intuition discriminate))));
      [simpl; intuition discriminate | reflexivity].
Defined.

(** The benchmark over the rationals: 10,000 of tax on a profit of 50,000
    before tax. *)
Lemma X21_exact_tax_bounds_witness :
  exists y ys,
    income_calcs (N:=Qc) benchmark (parse_assets (assets_input benchmark))
    = Ok (y :: ys) /\
    (0 < ebt y)%Qc /\
    (taxes y + taxes y <= ebt y)%Qc /\
    (0 < net_income y)%Qc /\
    (ebt y, taxes y) = (Qc_of_Z 50000, Qc_of_Z 10000).
Proof.
  destruct (income_calcs (N:=Qc) benchmark
              (parse_assets (assets_input benchmark)))
    as [[|y ys]|e] eqn:E; try (vm_compute in E; discriminate E).
  assert (Hs : 0 <= tax_rate_slider benchmark <= 50) by (simpl; lia).
  pose proof (X21_exact_tax_bounds benchmark _ _ Hs E) as HT.
  inversion HT as [|y' ys' (_ & Hpos & _) _]; subst.
  assert (Hv : (ebt y, taxes y) = (Qc_of_Z 50000, Qc_of_Z 10000)).
  { vm_compute in E. inversion E; subst. vm_compute.
    f_equal; apply Qc_is_canon; reflexivity. }
  assert (Hp : (0 < ebt y)%Qc).
  { inversion Hv as [[He Ht]]. rewrite He. reflexivity. }
  exists y, ys. split; [reflexivity|]. split; [exact Hp|].
  destruct (Hpos Hp) as (H1 & H2 & _).
  split; [exact H1|]. split; [exact H2 | exact Hv].
Defined.
